(** * GPU cluster monitor: a shallow embedding of [gpu_monitor/core.py]

    The development follows the engine of [src/gpu_monitor/core.py] (class
    [GPUMonitor]) and the records of [src/gpu_monitor/models.py].  The
    module-level functions of [core.py], the [kill] command of
    [src/gpu_monitor/cli.py] and two handlers of
    [src/gpu_monitor/mcp_server.py] are embedded after the engine.

    Modelling decisions, all of them visible in the definitions below.

    - Text is a [string] whose characters stand for the code points 0..255;
      the character classes of [str.strip] and of the [re] module are the
      Python ones restricted to that range.
    - Python [int] is [Z]; [int()] of a text refuses more than 4300
      characters, the default limit of the interpreter.  Clock readings
      ([time.time()], [datetime.now()]) are integers in seconds; the source
      has floats.  Time passes by natural numbers of seconds, so the clock
      of the model is never set back; a statement that needs a time stamp
      not to lie in the future says so.
    - [bytes] objects coming back from the subprocess are represented by what
      [bytes.decode()] does on them: it yields text or raises.
    - The engine is stateful: the cache [self._cache], the wall clock and the
      list of commands handed to [ssh] are threaded explicitly as a [World].
      What the remote side answers is a parameter [remote] of every
      operation; it sees the whole history of issued commands and the clock.
    - [asyncio.gather] is an event loop over the tasks of the selected
      servers.  A task enters [async with self._semaphore] when a permit is
      free, runs up to its wait for the reply of [ssh], and goes on when the
      reply is looked at; in which order tasks enter and replies are looked
      at is decided by [remote] as well, so every interleaving the
      semaphore allows is covered.  The gathered results are in the order
      of the tasks whatever the schedule.  With no permit a task waits for
      ever, and so does the call: a method returns an [outcome], which says
      whether the call returned, raised or never ends.  Cancellation
      ([BaseException]) is outside the model.
    - Operations that can raise return a [py] value: [Return] or [Raise]. *)

From Stdlib Require Import ZArith NArith Ascii String List.
From stdpp Require Import base option list gmap strings pretty.

Local Open Scope string_scope.
Local Open Scope list_scope.
Local Open Scope stdpp_scope.
Local Open Scope Z_scope.

(** ** Text utilities: what the source uses of [str] *)

Definition code (c : ascii) : N := N_of_ascii c.

Definition in_range (lo hi : N) (c : ascii) : bool :=
  ((lo <=? code c) && (code c <=? hi))%N.

(** [str.isspace] on the code points below 256. *)
Definition is_space (c : ascii) : bool :=
  in_range 9 13 c || in_range 28 32 c || (code c =? 133)%N || (code c =? 160)%N.

(** [\d] of a [str] pattern: decimal digits; below 256 these are 0-9. *)
Definition is_digit (c : ascii) : bool := in_range 48 57 c.

(** [\w] of a [str] pattern: alphanumerics and the underscore. *)
Definition is_word (c : ascii) : bool :=
  is_digit c || in_range 65 90 c || in_range 97 122 c || (code c =? 95)%N
  || (code c =? 170)%N || in_range 178 179 c || (code c =? 181)%N
  || in_range 185 186 c || in_range 188 190 c || in_range 192 214 c
  || in_range 216 246 c || in_range 248 255 c.

Definition newline : ascii := "010"%char.

Definition is_empty (s : string) : bool :=
  match s with "" => true | _ => false end.

Fixpoint lstrip (s : string) : string :=
  match s with
  | "" => ""
  | String c s' => if is_space c then lstrip s' else s
  end.

Fixpoint rstrip (s : string) : string :=
  match s with
  | "" => ""
  | String c s' =>
      match rstrip s' with
      | "" => if is_space c then "" else String c ""
      | r => String c r
      end
  end.

(** [s.strip()] *)
Definition strip (s : string) : string := rstrip (lstrip s).

(** [s.split('\n')] *)
Fixpoint split_newline (s : string) : list string :=
  match s with
  | "" => [""]
  | String c s' =>
      match split_newline s' with
      | l :: ls => if Ascii.eqb c newline then "" :: l :: ls else String c l :: ls
      | [] => []
      end
  end.

Fixpoint starts_with (p s : string) : bool :=
  match p, s with
  | "", _ => true
  | String a p', String b s' => Ascii.eqb a b && starts_with p' s'
  | String _ _, "" => false
  end.

(** [needle in s] *)
Fixpoint py_in (needle s : string) : bool :=
  starts_with needle s ||
  match s with
  | "" => false
  | String _ s' => py_in needle s'
  end.

(** [sep.join(l)] *)
Fixpoint join (sep : string) (l : list string) : string :=
  match l with
  | [] => ""
  | [x] => x
  | x :: rest => x +:+ sep +:+ join sep rest
  end.

Fixpoint digits_value (acc : Z) (s : string) : option Z :=
  match s with
  | "" => Some acc
  | String c s' =>
      if is_digit c
      then digits_value (10 * acc + (Z.of_N (code c) - 48)) s'
      else None
  end.

(** [sys.int_info.default_max_str_digits]: the longest string of digits
    that [int] converts. *)
Definition max_str_digits : Z := 4300.

(** [int(s)] on the strings the parser hands to it, which are captures of
    [\d+]: a non-empty run of at most [max_str_digits] digits, leading
    zeros counted, has its decimal value; anything else raises [ValueError]
    ([None]). *)
Definition py_int (s : string) : option Z :=
  if is_empty s then None
  else if max_str_digits <? Z.of_nat (String.length s) then None
  else digits_value 0 s.

(** ** The fragment of [re] the parser uses

    Both patterns of the source are sequences of literal characters and of
    repetitions of one character class, greedy or lazy, captured or not.
    The matcher is the backtracking one of [re]: alternatives are tried in
    priority order and the first complete match wins. *)

Inductive cclass := Digit | Space | Word | AnyChar.

Definition in_class (cl : cclass) (c : ascii) : bool :=
  match cl with
  | Digit => is_digit c
  | Space => is_space c
  | Word => is_word c
  | AnyChar => negb (Ascii.eqb c newline)
  end.

Inductive atom :=
| Lit (c : ascii)
| Rep (cl : cclass) (least : nat) (greedy : bool) (capture : bool).

Definition regex := list atom.

Section Repetition.
Context {R : Type} (cl : cclass) (k : string → string → option R).

(** The repetition ends here, if it has taken enough. *)
Definition rep_stop (least : nat) (taken s : string) : option R :=
  match least with O => k taken s | S _ => None end.

(** [cl{least,}], longest first; [taken] is what was consumed so far. *)
Fixpoint rep_greedy (least : nat) (taken s : string) : option R :=
  match s with
  | "" => rep_stop least taken s
  | String c s' =>
      if in_class cl c then
        match rep_greedy (pred least) (taken +:+ String c "") s' with
        | Some r => Some r
        | None => rep_stop least taken s
        end
      else rep_stop least taken s
  end.

(** [cl{least,}?], shortest first. *)
Fixpoint rep_lazy (least : nat) (taken s : string) : option R :=
  match rep_stop least taken s with
  | Some r => Some r
  | None =>
      match s with
      | "" => None
      | String c s' =>
          if in_class cl c
          then rep_lazy (pred least) (taken +:+ String c "") s'
          else None
      end
  end.
End Repetition.

(** Match [re] at the start of [s]; the groups captured so far are [caps]. *)
Fixpoint match_here (re : regex) (caps : list string) (s : string)
  : option (list string) :=
  match re with
  | [] => Some caps
  | Lit c :: re' =>
      match s with
      | String c' s' => if Ascii.eqb c c' then match_here re' caps s' else None
      | "" => None
      end
  | Rep cl least greedy capture :: re' =>
      (if greedy then rep_greedy else rep_lazy) cl
        (λ taken rest,
           match_here re' (if capture then caps ++ [taken] else caps) rest)
        least "" s
  end.

(** [re.search(re, s)] followed by [.groups()]: leftmost match. *)
Fixpoint re_search (re : regex) (s : string) : option (list string) :=
  match match_here re [] s with
  | Some groups => Some groups
  | None =>
      match s with
      | "" => None
      | String _ s' => re_search re s'
      end
  end.

Fixpoint lits (s : string) : regex :=
  match s with
  | "" => []
  | String c s' => Lit c :: lits s'
  end.

(** [r'GPU (\d+).*?(\d+)%.*?(\d+)/(\d+)\s*MB'] *)
Definition gpu_pattern : regex :=
  (lits "GPU " ++ [Rep Digit 1 true true; Rep AnyChar 0 false false;
                   Rep Digit 1 true true; Lit "%"; Rep AnyChar 0 false false;
                   Rep Digit 1 true true; Lit "/"; Rep Digit 1 true true;
                   Rep Space 0 true false] ++ lits "MB")%list.

(** [r'PID\s+(\d+)\s+(\w+)\s+GPU:(\d+)\s+(\d+)MB\s+(.+)'] *)
Definition process_pattern : regex :=
  (lits "PID" ++ [Rep Space 1 true false; Rep Digit 1 true true;
                  Rep Space 1 true false; Rep Word 1 true true;
                  Rep Space 1 true false] ++ lits "GPU:" ++
   [Rep Digit 1 true true; Rep Space 1 true false; Rep Digit 1 true true] ++
   lits "MB" ++ [Rep Space 1 true false; Rep AnyChar 1 true true])%list.

(** ** Data model ([models.py]) *)

Module ServerConfig.
Record t := mk { id : string; hostname : string; description : string }.
End ServerConfig.

(** A value of the settings dictionary ([Dict[str, Any]]): the JSON file can
    put a number or a string there (its other kinds of values are left
    out). *)
Inductive PyVal := PyNum (n : Z) | PyStr (s : string).

Module ClusterConfig.
Record t := mk { servers : list ServerConfig.t; settings : gmap string PyVal }.
End ClusterConfig.

Module GPUInfo.
Record t := mk {
  index : Z;
  name : string;
  utilization_percent : Z;
  memory_used_mb : Z;
  memory_total_mb : Z;
  memory_free_mb : Z;
  temperature_c : option Z;
  power_draw_w : option Z }.
End GPUInfo.

Module ProcessInfo.
Record t := mk {
  pid : Z;
  username : string;
  gpu_index : Z;
  memory_used_mb : Z;
  process_name : string }.
End ProcessInfo.

Module ServerStatus.
Record t := mk {
  server_id : string;
  hostname : string;
  online : bool;
  error_message : option string;
  gpus : list GPUInfo.t;
  processes : list ProcessInfo.t;
  last_updated : Z;
  response_time_ms : option Z }.
End ServerStatus.

(** ** Telemetry parser ([_parse_nvidia_smi_output]) *)

(** The GPU branch of the loop body.  [None] stands for an exception, which
    the enclosing [try] turns into "stop and keep what was accumulated". *)
Definition gpu_step (line : string) (gpus : list GPUInfo.t)
  : option (list GPUInfo.t) :=
  if py_in "GPU" line && py_in "%" line then
    match re_search gpu_pattern line with
    | Some groups =>
        match groups with
        | [gpu_idx; util; used_mem; total_mem] =>
            i ← py_int gpu_idx;
            u ← py_int util;
            used ← py_int used_mem;
            total ← py_int total_mem;
            Some (gpus ++ [GPUInfo.mk i "Tesla V100" u used total
                             (total - used) None None])
        | _ => None
        end
    | None => Some gpus
    end
  else Some gpus.

(** The process branch of the loop body. *)
Definition process_step (line : string) (processes : list ProcessInfo.t)
  : option (list ProcessInfo.t) :=
  if py_in "PID" line && py_in "Memory" line then
    match re_search process_pattern line with
    | Some groups =>
        match groups with
        | [pid; user; gpu_idx; mem; proc_name] =>
            p ← py_int pid;
            g ← py_int gpu_idx;
            m ← py_int mem;
            Some (processes ++ [ProcessInfo.mk p user g m (strip proc_name)])
        | _ => None
        end
    | None => Some processes
    end
  else Some processes.

Fixpoint parse_lines (lines : list string)
    (gpus : list GPUInfo.t) (processes : list ProcessInfo.t)
  : list GPUInfo.t * list ProcessInfo.t :=
  match lines with
  | [] => (gpus, processes)
  | raw :: rest =>
      let line := strip raw in
      if is_empty line then parse_lines rest gpus processes
      else
        match gpu_step line gpus with
        | None => (gpus, processes)
        | Some gpus' =>
            match process_step line processes with
            | None => (gpus', processes)
            | Some processes' => parse_lines rest gpus' processes'
            end
        end
  end.

Definition _parse_nvidia_smi_output (output : string)
  : list GPUInfo.t * list ProcessInfo.t :=
  parse_lines (split_newline output) [] [].

Module ClusterStatus.
Record t := mk {
  servers : list ServerStatus.t;
  total_gpus : Z;
  online_servers : Z;
  total_servers : nat;
  last_updated : Z }.
End ClusterStatus.

(** ** Python values the engine passes around *)

(** The result of a call that can raise: [Raise msg] carries [str(e)]. *)
Inductive py (A : Type) :=
| Return (a : A)
| Raise (msg : string).
Arguments Return {A} a.
Arguments Raise {A} msg.

(** [str(v)], as an f-string prints a setting. *)
Definition py_str (v : PyVal) : string :=
  match v with
  | PyNum n => pretty n
  | PyStr s => s
  end.

(** A [dict] with [str] keys: insertion ordered, assignment to a key that is
    present replaces the value in place. *)
Definition pydict (V : Type) := list (string * V).

Fixpoint dict_set {V} (k : string) (v : V) (d : pydict V) : pydict V :=
  match d with
  | [] => [(k, v)]
  | (k', v') :: d' =>
      if decide (k = k') then (k, v) :: d' else (k', v') :: dict_set k v d'
  end.

Fixpoint dict_get {V} (k : string) (d : pydict V) : option V :=
  match d with
  | [] => None
  | (k', v') :: d' => if decide (k = k') then Some v' else dict_get k d'
  end.

Definition dict_keys {V} (d : pydict V) : list string := d.*1.

Module UserUsageSummary.
Record t := mk {
  username : string;
  total_processes : nat;
  total_memory_used_mb : Z;
  servers_used : list string;
  processes_by_server : pydict (list ProcessInfo.t);
  last_updated : Z }.
End UserUsageSummary.

(** ** The remote side *)

(** A [bytes] object, seen through [bytes.decode()]. *)
Inductive pybytes :=
| Text (t : string)
| Undecodable (err : string).

Definition decode (b : pybytes) : py string :=
  match b with
  | Text t => Return t
  | Undecodable err => Raise err
  end.

(** How [create_subprocess_exec] followed by [wait_for (communicate ())]
    ends: the process exits, [wait_for] raises [TimeoutError], or something
    else raises an [Exception] whose text is [msg]. *)
Inductive Completion :=
| Exited (returncode : Z) (stdout stderr : pybytes)
| TimedOut
| Failed (msg : string).

Record Reply := { completion : Completion; took : N }.

(** What the event loop does next while [gather] waits for its tasks: the
    next task in line enters [async with self._semaphore], or the reply of
    a command in flight arrives and its task goes on.  A move says which of
    the two comes first when both can happen, and which reply arrives, the
    [reply_of]-th of those that are due. *)
Record Move := { enter_first : bool; reply_of : nat }.

(** The surroundings of the monitor.  The remote side answers a command
    from the commands issued so far, the time of the call, the timeout
    passed to [wait_for], the host and the command.  While several commands
    are in flight, [arrival] says what happens next; it is asked with the
    commands issued so far, the time and the hosts that owe a reply. *)
Record Remote := {
  answer :> list (string * string) → Z → PyVal → string → string → Reply;
  arrival : list (string * string) → Z → list string → Move }.

(** ** The state of a [GPUMonitor] and of its surroundings *)

Record World := {
  _cache : gmap string (ServerStatus.t * Z);
  clock : Z;
  ssh_log : list (string * string) }.

(** [GPUMonitor.__init__] at time [t]: an empty cache. *)
Definition init (t : Z) : World :=
  {| _cache := ∅; clock := t; ssh_log := [] |}.

(** Time passing between two calls. *)
Definition tick (d : N) (w : World) : World :=
  {| _cache := _cache w; clock := clock w + Z.of_N d; ssh_log := ssh_log w |}.

Definition status_command : string :=
  "nvidia-smi --query-gpu=index,name,utilization.gpu,memory.used,memory.total,temperature.gpu,power.draw --format=csv,noheader,nounits && echo '---PROCESSES---' && nvidia-smi pmon -c 1".

Definition cache_key (server_id : string) : string :=
  "server_status_" +:+ server_id.

(** How a call ends: with a value, with an exception, or never, because a
    task waits for a semaphore that has no permit to give. *)
Inductive outcome (A : Type) :=
| Done (a : A)
| Raised (msg : string)
| Blocked.
Arguments Done {A} a.
Arguments Raised {A} msg.
Arguments Blocked {A}.

(** [asyncio.Semaphore(value)]: the number of permits, or the exception of
    its test [value < 0]. *)
Definition semaphore (value : PyVal) : py Z :=
  match value with
  | PyNum n =>
      if n <? 0 then Raise "Semaphore initial value must be >= 0" else Return n
  | PyStr _ => Raise "'<' not supported between instances of 'str' and 'int'"
  end.

(** A command that was sent and whose reply has not been looked at: the
    reply, and [start_time]. *)
Record Call := { reply : Reply; start_time : Z }.

(** A task of [gather] that has entered [async with self._semaphore]: it
    holds a permit and waits for the reply of its command, or it is over
    and has its result, a status or an exception. *)
Inductive Task :=
| Running (server : ServerConfig.t) (call : Call)
| Finished (result : py ServerStatus.t).

(** The tasks of one [gather]: those that have entered, in the order of
    the task list, and the servers of those that have not, in that order
    too. *)
Record Tasks := { entered : list Task; waiting : list ServerConfig.t }.

Section Monitor.
Variable remote : Remote.
Variable config : ClusterConfig.t.

(** [self.config.settings.get(key, dflt)] *)
Definition setting (key : string) (dflt : PyVal) : PyVal :=
  default dflt (ClusterConfig.settings config !! key).

(** The permits of [self._semaphore], which [__init__] creates from the
    setting [max_concurrent].  Where that constructor raises, no monitor
    has this configuration; the methods below are then given no permit. *)
Definition _semaphore : Z :=
  match semaphore (setting "max_concurrent" (PyNum 4)) with
  | Return permits => permits
  | Raise _ => 0
  end.

(** *** Freshness cache *)

Definition _is_cache_valid (key : string) (ttl : PyVal) (w : World) : py bool :=
  match _cache w !! key with
  | None => Return false
  | Some (_, timestamp) =>
      match ttl with
      | PyNum ttl => Return (bool_decide (clock w - timestamp < ttl))
      | PyStr _ =>
          Raise "'<' not supported between instances of 'float' and 'str'"
      end
  end.

Definition _get_cached (key : string) (w : World) : option ServerStatus.t :=
  match _cache w !! key with
  | Some (data, _) => Some data
  | None => None
  end.

Definition _set_cache (key : string) (data : ServerStatus.t) (w : World) : World :=
  {| _cache := <[key := (data, clock w)]> (_cache w);
     clock := clock w;
     ssh_log := ssh_log w |}.

(** [del self._cache[key]] guarded by [key in self._cache]. *)
Definition invalidate (key : string) (w : World) : World :=
  {| _cache := delete key (_cache w); clock := clock w; ssh_log := ssh_log w |}.

(** *** Remote command runner

    [_run_ssh_command] waits twice, for the subprocess to be created and for
    its output.  Other tasks of the same [gather] run in between, so the
    runner is given in two parts: up to the wait, and from the reply on. *)

(** The first part: the command is handed to [ssh]. *)
Definition send_command (hostname command : string) (w : World) : Call * World :=
  let start_time := clock w in
  let timeout := setting "ssh_timeout" (PyNum 5) in
  ({| reply := remote (ssh_log w) start_time timeout hostname command;
      start_time := start_time |},
   {| _cache := _cache w;
      clock := clock w;
      ssh_log := ssh_log w ++ [(hostname, command)] |}).

(** The second part.  The task goes on when the reply is there, and not
    before the time [w] has come to while other tasks ran. *)
Definition receive_reply (call : Call) (w : World) : (bool * string * Z) * World :=
  let timeout := setting "ssh_timeout" (PyNum 5) in
  let w' := {| _cache := _cache w;
               clock := Z.max (clock w)
                          (start_time call + Z.of_N (took (reply call)));
               ssh_log := ssh_log w |} in
  let elapsed := (clock w' - start_time call) * 1000 in
  match completion (reply call) with
  | Exited returncode stdout stderr =>
      if returncode =? 0 then
        match decode stdout with
        | Return out => (true, strip out, elapsed, w')
        | Raise e => (false, e, elapsed, w')
        end
      else
        match decode stderr with
        | Return err => (false, strip err, elapsed, w')
        | Raise e => (false, e, elapsed, w')
        end
  | TimedOut =>
      (false, "SSH timeout after " +:+ py_str timeout +:+ "s", elapsed, w')
  | Failed msg => (false, msg, elapsed, w')
  end.

(** The runner where nothing else runs in between, as in the kill loop. *)
Definition _run_ssh_command (hostname command : string) (w : World)
  : (bool * string * Z) * World :=
  let '(call, w1) := send_command hostname command w in
  receive_reply call w1.

(** *** Server status resolver *)

(** [_get_server_status] inside [async with], up to the wait for the
    reply: the cache test raises, or the cached status is returned, or the
    query is sent.  [if cached_data:] tests a model instance, which is
    always true, so the test only separates [None]. *)
Definition begin_status (server : ServerConfig.t) (w : World)
  : (py ServerStatus.t + Call) * World :=
  let key := cache_key (ServerConfig.id server) in
  let ttl := setting "cache_ttl" (PyNum 30) in
  match _is_cache_valid key ttl w with
  | Raise e => (inl (Raise e), w)
  | Return true =>
      match _get_cached key w with
      | Some cached_data => (inl (Return cached_data), w)
      | None =>
          let '(call, w1) :=
            send_command (ServerConfig.hostname server) status_command w in
          (inr call, w1)
      end
  | Return false =>
      let '(call, w1) :=
        send_command (ServerConfig.hostname server) status_command w in
      (inr call, w1)
  end.

(** [_get_server_status] from the reply to the end: build the status,
    store it. *)
Definition end_status (server : ServerConfig.t) (call : Call) (w : World)
  : ServerStatus.t * World :=
  let '(success, output, response_time, w1) := receive_reply call w in
  let status :=
    if success : bool then
      let '(gpus, processes) := _parse_nvidia_smi_output output in
      ServerStatus.mk (ServerConfig.id server) (ServerConfig.hostname server)
        true None gpus processes (clock w1) (Some response_time)
    else
      ServerStatus.mk (ServerConfig.id server) (ServerConfig.hostname server)
        false (Some output) [] [] (clock w1) (Some response_time) in
  (status, _set_cache (cache_key (ServerConfig.id server)) status w1).

(** A query with nothing else running in between: send the command, build
    the status from the reply, store it. *)
Definition fresh_status (server : ServerConfig.t) (w : World)
  : ServerStatus.t * World :=
  let '(call, w1) :=
    send_command (ServerConfig.hostname server) status_command w in
  end_status server call w1.

(** One call of [_get_server_status] on its own.  It waits for ever at
    [async with self._semaphore] when the semaphore has no permit. *)
Definition _get_server_status (server : ServerConfig.t) (w : World)
  : outcome (py ServerStatus.t * World) :=
  if _semaphore <=? 0 then Blocked
  else
    match begin_status server w with
    | (inl result, w1) => Done (result, w1)
    | (inr call, w1) =>
        let '(status, w2) := end_status server call w1 in
        Done (Return status, w2)
    end.

(** *** Cluster aggregator *)

(** [if server_ids:] is false for [None] and for the empty list. *)
Definition servers_to_check (server_ids : option (list string))
  : list ServerConfig.t :=
  match server_ids with
  | None | Some [] => ClusterConfig.servers config
  | Some ids =>
      filter (λ s, ServerConfig.id s ∈ ids) (ClusterConfig.servers config)
  end.

(** The hosts that owe a reply. *)
Definition in_flight (tasks : list Task) : list string :=
  omap (λ t, match t with
             | Running server _ => Some (ServerConfig.hostname server)
             | Finished _ => None
             end) tasks.

(** The next task in line enters [async with]; it runs up to its first
    wait, or to its end when it does not wait. *)
Definition enter (tasks : Tasks) (w : World) : option (Tasks * World) :=
  match waiting tasks with
  | [] => None
  | server :: rest =>
      let '(r, w1) := begin_status server w in
      let task := match r with
                  | inl result => Finished result
                  | inr call => Running server call
                  end in
      Some ({| entered := entered tasks ++ [task]; waiting := rest |}, w1)
  end.

(** The [k]-th of the tasks that wait for a reply goes on to its end, and
    gives its permit back. *)
Fixpoint resume_in (k : nat) (tasks : list Task) (w : World)
  : option (list Task * World) :=
  match tasks with
  | [] => None
  | Running server call :: rest =>
      match k with
      | O =>
          let '(status, w1) := end_status server call w in
          Some (Finished (Return status) :: rest, w1)
      | S k' =>
          match resume_in k' rest w with
          | Some (rest', w1) => Some (Running server call :: rest', w1)
          | None => None
          end
      end
  | Finished result :: rest =>
      match resume_in k rest w with
      | Some (rest', w1) => Some (Finished result :: rest', w1)
      | None => None
      end
  end.

Definition resume (k : nat) (tasks : Tasks) (w : World) : option (Tasks * World) :=
  match resume_in k (entered tasks) w with
  | Some (tasks', w1) => Some ({| entered := tasks'; waiting := waiting tasks |}, w1)
  | None => None
  end.

(** A task may enter when fewer tasks hold a permit than the semaphore
    has. *)
Definition permit_free (tasks : Tasks) : bool :=
  Z.of_nat (length (in_flight (entered tasks))) <? _semaphore.

Definition try_enter (tasks : Tasks) (w : World) : option (Tasks * World) :=
  if permit_free tasks then enter tasks w else None.

(** The reply that [move] names arrives, or the first one that is due
    when there are fewer. *)
Definition reply_arrives (move : Move) (tasks : Tasks) (w : World)
  : option (Tasks * World) :=
  match resume (reply_of move) tasks w with
  | Some next => Some next
  | None => resume 0 tasks w
  end.

(** One move of the event loop, as [arrival] has it; [None] when no task
    can enter and no reply is due. *)
Definition step (tasks : Tasks) (w : World) : option (Tasks * World) :=
  let move :=
    arrival remote (ssh_log w) (clock w) (in_flight (entered tasks)) in
  if enter_first move then
    match try_enter tasks w with
    | Some next => Some next
    | None => reply_arrives move tasks w
    end
  else
    match reply_arrives move tasks w with
    | Some next => Some next
    | None => try_enter tasks w
    end.

(** The results, once every task is over. *)
Definition results (tasks : Tasks) : option (list (py ServerStatus.t)) :=
  match waiting tasks with
  | [] => mapM (λ t, match t with
                     | Finished result => Some result
                     | Running _ _ => None
                     end) (entered tasks)
  | _ :: _ => None
  end.

(** The event loop, for at most [moves] moves. *)
Fixpoint run (moves : nat) (tasks : Tasks) (w : World)
  : option (list (py ServerStatus.t) * World) :=
  match results tasks with
  | Some rs => Some (rs, w)
  | None =>
      match moves with
      | O => None
      | S moves' =>
          match step tasks w with
          | Some (tasks', w1) => run moves' tasks' w1
          | None => None
          end
      end
  end.

(** [asyncio.gather] over the tasks, with [return_exceptions=True]: an
    exception of a task becomes its result, and the results come in the
    order of the tasks.  Every task makes two moves at most, so the moves
    allowed here are enough for the loop to end unless it is stuck. *)
Definition gather (servers : list ServerConfig.t) (w : World)
  : outcome (list (py ServerStatus.t) * World) :=
  match run (2 * length servers) {| entered := []; waiting := servers |} w with
  | Some r => Done r
  | None => Blocked
  end.

(** The loop over [enumerate(server_statuses)]. *)
Definition valid_status (now : Z) (server : ServerConfig.t)
    (status : py ServerStatus.t) : ServerStatus.t :=
  match status with
  | Raise msg =>
      ServerStatus.mk (ServerConfig.id server) (ServerConfig.hostname server)
        false (Some msg) [] [] now None
  | Return st => st
  end.

(** [sum(...)] over a generator with a condition. *)
Definition py_sum (l : list Z) : Z := fold_left Z.add l 0.

Definition get_cluster_status (server_ids : option (list string)) (w : World)
  : outcome (ClusterStatus.t * World) :=
  let to_check := servers_to_check server_ids in
  match gather to_check w with
  | Done (server_statuses, w1) =>
      let valid_statuses :=
        zip_with (valid_status (clock w1)) to_check server_statuses in
      let total_gpus :=
        py_sum (map (λ s, Z.of_nat (length (ServerStatus.gpus s)))
                  (List.filter ServerStatus.online valid_statuses)) in
      let online_servers :=
        py_sum (map (λ _, 1) (List.filter ServerStatus.online valid_statuses)) in
      Done (ClusterStatus.mk valid_statuses total_gpus online_servers
              (length valid_statuses) (clock w1), w1)
  | Raised e => Raised e
  | Blocked => Blocked
  end.

(** *** Usage and kill engine *)

Record usage_acc := {
  user_processes : list ProcessInfo.t;
  by_server : pydict (list ProcessInfo.t);
  used : list string }.

(** The body of the loop over [cluster_status.servers]. *)
Definition usage_step (username : string) (acc : usage_acc)
    (server_status : ServerStatus.t) : usage_acc :=
  if negb (ServerStatus.online server_status) then acc
  else
    let server_processes :=
      filter (λ p, ProcessInfo.username p = username)
        (ServerStatus.processes server_status) in
    match server_processes with
    | [] => acc
    | _ :: _ =>
        {| user_processes := user_processes acc ++ server_processes;
           by_server := dict_set (ServerStatus.server_id server_status)
                          server_processes (by_server acc);
           used := used acc ++ [ServerStatus.server_id server_status] |}
    end.

(** [get_user_usage] after [get_cluster_status] has returned. *)
Definition summarize (username : string) (cluster_status : ClusterStatus.t)
    (now : Z) : UserUsageSummary.t :=
  let acc := fold_left (usage_step username)
               (ClusterStatus.servers cluster_status)
               {| user_processes := []; by_server := []; used := [] |} in
  let total_memory :=
    py_sum (map ProcessInfo.memory_used_mb (user_processes acc)) in
  UserUsageSummary.mk username (length (user_processes acc)) total_memory
    (used acc) (by_server acc) now.

Definition get_user_usage (username : string)
    (server_ids : option (list string)) (w : World)
  : outcome (UserUsageSummary.t * World) :=
  match get_cluster_status server_ids w with
  | Done (cluster_status, w1) =>
      Done (summarize username cluster_status (clock w1), w1)
  | Raised e => Raised e
  | Blocked => Blocked
  end.

Definition kill_command (processes : list ProcessInfo.t) : string :=
  "kill -9 " +:+ join " " (map (λ p, pretty (ProcessInfo.pid p)) processes).

(** [next((s for s in self.config.servers if s.id == server_id), None)] *)
Definition config_lookup (server_id : string) : option ServerConfig.t :=
  List.find (λ s, bool_decide (ServerConfig.id s = server_id))
    (ClusterConfig.servers config).

(** The body of the loop over [usage.processes_by_server.items()].  A
    [ServerConfig] instance is always true, so [if not server:] only
    separates [None]. *)
Definition kill_step (acc : pydict string * World)
    (item : string * list ProcessInfo.t) : pydict string * World :=
  let '(results, w) := acc in
  let '(server_id, processes) := item in
  match config_lookup server_id with
  | None => (dict_set server_id "Server config not found" results, w)
  | Some server =>
      let '(success, output, _, w1) :=
        _run_ssh_command (ServerConfig.hostname server)
          (kill_command processes) w in
      if success : bool then
        (dict_set server_id
           ("Killed " +:+ pretty (length processes) +:+ " processes") results,
         invalidate (cache_key server_id) w1)
      else
        (dict_set server_id ("Failed to kill processes: " +:+ output) results,
         w1)
  end.

(** [kill_user_tasks] after the confirmation test and after
    [get_user_usage] has returned. *)
Definition kill_listed (username : string) (usage : UserUsageSummary.t)
    (w1 : World) : pydict string * World :=
  match UserUsageSummary.processes_by_server usage with
  | [] => ([("message", "No processes found for user " +:+ username)], w1)
  | items => fold_left kill_step items ([], w1)
  end.

Definition kill_user_tasks (username : string)
    (server_ids : option (list string)) (confirm : bool) (w : World)
  : outcome (pydict string * World) :=
  if negb confirm then
    Done ([("error", "Must set confirm=True to kill user tasks")], w)
  else
    match get_user_usage username server_ids w with
    | Done (usage, w1) => Done (kill_listed username usage w1)
    | Raised e => Raised e
    | Blocked => Blocked
    end.

End Monitor.

(** ** Vocabulary of the properties *)

(** The shape every [ServerStatus] of the engine has: an error message
    exactly when offline, and no telemetry when offline. *)
Definition status_ok (st : ServerStatus.t) : Prop :=
  (is_Some (ServerStatus.error_message st) ↔ ServerStatus.online st = false) ∧
  (ServerStatus.online st = false →
   ServerStatus.gpus st = [] ∧ ServerStatus.processes st = []).

(** Every cache entry sits under the key of the server it describes and
    holds a well-shaped status. *)
Definition cache_ok (w : World) : Prop :=
  ∀ key st ts,
    _cache w !! key = Some (st, ts) →
    key = cache_key (ServerStatus.server_id st) ∧ status_ok st.

(** The states a monitor can be in: created at some time, then any sequence
    of public operations with time passing in between. *)
Inductive reachable (remote : Remote) (config : ClusterConfig.t) : World → Prop :=
| reach_init t : reachable remote config (init t)
| reach_tick d w :
    reachable remote config w → reachable remote config (tick d w)
| reach_cluster ids w cs w1 :
    reachable remote config w →
    get_cluster_status remote config ids w = Done (cs, w1) →
    reachable remote config w1
| reach_usage user ids w usage w1 :
    reachable remote config w →
    get_user_usage remote config user ids w = Done (usage, w1) →
    reachable remote config w1
| reach_kill user ids confirm w results w1 :
    reachable remote config w →
    kill_user_tasks remote config user ids confirm w = Done (results, w1) →
    reachable remote config w1.

Definition sumZ (l : list Z) : Z := foldr Z.add 0 l.

(** What one server adds to [total_gpus]. *)
Definition gpu_contribution (s : ServerStatus.t) : Z :=
  if ServerStatus.online s then Z.of_nat (length (ServerStatus.gpus s)) else 0.

(** A filter that is absent or empty lets every server through. *)
Definition passes (server_ids : option (list string)) (s : ServerConfig.t) : Prop :=
  match server_ids with
  | None => True
  | Some ids => ids = [] ∨ ServerConfig.id s ∈ ids
  end.

Global Instance passes_dec server_ids s : Decision (passes server_ids s).
Proof. destruct server_ids; simpl; apply _. Defined.

(** The processes of [user] on one server. *)
Definition matched (user : string) (st : ServerStatus.t) : list ProcessInfo.t :=
  filter (λ p, ProcessInfo.username p = user) (ServerStatus.processes st).

(** The servers that contribute to the usage of [user]. *)
Definition contributes (user : string) (st : ServerStatus.t) : Prop :=
  ServerStatus.online st = true ∧ matched user st ≠ [].

Global Instance contributes_dec user st : Decision (contributes user st).
Proof. unfold contributes. apply _. Defined.

Definition unique_ids (config : ClusterConfig.t) : Prop :=
  NoDup (map ServerConfig.id (ClusterConfig.servers config)).

(** What the kill loop leaves behind for one server: [before] is the state
    in which the termination command for the server is issued, [entry] the
    cache entry of the server when the loop started, [results] and [w_end]
    the result dictionary and the state when the loop is over. *)
Definition kill_recorded (remote : Remote) (config : ClusterConfig.t)
    (server : ServerConfig.t) (server_id : string)
    (processes : list ProcessInfo.t) (before : World)
    (entry : option (ServerStatus.t * Z))
    (results : pydict string) (w_end : World) : Prop :=
  let '(success, output, _, _) :=
    _run_ssh_command remote config (ServerConfig.hostname server)
      (kill_command processes) before in
  if success : bool then
    dict_get server_id results
    = Some ("Killed " +:+ pretty (length processes) +:+ " processes") ∧
    _cache w_end !! cache_key server_id = None
  else
    dict_get server_id results
    = Some ("Failed to kill processes: " +:+ output) ∧
    _cache w_end !! cache_key server_id = entry.

(** A usage summary that agrees with itself. *)
Definition summary_consistent (u : UserUsageSummary.t) : Prop :=
  let by_server := UserUsageSummary.processes_by_server u in
  UserUsageSummary.servers_used u = dict_keys by_server ∧
  Forall (λ kv, kv.2 ≠ []) by_server ∧
  UserUsageSummary.total_processes u
  = sum_list (map (λ kv, length kv.2) by_server) ∧
  UserUsageSummary.total_memory_used_mb u
  = sumZ (map ProcessInfo.memory_used_mb (concat by_server.*2)).

(** ** Scenarios used by the examples below *)

Definition nl : string := String newline "".

Definition default_config : ClusterConfig.t :=
  ClusterConfig.mk
    [ServerConfig.mk "gpu01" "gpu01.cluster.local" "Primary training server"]
    (list_to_map [("cache_ttl", PyNum 30); ("ssh_timeout", PyNum 5);
                  ("max_concurrent", PyNum 4)]).

Definition a100_output : string :=
  "GPU 0: Tesla A100, 85% utilization, 15000/16000 MB" +:+ nl +:+
  "GPU 1: NVIDIA H100, 45% utilization, 8000/16000 MB" +:+ nl.

(** A host whose standard output is not valid UTF-8 although [ssh] exits
    with status 0. *)
Definition garbled_message : string :=
  "'utf-8' codec can't decode byte 0xff in position 0: invalid start byte".

(** Every task enters as soon as a permit is free, and the replies arrive
    in the order in which the commands were sent. *)
Definition in_turn : list (string * string) → Z → list string → Move :=
  λ _ _ _, {| enter_first := true; reply_of := 0 |}.

(** Every task enters as soon as a permit is free, and the reply of the
    command sent last arrives first. *)
Definition last_first : list (string * string) → Z → list string → Move :=
  λ _ _ hosts, {| enter_first := true; reply_of := pred (length hosts) |}.

Definition garbled_remote : Remote :=
  {| answer := λ _ _ _ _ _,
       {| completion := Exited 0 (Undecodable garbled_message) (Text "");
          took := 0 |};
     arrival := in_turn |}.

Definition gpu01 : ServerConfig.t :=
  ServerConfig.mk "gpu01" "gpu01.cluster.local" "Primary training server".

(** A host whose load changes between the first query and the later ones. *)
Definition drifting_remote : Remote :=
  {| answer := λ history _ _ _ _,
       {| completion :=
            Exited 0
              (Text (match history with
                     | [] => "GPU 0: Tesla V100, 85% utilization, 15000/16000 MB"
                     | _ :: _ => "GPU 0: Tesla V100, 10% utilization, 100/16000 MB"
                     end))
              (Text "");
          took := 0 |};
     arrival := in_turn |}.

(** The first answer of that host, stored at time 0. *)
Definition drifting_first : ServerStatus.t * World :=
  fresh_status drifting_remote default_config gpu01 (init 0).

(** The two servers of the test fixture: the first answers with two GPUs
    and three processes, the second refuses the connection; a termination
    command succeeds.  The process lines carry the word the parser looks
    for before it tries its pattern. *)
Definition fixture_config : ClusterConfig.t :=
  ClusterConfig.mk
    [ServerConfig.mk "test-gpu01" "test1.example.com" "Test GPU server 1";
     ServerConfig.mk "test-gpu02" "test2.example.com" "Test GPU server 2"]
    (list_to_map [("cache_ttl", PyNum 5); ("ssh_timeout", PyNum 2);
                  ("max_concurrent", PyNum 2)]).

Definition fixture_output : string :=
  nl +:+
  "GPU 0: Tesla V100, 85% utilization, 15000/16000 MB" +:+ nl +:+
  "GPU 1: Tesla V100, 45% utilization, 8000/16000 MB" +:+ nl +:+
  "---PROCESSES---" +:+ nl +:+
  "PID 12345 testuser GPU:0 2048MB python train.py # Memory" +:+ nl +:+
  "PID 67890 testuser GPU:1 4096MB python inference.py # Memory" +:+ nl +:+
  "PID 11111 otheruser GPU:0 1024MB jupyter # Memory" +:+ nl.

Definition fixture_hosts
  : list (string * string) → Z → PyVal → string → string → Reply :=
  λ _ _ _ hostname command,
    if starts_with "kill" command then
      {| completion := Exited 0 (Text "") (Text ""); took := 1 |}
    else if decide (hostname = "test1.example.com") then
      {| completion := Exited 0 (Text fixture_output) (Text ""); took := 1 |}
    else
      {| completion :=
           Exited 255 (Text "")
             (Text "ssh: connect to host test2.example.com port 22: Connection refused");
         took := 0 |}.

Definition fixture_remote : Remote :=
  {| answer := fixture_hosts; arrival := in_turn |}.

(** The same hosts, with the reply of the second server seen first. *)
Definition fixture_reversed : Remote :=
  {| answer := fixture_hosts; arrival := last_first |}.

Definition testuser_processes : list ProcessInfo.t :=
  [ProcessInfo.mk 12345 "testuser" 0 2048 "python train.py # Memory";
   ProcessInfo.mk 67890 "testuser" 1 4096 "python inference.py # Memory"].

(** Two configured servers that share an id, with caching switched off. *)
Definition twin_config : ClusterConfig.t :=
  ClusterConfig.mk
    [ServerConfig.mk "gpu01" "gpu01-a.cluster.local" "";
     ServerConfig.mk "gpu01" "gpu01-b.cluster.local" ""]
    (list_to_map [("cache_ttl", PyNum 0)]).

Definition twin_remote : Remote :=
  {| answer := λ _ _ _ hostname _,
       {| completion :=
            Exited 0
              (Text (if decide (hostname = "gpu01-a.cluster.local")
                     then "PID 100 alice GPU:0 2048MB python # Memory"
                     else "PID 200 alice GPU:0 1024MB python # Memory"))
              (Text "");
          took := 0 |};
     arrival := in_turn |}.

(** The same two servers with the default settings: [cache_ttl] is 30 and
    the semaphore has four permits. *)
Definition twin_cached_config : ClusterConfig.t :=
  ClusterConfig.mk
    [ServerConfig.mk "gpu01" "gpu01-a.cluster.local" "";
     ServerConfig.mk "gpu01" "gpu01-b.cluster.local" ""]
    (list_to_map [("cache_ttl", PyNum 30); ("ssh_timeout", PyNum 5);
                  ("max_concurrent", PyNum 4)]).

Definition alice_on_a : ProcessInfo.t :=
  ProcessInfo.mk 100 "alice" 0 2048 "python # Memory".

Definition twin_status_a : ServerStatus.t :=
  ServerStatus.mk "gpu01" "gpu01-a.cluster.local" true None []
    [alice_on_a] 0 (Some 0).

(** A settings file that gives [cache_ttl] as a string. *)
Definition text_ttl_config : ClusterConfig.t :=
  ClusterConfig.mk [gpu01] (list_to_map [("cache_ttl", PyStr "30")]).

(** ** The claims that fail, as they are stated *)

(** Two resolutions of a server less than [cache_ttl] apart return the same
    status, and the second changes nothing. *)
Definition calls_within_ttl_agree (remote : Remote) (config : ClusterConfig.t)
  : Prop :=
  ∀ server w ttl (d : N) st1 w1,
    reachable remote config w →
    setting config "cache_ttl" (PyNum 30) = PyNum ttl →
    _get_server_status remote config server w = Done (Return st1, w1) →
    clock (tick d w1) - clock w < ttl →
    _get_server_status remote config server (tick d w1)
    = Done (Return st1, tick d w1).

(** A filter that is present selects exactly the servers whose id is one of
    its members. *)
Definition filter_selects_members (remote : Remote) (config : ClusterConfig.t)
  : Prop :=
  ∀ server_ids w cs w1,
    reachable remote config w →
    get_cluster_status remote config (Some server_ids) w = Done (cs, w1) →
    map ServerStatus.server_id (ClusterStatus.servers cs)
    = map ServerConfig.id
        (filter (λ s, ServerConfig.id s ∈ server_ids)
           (ClusterConfig.servers config)).

(** A process is in the usage of a user exactly when it carries the user
    name and its server is online. *)
Definition usage_lists_all_matching (remote : Remote) (config : ClusterConfig.t)
  : Prop :=
  ∀ user server_ids w cs usage w1 p,
    reachable remote config w →
    get_cluster_status remote config server_ids w = Done (cs, w1) →
    get_user_usage remote config user server_ids w = Done (usage, w1) →
    (∃ sid ps,
       dict_get sid (UserUsageSummary.processes_by_server usage) = Some ps ∧
       p ∈ ps) ↔
    (∃ st,
       st ∈ ClusterStatus.servers cs ∧
       ServerStatus.online st = true ∧
       p ∈ ServerStatus.processes st ∧ ProcessInfo.username p = user).

(** Exit status 0 means success. *)
Definition zero_exit_succeeds (remote : Remote) (config : ClusterConfig.t)
  : Prop :=
  ∀ hostname command w stdout stderr,
    completion (remote (ssh_log w) (clock w)
                  (setting config "ssh_timeout" (PyNum 5)) hostname command)
    = Exited 0 stdout stderr →
    (_run_ssh_command remote config hostname command w).1.1.1 = true.

(** Every summary agrees with itself. *)
Definition summaries_consistent (remote : Remote) (config : ClusterConfig.t)
  : Prop :=
  ∀ user server_ids w usage w1,
    reachable remote config w →
    get_user_usage remote config user server_ids w = Done (usage, w1) →
    summary_consistent usage.

(** ** Vocabulary of the further properties *)

(** Every character of [s] passes the test [p]. *)
Fixpoint all_chars (p : ascii → bool) (s : string) : bool :=
  match s with
  | "" => true
  | String c s' => p c && all_chars p s'
  end.

(** The capturing groups of a pattern, in order: the class they repeat and
    the least number of repetitions. *)
Fixpoint capture_specs (re : regex) : list (cclass * nat) :=
  match re with
  | [] => []
  | Lit _ :: re' => capture_specs re'
  | Rep cl least _ capture :: re' =>
      if capture then (cl, least) :: capture_specs re' else capture_specs re'
  end.

Definition group_ok (spec : cclass * nat) (g : string) : Prop :=
  (spec.2 ≤ String.length g)%nat ∧ all_chars (in_class spec.1) g = true.

(** The number of digits at the start of [s], and the length of the
    longest run of digits in [s]. *)
Fixpoint digit_runs (s : string) : Z * Z :=
  match s with
  | "" => (0, 0)
  | String c s' =>
      let '(lead, best) := digit_runs s' in
      if is_digit c then (lead + 1, Z.max (lead + 1) best) else (0, best)
  end.

Definition longest_digit_run (s : string) : Z := (digit_runs s).2.

(** What holds of every GPU record the parser builds. *)
Definition gpu_ok (g : GPUInfo.t) : Prop :=
  0 ≤ GPUInfo.index g ∧
  0 ≤ GPUInfo.utilization_percent g ∧
  0 ≤ GPUInfo.memory_used_mb g ∧
  0 ≤ GPUInfo.memory_total_mb g ∧
  GPUInfo.memory_free_mb g
  = GPUInfo.memory_total_mb g - GPUInfo.memory_used_mb g ∧
  GPUInfo.temperature_c g = None ∧
  GPUInfo.power_draw_w g = None.

(** What holds of every process record the parser builds. *)
Definition process_ok (p : ProcessInfo.t) : Prop :=
  0 ≤ ProcessInfo.pid p ∧
  0 ≤ ProcessInfo.gpu_index p ∧
  0 ≤ ProcessInfo.memory_used_mb p ∧
  ProcessInfo.username p ≠ "" ∧
  all_chars is_word (ProcessInfo.username p) = true.

(** A status whose records are all well formed. *)
Definition status_parsed (st : ServerStatus.t) : Prop :=
  Forall gpu_ok (ServerStatus.gpus st) ∧
  Forall process_ok (ServerStatus.processes st).

(** Every cached status holds well-formed records. *)
Definition cache_sane (w : World) : Prop :=
  ∀ key st ts, _cache w !! key = Some (st, ts) → status_parsed st.

(** The status query for a server, as it appears in the command log. *)
Definition status_query (server : ServerConfig.t) : string * string :=
  (ServerConfig.hostname server, status_command).

(** [server] is the first configured server whose id is [server_id]. *)
Definition first_with_id (config : ClusterConfig.t) (server_id : string)
    (server : ServerConfig.t) : Prop :=
  ∃ before after,
    ClusterConfig.servers config = before ++ server :: after ∧
    ServerConfig.id server = server_id ∧
    Forall (λ s, ServerConfig.id s ≠ server_id) before.

(** [command] is the termination command for the entry [item] of a usage
    dictionary: sent to the host of the first configured server with the
    id of the entry, it reads "kill -9 " followed by the pids of the entry,
    in decimal and in order, with one space between two of them. *)
Definition kills (config : ClusterConfig.t)
    (item : string * list ProcessInfo.t) (command : string * string) : Prop :=
  (∃ server, first_with_id config item.1 server ∧
             command.1 = ServerConfig.hostname server) ∧
  command.2
  = "kill -9 " +:+ join " " (map (λ p, pretty (ProcessInfo.pid p)) item.2).

(** The id is that of a configured server. *)
Definition configured (config : ClusterConfig.t) (server_id : string) : Prop :=
  server_id ∈ map ServerConfig.id (ClusterConfig.servers config).

Global Instance configured_dec config server_id :
  Decision (configured config server_id).
Proof. unfold configured. apply _. Defined.

(** The substitute the aggregator builds when the cache test raises. *)
Definition type_error_status (now : Z) (server : ServerConfig.t)
  : ServerStatus.t :=
  ServerStatus.mk (ServerConfig.id server) (ServerConfig.hostname server)
    false (Some "'<' not supported between instances of 'float' and 'str'")
    [] [] now None.

(** ** Construction of a monitor and the module-level functions

    The methods above are those of a monitor that exists.  Here the monitor
    is built first, as [GPUMonitor.__init__] does, and nothing is assumed
    of its settings. *)

(** What opening and loading the configuration file gives: there is no such
    file, or it holds a configuration, or reading or validating it raises. *)
Inductive ConfigFile :=
| NoSuchFile
| Loaded (config : ClusterConfig.t)
| Unusable (msg : string).

(** [_load_config]: only a missing file is caught, and replaced by the
    built-in configuration. *)
Definition _load_config (file : ConfigFile) : py ClusterConfig.t :=
  match file with
  | Loaded config => Return config
  | NoSuchFile => Return default_config
  | Unusable msg => Raise msg
  end.

(** A monitor: its configuration, from which its semaphore was made.  Its
    cache is the one of the [World]. *)
Record Monitor := { monitor_config : ClusterConfig.t }.

(** [GPUMonitor(config_path)] in the surroundings [env]: the new monitor has
    an empty cache. *)
Definition new_monitor (file : ConfigFile) (env : World) : py (Monitor * World) :=
  match _load_config file with
  | Raise e => Raise e
  | Return config =>
      match semaphore (setting config "max_concurrent" (PyNum 4)) with
      | Raise e => Raise e
      | Return _ =>
          Return ({| monitor_config := config |},
                  {| _cache := ∅; clock := clock env; ssh_log := ssh_log env |})
      end
  end.

(** [None if server_id == "all" else [server_id]] *)
Definition all_or (server_id : string) : option (list string) :=
  if decide (server_id = "all") then None else Some [server_id].

Module Core.
Section Functions.
Variable remote : Remote.

Definition check_gpu_status (server_id : string) (file : ConfigFile)
    (env : World) : outcome (ClusterStatus.t * World) :=
  match new_monitor file env with
  | Raise e => Raised e
  | Return (m, w) =>
      get_cluster_status remote (monitor_config m) (all_or server_id) w
  end.

Definition check_user_usage (username server_id : string) (file : ConfigFile)
    (env : World) : outcome (UserUsageSummary.t * World) :=
  match new_monitor file env with
  | Raise e => Raised e
  | Return (m, w) =>
      get_user_usage remote (monitor_config m) username (all_or server_id) w
  end.

Definition kill_user_tasks (username server_id : string) (confirm : bool)
    (file : ConfigFile) (env : World) : outcome (pydict string * World) :=
  match new_monitor file env with
  | Raise e => Raised e
  | Return (m, w) =>
      kill_user_tasks remote (monitor_config m) username (all_or server_id)
        confirm w
  end.

End Functions.
End Core.

(** ** The [kill] command of the command line ([cli.py])

    What the command writes with [click.echo] is kept as a list of events,
    one constructor for each message of the source, carrying the values the
    message interpolates. *)

(** [os.environ.get('USER', 'unknown')] *)
Definition get_current_user (env_user : option string) : string :=
  default "unknown" env_user.

(** [a or b] for an optional string: [None] and the empty string are
    false. *)
Definition py_or (a : option string) (b : string) : string :=
  match a with
  | Some (String c s) => String c s
  | _ => b
  end.

(** [[server] if server else None] *)
Definition one_or_all (server : option string) : option (list string) :=
  match server with
  | Some (String c s) => Some [String c s]
  | _ => None
  end.

Inductive Echo :=
| EchoNoProcesses (username : string)
| EchoToKill (username : string)
| EchoServer (server_id : string) (count : nat)
| EchoProcess (pid gpu_index : Z) (process_name : string)
| EchoDryRun.

(** The two nested loops over [usage.processes_by_server.items()]. *)
Definition echo_listing (items : pydict (list ProcessInfo.t)) : list Echo :=
  flat_map
    (λ item,
       EchoServer item.1 (length item.2)
       :: map (λ proc, EchoProcess (ProcessInfo.pid proc)
                         (ProcessInfo.gpu_index proc)
                         (ProcessInfo.process_name proc)) item.2)
    items.

(** The text of the [UnboundLocalError] (Python 3.11 and later). *)
Definition unbound_confirm : string :=
  "cannot access local variable 'confirm' where it is not associated with a value".

Record CliRun := { echoed : list Echo; ending : outcome unit; after : World }.

Module Cli.
Section Commands.
Variable remote : Remote.

(** [kill], that is [asyncio.run(_kill())].  The coroutine [_kill] assigns
    to [confirm] ([confirm = True] after the prompt), so [confirm] is a
    local variable of [_kill] and not the option of the enclosing command;
    its first use, the test [if not confirm:], comes before any assignment
    and raises [UnboundLocalError].  The prompt, the call of
    [kill_user_tasks] and the report of its results come after that test
    and are never reached. *)
Definition kill (user server : option string) (confirm dry_run : bool)
    (env_user : option string) (file : ConfigFile) (env : World) : CliRun :=
  let username := py_or user (get_current_user env_user) in
  match new_monitor file env with
  | Raise e => {| echoed := []; ending := Raised e; after := env |}
  | Return (m, w) =>
      let server_ids := one_or_all server in
      match get_user_usage remote (monitor_config m) username server_ids w with
      | Raised e => {| echoed := []; ending := Raised e; after := w |}
      | Blocked => {| echoed := []; ending := Blocked; after := w |}
      | Done (usage, w1) =>
          match UserUsageSummary.processes_by_server usage with
          | [] =>
              {| echoed := [EchoNoProcesses username];
                 ending := Done tt; after := w1 |}
          | items =>
              let shown := EchoToKill username :: echo_listing items in
              if dry_run then
                {| echoed := shown ++ [EchoDryRun];
                   ending := Done tt; after := w1 |}
              else
                {| echoed := shown;
                   ending := Raised unbound_confirm; after := w1 |}
          end
      end
  end.

End Commands.
End Cli.

(** ** The server of the Model Context Protocol ([mcp_server.py])

    The module keeps one monitor in its global [monitor]: [None] until a
    handler asks for it, then the monitor [get_monitor] built, whose cache
    is the one of the [World].  A handler takes the global and the
    surroundings and gives them back.  What a handler hands to the JSON
    serialiser is kept as the value itself. *)

Module Mcp.

(** The value serialised into the field [text] of a resource. *)
Inductive Payload :=
| StatusJson (status : ServerStatus.t)
| ErrorJson (error : string).

Record Resource := {
  uri : string;
  name : string;
  description : string;
  mimeType : string;
  text : Payload }.

Section Handlers.
Variable remote : Remote.
(** The file [servers.json] beside the package, which [GPUMonitor()] reads. *)
Variable packaged : ConfigFile.

Definition get_monitor (global : option Monitor) (env : World)
  : py (Monitor * World) :=
  match global with
  | Some m => Return (m, env)
  | None => new_monitor packaged env
  end.

(** The resource [gpu://status/{server_id}]. *)
Definition gpu_server_status_resource (server_id : string)
    (global : option Monitor) (env : World)
  : outcome (Resource * (option Monitor * World)) :=
  match get_monitor global env with
  | Raise e => Raised e
  | Return (m, w) =>
      match get_cluster_status remote (monitor_config m) (Some [server_id]) w with
      | Raised e => Raised e
      | Blocked => Blocked
      | Done (status, w1) =>
          match ClusterStatus.servers status with
          | [] =>
              Done ({| uri := "gpu://status/" +:+ server_id;
                       name := "GPU Server " +:+ server_id +:+ " Status";
                       description := "Server " +:+ server_id +:+ " not found";
                       mimeType := "application/json";
                       text := ErrorJson
                                 ("Server " +:+ server_id +:+ " not found") |},
                    (Some m, w1))
          | server_status :: _ =>
              Done ({| uri := "gpu://status/" +:+ server_id;
                       name := "GPU Server " +:+ server_id +:+ " Status";
                       description :=
                         "Current status of GPU server " +:+ server_id;
                       mimeType := "application/json";
                       text := StatusJson server_status |},
                    (Some m, w1))
          end
      end
  end.

(** The tool [check_gpu_status]. *)
Definition check_gpu_status_tool (server_id : option string)
    (global : option Monitor) (env : World)
  : outcome (ClusterStatus.t * (option Monitor * World)) :=
  match get_monitor global env with
  | Raise e => Raised e
  | Return (m, w) =>
      let server_ids := one_or_all server_id in
      match get_cluster_status remote (monitor_config m) server_ids w with
      | Raised e => Raised e
      | Blocked => Blocked
      | Done (status, w1) => Done (status, (Some m, w1))
      end
  end.

End Handlers.
End Mcp.

(** ** Inputs of the further examples *)

Definition fixture_first : ServerConfig.t :=
  ServerConfig.mk "test-gpu01" "test1.example.com" "Test GPU server 1".

(** The text of the test fixture as the tests give it, without the word the
    parser asks for on a process line. *)
Definition conftest_output : string :=
  nl +:+
  "GPU 0: Tesla V100, 85% utilization, 15000/16000 MB" +:+ nl +:+
  "GPU 1: Tesla V100, 45% utilization, 8000/16000 MB" +:+ nl +:+
  "---PROCESSES---" +:+ nl +:+
  "PID 12345 testuser GPU:0 2048MB python train.py" +:+ nl +:+
  "PID 67890 testuser GPU:1 4096MB python inference.py" +:+ nl +:+
  "PID 11111 otheruser GPU:0 1024MB jupyter" +:+ nl.

(** A host on which a user with a hyphen in the name runs a process. *)
Definition hyphen_remote : Remote :=
  {| answer := λ _ _ _ _ _,
       {| completion :=
            Exited 0 (Text "PID 4242 john-doe GPU:0 2048MB python # Memory")
              (Text "");
          took := 0 |};
     arrival := in_turn |}.

(** The fixture with a semaphore that has no permit. *)
Definition starved_config : ClusterConfig.t :=
  ClusterConfig.mk (ClusterConfig.servers fixture_config)
    (list_to_map [("cache_ttl", PyNum 5); ("ssh_timeout", PyNum 2);
                  ("max_concurrent", PyNum 0)]).

(** ** Vocabulary of the proofs *)

(** [g] is a piece of [s]. *)
Definition within (g s : string) : Prop := ∃ u v, s = u +:+ g +:+ v.

(** The moves still to be made by the event loop: two for a task that has
    not entered, one for a task that waits for its reply. *)
Definition moves_left (tasks : Tasks) : nat :=
  2 * length (waiting tasks) + length (in_flight (entered tasks)).

(** What is known of a task of [gather] that has entered, for the server
    it was made for: [w0] is the state in which [gather] was called, [w]
    the present one. *)
Definition task_ok (w0 w : World) (s : ServerConfig.t) (t : Task) : Prop :=
  match t with
  | Running server call => server = s
  | Finished r =>
      is_Some (_cache w !! cache_key (ServerConfig.id s)) ∧
      (cache_ok w0 →
       ∀ st, r = Return st →
             ServerStatus.server_id st = ServerConfig.id s ∧ status_ok st)
  end.

(** What every move of the event loop keeps. *)
Definition gather_inv (servers : list ServerConfig.t) (w0 : World)
    (tasks : Tasks) (w : World) : Prop :=
  ∃ pre,
    servers = pre ++ waiting tasks ∧
    Forall2 (task_ok w0 w) pre (entered tasks) ∧
    (cache_ok w0 → cache_ok w) ∧
    clock w0 ≤ clock w ∧
    (∃ cmds, ssh_log w = ssh_log w0 ++ cmds ∧
             sublist cmds (map status_query pre)) ∧
    (∀ key, (∀ s, s ∈ servers → key ≠ cache_key (ServerConfig.id s)) →
            _cache w !! key = _cache w0 !! key) ∧
    (∀ key, is_Some (_cache w0 !! key) → is_Some (_cache w !! key)).

(** What is known of a task of a first poll, where no selected server has
    a cache entry and the ids are pairwise distinct: a task that is over
    has stored the status it returned. *)
Definition task_fresh (w0 w : World) (s : ServerConfig.t) (t : Task) : Prop :=
  match t with
  | Running server call => server = s
  | Finished r =>
      ∃ st ts,
        r = Return st ∧
        _cache w !! cache_key (ServerConfig.id s) = Some (st, ts) ∧
        clock w0 ≤ ts ≤ clock w
  end.

Definition first_poll_inv (servers : list ServerConfig.t) (w0 : World)
    (tasks : Tasks) (w : World) : Prop :=
  ∃ pre,
    servers = pre ++ waiting tasks ∧
    ssh_log w = ssh_log w0 ++ map status_query pre ∧
    clock w0 ≤ clock w ∧
    (∀ s, s ∈ waiting tasks → _cache w !! cache_key (ServerConfig.id s) = None) ∧
    Forall2 (task_fresh w0 w) pre (entered tasks).

(** A task that is over with a status returned well-formed records. *)
Definition task_parsed (t : Task) : Prop :=
  ∀ st, t = Finished (Return st) → status_parsed st.

(** * Proofs *)

(** ** The telemetry parser *)

Lemma gpu_step_names line gpus gpus' :
  Forall (λ g, GPUInfo.name g = "Tesla V100") gpus →
  gpu_step line gpus = Some gpus' →
  Forall (λ g, GPUInfo.name g = "Tesla V100") gpus'.
Proof.
  intros Hall. unfold gpu_step.
  destruct (py_in "GPU" line && py_in "%" line); [|congruence].
  destruct (re_search gpu_pattern line) as [groups|]; [|congruence].
  destruct groups as [|a [|b [|c [|d [|? ?]]]]]; try discriminate.
  destruct (py_int a) as [i|]; simpl; [|discriminate].
  destruct (py_int b) as [u|]; simpl; [|discriminate].
  destruct (py_int c) as [m|]; simpl; [|discriminate].
  destruct (py_int d) as [t|]; simpl; [|discriminate].
  intros [= <-]. apply Forall_app. split; [assumption|].
  constructor; [reflexivity|constructor].
Qed.

Lemma parse_lines_names lines :
  ∀ gpus processes,
    Forall (λ g, GPUInfo.name g = "Tesla V100") gpus →
    Forall (λ g, GPUInfo.name g = "Tesla V100")
      (parse_lines lines gpus processes).1.
Proof.
  induction lines as [|raw rest IH]; intros gpus processes Hall; simpl.
  - assumption.
  - destruct (is_empty (strip raw)); [apply IH; assumption|].
    destruct (gpu_step (strip raw) gpus) as [gpus'|] eqn:Hstep; [|assumption].
    pose proof (gpu_step_names _ _ _ Hall Hstep) as Hall'.
    destruct (process_step (strip raw) processes); [apply IH|]; assumption.
Qed.

(** C9: whatever the input text says, every GPU record the parser returns is
    named "Tesla V100"; the name is never read from the input. *)
Theorem parsed_gpu_name_is_constant (output : string) :
  Forall (λ g, GPUInfo.name g = "Tesla V100")
    (_parse_nvidia_smi_output output).1.
Proof. apply parse_lines_names. constructor. Qed.

(** A process line is only looked at when it contains both "PID" and
    "Memory". *)
Example process_line_needs_memory_word :
  (_parse_nvidia_smi_output "PID 12345 testuser GPU:0 2048MB python train.py").2
  = [] ∧
  (_parse_nvidia_smi_output
     "PID 12345 testuser GPU:0 2048MB python train.py # Memory").2
  = [ProcessInfo.mk 12345 "testuser" 0 2048 "python train.py # Memory"].
Proof. vm_compute. auto. Qed.

(** Two GPUs of other models come out as "Tesla V100". *)
Example parsed_a100_is_renamed :
  map GPUInfo.name (_parse_nvidia_smi_output a100_output).1
  = ["Tesla V100"; "Tesla V100"].
Proof. vm_compute. reflexivity. Qed.

Section Engine.
Variable remote : Remote.
Variable config : ClusterConfig.t.

(** *** The kill gate *)

(** C1: without confirmation [kill_user_tasks] returns at once, with the
    single error entry and the world it was called in: no command is
    issued and the cache is the same. *)
Theorem kill_without_confirm_is_inert
    (username : string) (server_ids : option (list string)) (w : World) :
  kill_user_tasks remote config username server_ids false w
  = Done ([("error", "Must set confirm=True to kill user tasks")], w).
Proof. reflexivity. Qed.

(** *** The runner *)

Lemma send_command_world hostname command w :
  let w' := (send_command remote config hostname command w).2 in
  _cache w' = _cache w ∧
  ssh_log w' = ssh_log w ++ [(hostname, command)] ∧
  clock w' = clock w.
Proof. simpl. auto. Qed.

Lemma receive_reply_world call w :
  let w' := (receive_reply config call w).2 in
  _cache w' = _cache w ∧
  ssh_log w' = ssh_log w ∧
  clock w' = Z.max (clock w) (start_time call + Z.of_N (took (reply call))).
Proof.
  unfold receive_reply.
  destruct (completion _) as [rc out err| |msg]; simpl.
  - destruct (rc =? 0); [destruct (decode out)|destruct (decode err)];
      simpl; auto.
  - auto.
  - auto.
Qed.

(** Without other tasks in between, the runner is as the source reads:
    the reply comes [took] after the start. *)
Lemma run_ssh_alone hostname command w :
  let timeout := setting config "ssh_timeout" (PyNum 5) in
  let reply := remote (ssh_log w) (clock w) timeout hostname command in
  let w' := {| _cache := _cache w;
               clock := clock w + Z.of_N (took reply);
               ssh_log := ssh_log w ++ [(hostname, command)] |} in
  let elapsed := Z.of_N (took reply) * 1000 in
  _run_ssh_command remote config hostname command w
  = match completion reply with
    | Exited returncode stdout stderr =>
        if returncode =? 0 then
          match decode stdout with
          | Return out => (true, strip out, elapsed, w')
          | Raise e => (false, e, elapsed, w')
          end
        else
          match decode stderr with
          | Return err => (false, strip err, elapsed, w')
          | Raise e => (false, e, elapsed, w')
          end
    | TimedOut =>
        (false, "SSH timeout after " +:+ py_str timeout +:+ "s", elapsed, w')
    | Failed msg => (false, msg, elapsed, w')
    end.
Proof.
  intros timeout reply w' elapsed.
  unfold _run_ssh_command, send_command, receive_reply. cbn.
  fold timeout. fold reply.
  replace (Z.max (clock w) (clock w + Z.of_N (took reply)))
    with (clock w + Z.of_N (took reply)) by lia.
  replace ((clock w + Z.of_N (took reply) - clock w) * 1000)
    with elapsed by (unfold elapsed; lia).
  reflexivity.
Qed.

Lemma run_ssh_world hostname command w :
  let w' := (_run_ssh_command remote config hostname command w).2 in
  _cache w' = _cache w ∧
  ssh_log w' = ssh_log w ++ [(hostname, command)] ∧
  clock w ≤ clock w'.
Proof.
  rewrite run_ssh_alone.
  destruct (completion _) as [rc out err| |msg]; simpl.
  - destruct (rc =? 0); [destruct (decode out)|destruct (decode err)];
      simpl; repeat split; lia.
  - repeat split; lia.
  - repeat split; lia.
Qed.

(** C6, as the code has it: the runner is a total function into triples.
    A timeout gives failure and the message with the configured timeout;
    exit status 0 gives success and the trimmed standard output when that
    output decodes, and failure with the text of the decoding error when
    it does not; a non-zero status gives failure with the trimmed error
    stream (or the decoding error); any other exception gives failure
    with its text.  The elapsed time is the duration in milliseconds. *)
Theorem run_ssh_outcomes (hostname command : string) (w : World) :
  let timeout := setting config "ssh_timeout" (PyNum 5) in
  let reply := remote (ssh_log w) (clock w) timeout hostname command in
  ∃ success output,
    (_run_ssh_command remote config hostname command w).1
    = (success, output, Z.of_N (took reply) * 1000) ∧
    match completion reply with
    | TimedOut =>
        success = false ∧
        output = "SSH timeout after " +:+ py_str timeout +:+ "s"
    | Exited returncode stdout stderr =>
        if decide (returncode = 0) then
          match stdout with
          | Text out => success = true ∧ output = strip out
          | Undecodable e => success = false ∧ output = e
          end
        else
          success = false ∧
          output = match stderr with Text err => strip err | Undecodable e => e end
    | Failed msg => success = false ∧ output = msg
    end.
Proof.
  intros timeout reply. rewrite run_ssh_alone.
  fold timeout. fold reply.
  destruct (completion reply) as [rc out err| |msg]; simpl.
  - destruct (decide (rc = 0)) as [->|Hrc].
    + simpl. destruct out; simpl; eauto.
    + apply Z.eqb_neq in Hrc. rewrite Hrc. destruct err; simpl; eauto.
  - eauto.
  - eauto.
Qed.

(** *** Cluster totals *)

Lemma py_sum_sumZ l : py_sum l = sumZ l.
Proof.
  unfold py_sum, sumZ.
  assert (H : ∀ a, fold_left Z.add l a = a + foldr Z.add 0 l).
  { induction l as [|x l IH]; intros a; simpl; [lia|]. rewrite IH. lia. }
  rewrite H. lia.
Qed.

Lemma sum_online_gpus l :
  sumZ (map (λ s, Z.of_nat (length (ServerStatus.gpus s)))
          (List.filter ServerStatus.online l))
  = sumZ (map gpu_contribution l).
Proof.
  induction l as [|s l IH]; simpl; [reflexivity|].
  unfold gpu_contribution at 1.
  destruct (ServerStatus.online s); simpl; rewrite IH; reflexivity.
Qed.

Lemma online_filter (l : list ServerStatus.t) :
  List.filter ServerStatus.online l
  = filter (λ s, ServerStatus.online s = true) l.
Proof.
  induction l as [|s l IH]; simpl; [reflexivity|].
  rewrite filter_cons. destruct (ServerStatus.online s) eqn:E.
  - rewrite decide_True by reflexivity. f_equal. exact IH.
  - rewrite decide_False by discriminate. exact IH.
Qed.

Lemma sum_ones {A} (l : list A) : sumZ (map (λ _, 1) l) = Z.of_nat (length l).
Proof. induction l as [|x l IH]; simpl; [reflexivity|]. rewrite IH. lia. Qed.

(** What a poll that returns has returned: the statuses are those of
    [gather], with a substitute for each exception. *)
Lemma cluster_status_done server_ids w cs w1 :
  get_cluster_status remote config server_ids w = Done (cs, w1) →
  ∃ rs,
    gather remote config (servers_to_check config server_ids) w = Done (rs, w1) ∧
    let sts := zip_with (valid_status (clock w1))
                 (servers_to_check config server_ids) rs in
    cs = ClusterStatus.mk sts
           (py_sum (map (λ s, Z.of_nat (length (ServerStatus.gpus s)))
                      (List.filter ServerStatus.online sts)))
           (py_sum (map (λ _, 1) (List.filter ServerStatus.online sts)))
           (length sts) (clock w1).
Proof.
  unfold get_cluster_status.
  destruct (gather remote config _ w) as [[rs w']|e|]; try discriminate.
  intros [= <- <-]. exists rs. split; reflexivity.
Qed.

(** C4: in every result of [get_cluster_status], [total_gpus] is the sum of
    the numbers of GPUs of the online servers of the result, which is the
    sum over all its servers when an offline server counts for zero, and
    [online_servers] is the number of online servers of the result. *)
Theorem cluster_totals
    (server_ids : option (list string)) (w w1 : World) (cs : ClusterStatus.t) :
  get_cluster_status remote config server_ids w = Done (cs, w1) →
  let online := filter (λ s, ServerStatus.online s = true)
                  (ClusterStatus.servers cs) in
  ClusterStatus.total_gpus cs
  = sumZ (map (λ s, Z.of_nat (length (ServerStatus.gpus s))) online) ∧
  ClusterStatus.total_gpus cs
  = sumZ (map gpu_contribution (ClusterStatus.servers cs)) ∧
  ClusterStatus.online_servers cs = Z.of_nat (length online).
Proof.
  intros (rs & _ & ->)%cluster_status_done. simpl.
  rewrite !py_sum_sumZ, sum_ones, sum_online_gpus, <- online_filter.
  rewrite sum_online_gpus. auto.
Qed.

(** *** The resolver and the cache *)

(** What the part of a resolution after the reply does, whenever the reply
    is looked at. *)
Lemma end_status_spec server call w :
  let st := (end_status config server call w).1 in
  let w1 := (end_status config server call w).2 in
  ServerStatus.server_id st = ServerConfig.id server ∧
  status_ok st ∧
  _cache w1 = <[cache_key (ServerConfig.id server) := (st, clock w1)]> (_cache w) ∧
  ssh_log w1 = ssh_log w ∧
  clock w1 = Z.max (clock w) (start_time call + Z.of_N (took (reply call))).
Proof.
  unfold end_status.
  pose proof (receive_reply_world call w) as Hw.
  destruct (receive_reply config call w) as [[[success output] rt] w1].
  simpl in Hw. destruct Hw as (Hc & Hl & Ht).
  destruct success.
  - destruct (_parse_nvidia_smi_output output) as [gpus processes]. simpl.
    rewrite Hc. split; [reflexivity|]. split; [|auto].
    unfold status_ok; simpl.
    split; [split; [intros [? [=]]|discriminate]|discriminate].
  - simpl. rewrite Hc. split; [reflexivity|]. split; [|auto].
    unfold status_ok; simpl. split; [split; eauto|auto].
Qed.

Lemma fresh_status_spec server w :
  let st := (fresh_status remote config server w).1 in
  let w1 := (fresh_status remote config server w).2 in
  ServerStatus.server_id st = ServerConfig.id server ∧
  status_ok st ∧
  _cache w1 = <[cache_key (ServerConfig.id server) := (st, clock w1)]> (_cache w) ∧
  ssh_log w1 = ssh_log w ++ [(ServerConfig.hostname server, status_command)] ∧
  clock w ≤ clock w1.
Proof.
  unfold fresh_status. cbn [send_command].
  match goal with |- context [end_status config server ?c ?w'] =>
    pose proof (end_status_spec server c w') as (Hid & Hst & Hc & Hl & Ht)
  end.
  cbv zeta. split; [exact Hid|]. split; [exact Hst|].
  split; [exact Hc|]. split; [exact Hl|]. rewrite Ht. simpl. lia.
Qed.

(** The three ways in which a task leaves its first part. *)
Lemma begin_status_cases server w :
  let key := cache_key (ServerConfig.id server) in
  (∃ e, begin_status remote config server w = (inl (Raise e), w) ∧
        _is_cache_valid key (setting config "cache_ttl" (PyNum 30)) w = Raise e) ∨
  (∃ st ts, begin_status remote config server w = (inl (Return st), w) ∧
            _cache w !! key = Some (st, ts) ∧
            _is_cache_valid key (setting config "cache_ttl" (PyNum 30)) w
            = Return true) ∨
  (begin_status remote config server w
   = (inr (send_command remote config (ServerConfig.hostname server)
             status_command w).1,
      (send_command remote config (ServerConfig.hostname server)
         status_command w).2) ∧
   _is_cache_valid key (setting config "cache_ttl" (PyNum 30)) w = Return false).
Proof.
  intros key. unfold begin_status. fold key.
  destruct (_is_cache_valid key _ w) as [[|]|e] eqn:Hv.
  - right. left. unfold _is_cache_valid, _get_cached in *.
    destruct (_cache w !! key) as [[st ts]|]; [|discriminate]. eauto.
  - right. right. split; reflexivity.
  - left. eauto.
Qed.

Lemma cache_ok_insert w st :
  cache_ok w → status_ok st →
  cache_ok (_set_cache (cache_key (ServerStatus.server_id st)) st w).
Proof.
  intros Hok Hst key st' ts. simpl.
  rewrite lookup_insert. case_decide as Hk.
  - intros [= <- <-]. split; [congruence|assumption].
  - apply Hok.
Qed.

Lemma cache_key_inj a b : cache_key a = cache_key b → a = b.
Proof. apply (inj (String.app "server_status_")). Qed.

Lemma end_status_cache_ok server call w :
  cache_ok w → cache_ok (end_status config server call w).2.
Proof.
  intros Hok.
  destruct (end_status_spec server call w) as (Hid & Hst & Hc & _).
  intros key st' ts. rewrite Hc, lookup_insert. case_decide as Hk.
  - intros [= <- <-]. split; [congruence|assumption].
  - apply Hok.
Qed.

Lemma fresh_status_cache_ok server w :
  cache_ok w → cache_ok (fresh_status remote config server w).2.
Proof.
  intros Hok.
  destruct (fresh_status_spec server w) as (Hid & Hst & Hc & _).
  intros key st' ts. rewrite Hc, lookup_insert. case_decide as Hk.
  - intros [= <- <-]. split; [congruence|assumption].
  - apply Hok.
Qed.

(** A call on its own that returns is the cached status, an exception of
    the cache test, or a fresh query. *)
Lemma resolve_cases server w r w1 :
  _get_server_status remote config server w = Done (r, w1) →
  0 < _semaphore config ∧
  let key := cache_key (ServerConfig.id server) in
  let ttl := setting config "cache_ttl" (PyNum 30) in
  ((∃ e, _is_cache_valid key ttl w = Raise e ∧ r = Raise e ∧ w1 = w) ∨
   (∃ st ts, _is_cache_valid key ttl w = Return true ∧
             _cache w !! key = Some (st, ts) ∧ r = Return st ∧ w1 = w) ∨
   (_is_cache_valid key ttl w = Return false ∧
    r = Return (fresh_status remote config server w).1 ∧
    w1 = (fresh_status remote config server w).2)).
Proof.
  unfold _get_server_status.
  destruct (_semaphore config <=? 0) eqn:Hp; [discriminate|].
  apply Z.leb_gt in Hp. intros H. split; [exact Hp|]. cbv zeta.
  destruct (begin_status_cases server w)
    as [(e & Hb & Hv)|[(st & ts & Hb & Hl & Hv)|[Hb Hv]]]; rewrite Hb in H.
  - injection H as <- <-. left. eauto.
  - injection H as <- <-. right. left. eauto 10.
  - right. right. split; [exact Hv|].
    unfold fresh_status.
    destruct (send_command remote config _ _ w) as [call w'].
    cbn [fst snd] in H.
    destruct (end_status config server call w') as [st w2].
    injection H as <- <-. split; reflexivity.
Qed.

(** With a permit, a call on its own returns. *)
Lemma resolve_returns server w :
  0 < _semaphore config →
  ∃ r w1, _get_server_status remote config server w = Done (r, w1).
Proof.
  intros Hp. unfold _get_server_status.
  replace (_semaphore config <=? 0) with false by (symmetry; apply Z.leb_gt; lia).
  destruct (begin_status remote config server w) as [[r|call] w1]; [eauto|].
  destruct (end_status config server call w1) as [st w2]. eauto.
Qed.

(** A resolution keeps the cache well formed and, when it returns a status,
    the status is the server's and is well shaped. *)
Lemma resolve_ok server w r w1 :
  cache_ok w →
  _get_server_status remote config server w = Done (r, w1) →
  cache_ok w1 ∧
  ∀ st, r = Return st →
        ServerStatus.server_id st = ServerConfig.id server ∧ status_ok st.
Proof.
  intros Hok H. apply resolve_cases in H as [_ H]. cbv zeta in H.
  destruct H as [(e & _ & -> & ->)|[(st & ts & _ & Hl & -> & ->)|(_ & -> & ->)]].
  - split; [assumption|discriminate].
  - split; [assumption|]. intros st' [= <-].
    destruct (Hok _ _ _ Hl) as [Hkey Hshape]. split; [|assumption].
    apply cache_key_inj in Hkey. congruence.
  - split; [apply fresh_status_cache_ok, Hok|]. intros st [= <-].
    destruct (fresh_status_spec server w) as (Hid & Hst & _). auto.
Qed.

(** *** The event loop *)

Lemma enter_inv tasks w next :
  enter remote config tasks w = Some next →
  ∃ server rest,
    waiting tasks = server :: rest ∧
    waiting next.1 = rest ∧
    next.2 = (begin_status remote config server w).2 ∧
    entered next.1
    = entered tasks
      ++ [match (begin_status remote config server w).1 with
          | inl result => Finished result
          | inr call => Running server call
          end].
Proof.
  unfold enter. destruct (waiting tasks) as [|server rest]; [discriminate|].
  destruct (begin_status remote config server w) as [r w1] eqn:Hb.
  intros [= <-]. exists server, rest. rewrite Hb. simpl.
  repeat split; reflexivity.
Qed.

Lemma resume_in_inv k :
  ∀ tasks w tasks' w',
    resume_in config k tasks w = Some (tasks', w') →
    ∃ pre server call post,
      tasks = pre ++ Running server call :: post ∧
      tasks' = pre ++ Finished (Return (end_status config server call w).1) :: post ∧
      w' = (end_status config server call w).2.
Proof.
  intros tasks. revert k.
  induction tasks as [|t tasks IH]; intros k w tasks' w' H; [discriminate|].
  destruct t as [server call|result]; simpl in H.
  - destruct k as [|k].
    + destruct (end_status config server call w) as [st w1] eqn:He.
      injection H as <- <-. exists [], server, call, tasks. rewrite He. auto.
    + destruct (resume_in config k tasks w) as [[rest' w1]|] eqn:Hrec;
        [|discriminate].
      injection H as <- <-.
      apply IH in Hrec as (pre & s & c & post & -> & -> & ->).
      exists (Running server call :: pre), s, c, post. auto.
  - destruct (resume_in config k tasks w) as [[rest' w1]|] eqn:Hrec;
      [|discriminate].
    injection H as <- <-.
    apply IH in Hrec as (pre & s & c & post & -> & -> & ->).
    exists (Finished result :: pre), s, c, post. auto.
Qed.

Lemma resume_inv k tasks w next :
  resume config k tasks w = Some next →
  waiting next.1 = waiting tasks ∧
  ∃ pre server call post,
    entered tasks = pre ++ Running server call :: post ∧
    entered next.1
    = pre ++ Finished (Return (end_status config server call w).1) :: post ∧
    next.2 = (end_status config server call w).2.
Proof.
  unfold resume.
  destruct (resume_in config k (entered tasks) w) as [[tasks' w1]|] eqn:H;
    [|discriminate].
  intros [= <-]. split; [reflexivity|]. apply resume_in_inv in H. exact H.
Qed.

Lemma step_inv tasks w next :
  step remote config tasks w = Some next →
  (permit_free config tasks = true ∧ enter remote config tasks w = Some next) ∨
  ∃ k, resume config k tasks w = Some next.
Proof.
  assert (Ha : try_enter remote config tasks w = Some next →
               permit_free config tasks = true ∧
               enter remote config tasks w = Some next).
  { unfold try_enter. destruct (permit_free config tasks); [auto|discriminate]. }
  assert (Hr : ∀ move, reply_arrives config move tasks w = Some next →
                       ∃ k, resume config k tasks w = Some next).
  { intros move. unfold reply_arrives.
    destruct (resume config (reply_of move) tasks w) eqn:E.
    - intros [= <-]. eauto.
    - eauto. }
  unfold step. destruct (enter_first _).
  - destruct (try_enter remote config tasks w) eqn:E.
    + intros [= <-]. auto.
    + intros H. right. eapply Hr, H.
  - destruct (reply_arrives config _ tasks w) eqn:E.
    + intros [= <-]. right. eapply Hr, E.
    + auto.
Qed.

(** What holds when the loop starts and is kept by every move holds when
    the loop is over. *)
Lemma run_invariant (I : Tasks → World → Prop) :
  (∀ tasks w next,
     I tasks w → permit_free config tasks = true →
     enter remote config tasks w = Some next → I next.1 next.2) →
  (∀ tasks w k next,
     I tasks w → resume config k tasks w = Some next → I next.1 next.2) →
  ∀ moves tasks w rs w',
    I tasks w → run remote config moves tasks w = Some (rs, w') →
    ∃ tasks', I tasks' w' ∧ results tasks' = Some rs.
Proof.
  intros Henter Hresume.
  induction moves as [|moves IH]; intros tasks w rs w' HI; simpl.
  - destruct (results tasks) as [rs'|] eqn:Hres; [|discriminate].
    intros [= <- <-]. eauto.
  - destruct (results tasks) as [rs'|] eqn:Hres.
    + intros [= <- <-]. eauto.
    + destruct (step remote config tasks w) as [[tasks1 w1]|] eqn:Hstep;
        [|discriminate].
      intros Hrun. apply (IH tasks1 w1); [|exact Hrun].
      apply step_inv in Hstep as [[Hp Ha]|[k Hr]].
      * apply (Henter _ _ _ HI Hp Ha).
      * apply (Hresume _ _ _ _ HI Hr).
Qed.

Lemma results_inv tasks rs :
  results tasks = Some rs →
  waiting tasks = [] ∧ entered tasks = map Finished rs.
Proof.
  unfold results. destruct (waiting tasks); [|discriminate].
  intros H. split; [reflexivity|].
  apply mapM_Some in H.
  induction H as [|t r ts rs' Ht _ IH]; [reflexivity|].
  destruct t; [discriminate|]. injection Ht as ->. simpl. f_equal. exact IH.
Qed.

Lemma results_finished rs :
  results {| entered := map Finished rs; waiting := [] |} = Some rs.
Proof.
  unfold results. simpl. apply mapM_Some.
  induction rs; constructor; auto.
Qed.

(** **** Progress *)

Lemma in_flight_app a b : in_flight (a ++ b) = in_flight a ++ in_flight b.
Proof. unfold in_flight. apply omap_app. Qed.

Lemma resume_first tasks w :
  in_flight tasks ≠ [] → is_Some (resume_in config 0 tasks w).
Proof.
  induction tasks as [|t tasks IH]; [done|].
  destruct t as [server call|r]; simpl.
  - intros _. destruct (end_status config server call w). eauto.
  - intros H. destruct (IH H) as [[rest w1] ->]. eauto.
Qed.

Lemma resume_none tasks w :
  in_flight tasks = [] → ∀ k, resume_in config k tasks w = None.
Proof.
  induction tasks as [|t tasks IH]; intros H k; [reflexivity|].
  destruct t as [server call|r]; [discriminate|]. simpl.
  rewrite (IH H). reflexivity.
Qed.

Lemma enter_moves tasks w next :
  enter remote config tasks w = Some next →
  (moves_left next.1 < moves_left tasks)%nat.
Proof.
  intros (server & rest & Hw & Hw' & _ & He)%enter_inv.
  unfold moves_left. rewrite Hw, Hw', He, in_flight_app, length_app.
  destruct (begin_status remote config server w).1; simpl; lia.
Qed.

Lemma resume_moves k tasks w next :
  resume config k tasks w = Some next →
  (moves_left next.1 < moves_left tasks)%nat.
Proof.
  intros (Hw & pre & server & call & post & He & He' & _)%resume_inv.
  unfold moves_left.
  rewrite Hw, He, He', !in_flight_app, !length_app. simpl. lia.
Qed.

Lemma results_none tasks :
  results tasks = None → waiting tasks ≠ [] ∨ in_flight (entered tasks) ≠ [].
Proof.
  unfold results. destruct (waiting tasks); [|auto]. intros H. right.
  intros Hnone.
  assert (Hall : Forall (λ t, is_Some match t with
                                      | Finished result => Some result
                                      | Running _ _ => None
                                      end) (entered tasks)).
  { clear H. revert Hnone. generalize (entered tasks) as ts.
    induction ts as [|t ts IH]; intros Hnone; [constructor|].
    destruct t as [server call|r]; [discriminate|].
    constructor; [eauto|apply IH, Hnone]. }
  apply mapM_is_Some in Hall. rewrite H in Hall. destruct Hall as [? [=]].
Qed.

(** With a permit there is always a move to make until every task is
    over. *)
Lemma step_possible tasks w :
  0 < _semaphore config → results tasks = None →
  ∃ next, step remote config tasks w = Some next ∧
          (moves_left next.1 < moves_left tasks)%nat.
Proof.
  intros Hp Hres.
  assert (Hone : is_Some (try_enter remote config tasks w) ∨
                 is_Some (resume config 0 tasks w)).
  { destruct (decide (in_flight (entered tasks) = [])) as [Hnone|Hsome].
    - left. unfold try_enter, permit_free. rewrite Hnone.
      replace (Z.of_nat (length (@nil string)) <? _semaphore config) with true
        by (symmetry; apply Z.ltb_lt; simpl; lia).
      apply results_none in Hres as [Hw|?]; [|contradiction].
      unfold enter. destruct (waiting tasks) as [|server rest]; [done|].
      destruct (begin_status remote config server w). eauto.
    - right. unfold resume.
      destruct (resume_first (entered tasks) w Hsome) as [[ts w1] ->]. eauto. }
  assert (Hdec : ∀ next, step remote config tasks w = Some next →
                         (moves_left next.1 < moves_left tasks)%nat).
  { intros next [[_ Ha]|[k Hr]]%step_inv.
    - eapply enter_moves, Ha.
    - eapply resume_moves, Hr. }
  destruct (step remote config tasks w) as [next|] eqn:Hstep; [eauto|].
  exfalso. unfold step in Hstep.
  set (move := arrival remote (ssh_log w) (clock w) (in_flight (entered tasks)))
    in Hstep.
  assert (Hra : is_Some (resume config 0 tasks w) →
                is_Some (reply_arrives config move tasks w)).
  { intros [x Hx]. unfold reply_arrives.
    destruct (resume config (reply_of move) tasks w); [eauto|].
    rewrite Hx. eauto. }
  destruct (enter_first move).
  - destruct (try_enter remote config tasks w) as [y|] eqn:Ha; [discriminate|].
    destruct Hone as [[x Hx]|Hr]; [congruence|].
    destruct (Hra Hr) as [x Hx]. congruence.
  - destruct (reply_arrives config move tasks w) as [y|] eqn:Hr; [discriminate|].
    destruct Hone as [[x Hx]|Hr']; [congruence|].
    destruct (Hra Hr') as [x Hx]. congruence.
Qed.

Lemma run_returns moves :
  0 < _semaphore config →
  ∀ tasks w, (moves_left tasks ≤ moves)%nat →
             is_Some (run remote config moves tasks w).
Proof.
  intros Hp. induction moves as [|moves IH]; intros tasks w Hm; simpl.
  - destruct (results tasks) as [rs|] eqn:Hres; [eauto|].
    apply results_none in Hres. unfold moves_left in Hm.
    destruct Hres as [H|H]; [destruct (waiting tasks)|
                            destruct (in_flight (entered tasks))];
      simpl in *; try done; lia.
  - destruct (results tasks) as [rs|] eqn:Hres; [eauto|].
    destruct (step_possible tasks w Hp Hres) as ([tasks1 w1] & -> & Hlt).
    apply IH. simpl in Hlt. lia.
Qed.

(** With a permit [gather] returns. *)
Lemma gather_returns servers w :
  0 < _semaphore config →
  ∃ rs w1, gather remote config servers w = Done (rs, w1).
Proof.
  intros Hp. unfold gather.
  destruct (run_returns (2 * length servers) Hp
              {| entered := []; waiting := servers |} w) as [[rs w1] ->].
  - unfold moves_left. simpl. lia.
  - eauto.
Qed.

(** Without a permit it returns when there is nothing to wait for, and
    otherwise never. *)
Lemma gather_starved servers w :
  _semaphore config ≤ 0 →
  gather remote config servers w
  = match servers with [] => Done ([], w) | _ :: _ => Blocked end.
Proof.
  intros Hp. unfold gather. destruct servers as [|server rest]; [reflexivity|].
  cbn [length Nat.mul Nat.add run results waiting].
  unfold step, reply_arrives, try_enter, permit_free, resume. simpl.
  replace (Z.of_nat 0 <? _semaphore config) with false
    by (symmetry; apply Z.ltb_ge; simpl; lia).
  destruct (enter_first _); reflexivity.
Qed.

Lemma gather_nil w : gather remote config [] w = Done ([], w).
Proof. reflexivity. Qed.

(** **** What a poll keeps *)

Lemma task_ok_later w0 w w' s t :
  (∀ key, is_Some (_cache w !! key) → is_Some (_cache w' !! key)) →
  task_ok w0 w s t → task_ok w0 w' s t.
Proof.
  intros Hkeys. destruct t as [server call|r]; simpl; [auto|].
  intros [Hsome Hr]. split; [apply Hkeys, Hsome|exact Hr].
Qed.

Lemma gather_inv_enter servers w0 tasks w next :
  gather_inv servers w0 tasks w →
  enter remote config tasks w = Some next →
  gather_inv servers w0 next.1 next.2.
Proof.
  intros (pre & Hs & Hts & Hok & Hclock & (cmds & Hlog & Hsub) & Hframe & Hkeys)
         (server & rest & Hw & Hw' & Hnext & He)%enter_inv.
  exists (pre ++ [server]). rewrite Hw', He, Hnext.
  split; [rewrite Hs, Hw, <- app_assoc; reflexivity|].
  destruct (begin_status_cases server w)
    as [(e & Hb & Hv)|[(st & ts & Hb & Hl & Hv)|[Hb Hv]]]; rewrite Hb;
    cbn [fst snd].
  - split.
    { apply Forall2_app; [exact Hts|]. constructor; [|constructor].
      simpl. split; [|discriminate].
      unfold _is_cache_valid in Hv.
      destruct (_cache w !! cache_key (ServerConfig.id server)); [eauto|discriminate]. }
    split; [exact Hok|]. split; [exact Hclock|].
    split; [|split; assumption].
    exists cmds. split; [exact Hlog|]. rewrite map_app.
    apply sublist_inserts_r, Hsub.
  - split.
    { apply Forall2_app; [exact Hts|]. constructor; [|constructor].
      simpl. split; [rewrite Hl; eauto|].
      intros Hok0 st' [= <-]. destruct (Hok Hok0 _ _ _ Hl) as [Hkey Hshape].
      split; [|assumption]. apply cache_key_inj in Hkey. congruence. }
    split; [exact Hok|]. split; [exact Hclock|].
    split; [|split; assumption].
    exists cmds. split; [exact Hlog|]. rewrite map_app.
    apply sublist_inserts_r, Hsub.
  - cbn [send_command fst snd _cache clock ssh_log].
    split.
    { apply Forall2_app; [|constructor; [reflexivity|constructor]].
      eapply Forall2_impl; [exact Hts|]. intros s t. apply task_ok_later. auto. }
    split; [exact Hok|]. split; [exact Hclock|].
    split; [|split; assumption].
    exists (cmds ++ [status_query server]).
    split; [rewrite Hlog, <- app_assoc; reflexivity|].
    rewrite map_app. apply sublist_app; [exact Hsub|reflexivity].
Qed.

Lemma gather_inv_resume servers w0 tasks w k next :
  gather_inv servers w0 tasks w →
  resume config k tasks w = Some next →
  gather_inv servers w0 next.1 next.2.
Proof.
  intros (pre & Hs & Hts & Hok & Hclock & (cmds & Hlog & Hsub) & Hframe & Hkeys)
         (Hw & a & server & call & b & He & He' & Hnext)%resume_inv.
  rewrite He in Hts.
  apply Forall2_app_inv_r in Hts as (pa & pb' & Ha & Hb & ->).
  apply Forall2_cons_inv_r in Hb as (s & pb & Hrun & Hb & ->).
  simpl in Hrun. subst s.
  destruct (end_status_spec server call w) as (Hid & Hst & Hc & Hl & Ht).
  assert (Hlater : ∀ key, is_Some (_cache w !! key) →
                          is_Some (_cache next.2 !! key)).
  { intros key Hsome. rewrite Hnext, Hc, lookup_insert.
    case_decide; [eauto|exact Hsome]. }
  exists (pa ++ server :: pb). rewrite Hw, He', Hnext.
  split; [exact Hs|]. split.
  { apply Forall2_app.
    - eapply Forall2_impl; [exact Ha|]. intros s t. apply task_ok_later.
      rewrite <- Hnext. exact Hlater.
    - constructor.
      + simpl. split; [rewrite Hc, lookup_insert_eq; eauto|].
        intros _ st [= <-]. auto.
      + eapply Forall2_impl; [exact Hb|]. intros s t. apply task_ok_later.
        rewrite <- Hnext. exact Hlater. }
  split; [intros Hok0; apply end_status_cache_ok, Hok, Hok0|].
  split; [rewrite Ht; lia|].
  split; [exists cmds; rewrite Hl; auto|].
  split.
  - intros key Hkey. rewrite Hc, lookup_insert_ne; [apply Hframe, Hkey|].
    intros Heq. apply (Hkey server); [|symmetry; exact Heq].
    rewrite Hs. apply elem_of_app. left. apply elem_of_app. right. left.
  - intros key Hsome. rewrite <- Hnext. apply Hlater, Hkeys, Hsome.
Qed.

(** What a [gather] that returns has done.  Each result belongs to the
    server of its task, in the order of the tasks, whatever the order in
    which the tasks ended; the commands sent are status queries of the
    servers, at most one for each and in the order of the tasks; the clock
    has not gone back; the cache entries of other servers are as they
    were, and no entry has gone. *)
Lemma gather_spec servers w rs w1 :
  gather remote config servers w = Done (rs, w1) →
  Forall2 (λ s r, task_ok w w1 s (Finished r)) servers rs ∧
  (cache_ok w → cache_ok w1) ∧
  clock w ≤ clock w1 ∧
  (∃ cmds, ssh_log w1 = ssh_log w ++ cmds ∧
           sublist cmds (map status_query servers)) ∧
  (∀ key, (∀ s, s ∈ servers → key ≠ cache_key (ServerConfig.id s)) →
          _cache w1 !! key = _cache w !! key) ∧
  (∀ key, is_Some (_cache w !! key) → is_Some (_cache w1 !! key)).
Proof.
  unfold gather.
  destruct (run remote config _ _ w) as [[rs' w']|] eqn:Hrun; [|discriminate].
  intros [= -> ->].
  apply (run_invariant (gather_inv servers w)) in Hrun
    as (tasks & (pre & Hs & Hts & Hrest) & Hres).
  - apply results_inv in Hres as [Hw He]. rewrite Hw, app_nil_r in Hs.
    subst pre. rewrite He in Hts. split; [|exact Hrest].
    change (map Finished rs) with (Finished <$> rs) in Hts.
    rewrite Forall2_fmap_r in Hts. exact Hts.
  - intros tasks w' next HI _. apply gather_inv_enter, HI.
  - intros tasks w' k next HI. apply gather_inv_resume, HI.
  - exists []. simpl. split; [reflexivity|]. split; [constructor|].
    split; [auto|]. split; [lia|]. split; [|auto].
    exists []. rewrite app_nil_r. split; [reflexivity|constructor].
Qed.

Lemma gather_ok servers w rs w1 :
  cache_ok w →
  gather remote config servers w = Done (rs, w1) →
  cache_ok w1 ∧
  Forall2 (λ server r, ∀ st, r = Return st →
             ServerStatus.server_id st = ServerConfig.id server ∧ status_ok st)
    servers rs.
Proof.
  intros Hok (Hrs & Hok1 & _)%gather_spec. split; [auto|].
  eapply Forall2_impl; [exact Hrs|]. intros s r [_ H]. auto.
Qed.

Lemma gather_length servers w rs w1 :
  gather remote config servers w = Done (rs, w1) → length rs = length servers.
Proof.
  intros (Hrs & _)%gather_spec. symmetry. eapply Forall2_length, Hrs.
Qed.

(** When no task has to wait for a reply, the tasks run one after the
    other, each to its end. *)
Lemma run_immediate (f : ServerConfig.t → py ServerStatus.t) w :
  0 < _semaphore config →
  ∀ servers done moves,
    (∀ s, s ∈ servers → begin_status remote config s w = (inl (f s), w)) →
    (length servers ≤ moves)%nat →
    run remote config moves
      {| entered := map Finished done; waiting := servers |} w
    = Some (done ++ map f servers, w).
Proof.
  intros Hp. induction servers as [|server rest IH]; intros done moves Hb Hm.
  - rewrite app_nil_r.
    destruct moves; simpl; rewrite results_finished; reflexivity.
  - destruct moves as [|moves]; [simpl in Hm; lia|].
    cbn [run results waiting].
    assert (Hflight : in_flight (map Finished done) = []).
    { induction done; [reflexivity|assumption]. }
    assert (Hstep : step remote config
                      {| entered := map Finished done; waiting := server :: rest |} w
                    = Some ({| entered := map Finished (done ++ [f server]);
                               waiting := rest |}, w)).
    { unfold step, reply_arrives, try_enter, permit_free, resume, enter.
      cbn [entered waiting]. rewrite Hflight.
      replace (Z.of_nat (length (@nil string)) <? _semaphore config) with true
        by (symmetry; apply Z.ltb_lt; simpl; lia).
      rewrite (Hb server) by left.
      rewrite !resume_none by exact Hflight.
      rewrite map_app. destruct (enter_first _); reflexivity. }
    rewrite Hstep, IH.
    + rewrite <- app_assoc. reflexivity.
    + intros s Hs. apply Hb. right. exact Hs.
    + simpl in Hm. lia.
Qed.

Lemma gather_immediate (f : ServerConfig.t → py ServerStatus.t) servers w :
  0 < _semaphore config →
  (∀ s, s ∈ servers → begin_status remote config s w = (inl (f s), w)) →
  gather remote config servers w = Done (map f servers, w).
Proof.
  intros Hp Hb. unfold gather.
  rewrite (run_immediate f w Hp servers [] _ Hb) by lia. reflexivity.
Qed.

(** *** Polls, usage queries and kills that return *)

Lemma valid_statuses_ok now servers rs :
  Forall2 (λ server r, ∀ st, r = Return st →
             ServerStatus.server_id st = ServerConfig.id server ∧ status_ok st)
    servers rs →
  map ServerStatus.server_id (zip_with (valid_status now) servers rs)
  = map ServerConfig.id servers ∧
  Forall status_ok (zip_with (valid_status now) servers rs).
Proof.
  induction 1 as [|server r servers rs Hr _ [IHid IHok]]; simpl.
  - split; [reflexivity|constructor].
  - assert (ServerStatus.server_id (valid_status now server r)
            = ServerConfig.id server ∧ status_ok (valid_status now server r))
      as [Hid Hst].
    { destruct r as [st|msg]; simpl.
      - apply Hr. reflexivity.
      - split; [reflexivity|]. split; [split; [done|eauto]|done]. }
    split; [congruence|constructor; assumption].
Qed.

Lemma cluster_status_spec server_ids w cs w1 :
  cache_ok w →
  get_cluster_status remote config server_ids w = Done (cs, w1) →
  cache_ok w1 ∧
  map ServerStatus.server_id (ClusterStatus.servers cs)
  = map ServerConfig.id (servers_to_check config server_ids) ∧
  Forall status_ok (ClusterStatus.servers cs).
Proof.
  intros Hok (rs & Hg & ->)%cluster_status_done.
  destruct (gather_ok _ _ _ _ Hok Hg) as [Hok1 Hrs].
  split; [exact Hok1|]. simpl.
  apply (valid_statuses_ok (clock w1)) in Hrs. exact Hrs.
Qed.

Lemma cluster_status_cache_ok server_ids w cs w1 :
  cache_ok w →
  get_cluster_status remote config server_ids w = Done (cs, w1) → cache_ok w1.
Proof. intros Hok H. apply (cluster_status_spec _ _ _ _ Hok H). Qed.

Lemma cluster_status_ids server_ids w cs w1 :
  cache_ok w →
  get_cluster_status remote config server_ids w = Done (cs, w1) →
  map ServerStatus.server_id (ClusterStatus.servers cs)
  = map ServerConfig.id (servers_to_check config server_ids).
Proof. intros Hok H. apply (cluster_status_spec _ _ _ _ Hok H). Qed.

(** A poll returns when the semaphore has a permit, and when no server is
    selected; otherwise it waits for ever.  It never raises. *)
Lemma cluster_status_returns server_ids w :
  0 < _semaphore config ∨ servers_to_check config server_ids = [] →
  ∃ cs w1, get_cluster_status remote config server_ids w = Done (cs, w1).
Proof.
  intros Hcan. unfold get_cluster_status.
  assert (Hg : ∃ rs w1, gather remote config
                          (servers_to_check config server_ids) w = Done (rs, w1)).
  { destruct Hcan as [Hp|Hnil]; [apply gather_returns, Hp|].
    rewrite Hnil. eauto. }
  destruct Hg as (rs & w1 & ->). eauto.
Qed.

Lemma cluster_status_blocked server_ids w :
  _semaphore config ≤ 0 → servers_to_check config server_ids ≠ [] →
  get_cluster_status remote config server_ids w = Blocked.
Proof.
  intros Hp Hsome. unfold get_cluster_status. rewrite gather_starved by exact Hp.
  destruct (servers_to_check config server_ids); [contradiction|reflexivity].
Qed.

Lemma cluster_status_can_return server_ids w cs w1 :
  get_cluster_status remote config server_ids w = Done (cs, w1) →
  0 < _semaphore config ∨ servers_to_check config server_ids = [].
Proof.
  intros H. destruct (decide (0 < _semaphore config)) as [|Hp]; [auto|].
  right. destruct (servers_to_check config server_ids) as [|s l] eqn:E;
    [reflexivity|].
  rewrite cluster_status_blocked in H; [discriminate|lia|].
  rewrite E. discriminate.
Qed.

Lemma usage_done user server_ids w usage w1 :
  get_user_usage remote config user server_ids w = Done (usage, w1) →
  ∃ cs, get_cluster_status remote config server_ids w = Done (cs, w1) ∧
        usage = summarize user cs (clock w1).
Proof.
  unfold get_user_usage.
  destruct (get_cluster_status remote config server_ids w) as [[cs w']|e|];
    try discriminate.
  intros [= <- <-]. eauto.
Qed.

Lemma usage_of_status user server_ids w cs w1 :
  get_cluster_status remote config server_ids w = Done (cs, w1) →
  get_user_usage remote config user server_ids w
  = Done (summarize user cs (clock w1), w1).
Proof. unfold get_user_usage. intros ->. reflexivity. Qed.

Lemma kill_done user server_ids w results w2 :
  kill_user_tasks remote config user server_ids true w = Done (results, w2) →
  ∃ usage w1,
    get_user_usage remote config user server_ids w = Done (usage, w1) ∧
    kill_listed remote config user usage w1 = (results, w2).
Proof.
  unfold kill_user_tasks. simpl.
  destruct (get_user_usage remote config user server_ids w) as [[usage w1]|e|];
    try discriminate.
  intros [= H]. eauto.
Qed.

Lemma kill_of_usage user server_ids w usage w1 :
  get_user_usage remote config user server_ids w = Done (usage, w1) →
  kill_user_tasks remote config user server_ids true w
  = Done (kill_listed remote config user usage w1).
Proof. unfold kill_user_tasks. simpl. intros ->. reflexivity. Qed.

Lemma kill_step_cache_ok acc item :
  cache_ok acc.2 → cache_ok (kill_step remote config acc item).2.
Proof.
  destruct acc as [results w], item as [server_id processes]. simpl.
  intros Hok.
  destruct (config_lookup config _) as [server|]; [|assumption].
  pose proof (run_ssh_world (ServerConfig.hostname server)
                (kill_command processes) w) as (Hc & _).
  destruct (_run_ssh_command remote config _ _ w) as [[[success output] rt] w1].
  simpl in Hc.
  assert (Hok1 : cache_ok w1) by (intros k st ts; rewrite Hc; apply Hok).
  destruct success; simpl; [|assumption].
  intros k st ts. unfold invalidate; simpl.
  rewrite lookup_delete. case_decide; [discriminate|apply Hok1].
Qed.

Lemma kill_loop_cache_ok items :
  ∀ acc, cache_ok acc.2 → cache_ok (fold_left (kill_step remote config) items acc).2.
Proof.
  induction items as [|item items IH]; intros acc Hok; simpl; [assumption|].
  apply IH, kill_step_cache_ok, Hok.
Qed.

Lemma kill_listed_cache_ok user usage w1 :
  cache_ok w1 → cache_ok (kill_listed remote config user usage w1).2.
Proof.
  intros Hok. unfold kill_listed.
  destruct (UserUsageSummary.processes_by_server usage) as [|item items];
    [assumption|].
  apply (kill_loop_cache_ok (item :: items) ([], w1)). exact Hok.
Qed.

Lemma kill_cache_ok username server_ids confirm w results w1 :
  cache_ok w →
  kill_user_tasks remote config username server_ids confirm w
  = Done (results, w1) →
  cache_ok w1.
Proof.
  intros Hok. destruct confirm.
  - intros (usage & w' & (cs & Hcs & _)%usage_done & Hk)%kill_done.
    pose proof (cluster_status_cache_ok _ _ _ _ Hok Hcs) as Hok1.
    pose proof (kill_listed_cache_ok username usage w' Hok1) as Hok2.
    rewrite Hk in Hok2. exact Hok2.
  - intros [= _ <-]. exact Hok.
Qed.

(** Every reachable state has a well-formed cache. *)
Lemma reachable_cache_ok w : reachable remote config w → cache_ok w.
Proof.
  induction 1 as [t|d w _ IH|ids w cs w1 _ IH H|user ids w usage w1 _ IH H
                  |user ids confirm w results w1 _ IH H].
  - intros key st ts. simpl. rewrite lookup_empty. discriminate.
  - exact IH.
  - eapply cluster_status_cache_ok; eassumption.
  - apply usage_done in H as (cs & H & _).
    eapply cluster_status_cache_ok; eassumption.
  - eapply kill_cache_ok; eassumption.
Qed.

(** C8: in every reachable state, a status returned by the resolver, the
    substitute the aggregator builds for a task that raised, and hence every
    status of a cluster result, has an error message exactly when it is
    offline and empty GPU and process lists when it is offline. *)
Theorem engine_statuses_well_shaped (w : World) :
  reachable remote config w →
  (∀ server st w1,
     _get_server_status remote config server w = Done (Return st, w1) →
     status_ok st) ∧
  (∀ now server msg, status_ok (valid_status now server (Raise msg))) ∧
  (∀ server_ids cs w1,
     get_cluster_status remote config server_ids w = Done (cs, w1) →
     Forall status_ok (ClusterStatus.servers cs)).
Proof.
  intros Hreach. pose proof (reachable_cache_ok w Hreach) as Hok.
  split; [|split].
  - intros server st w1 Hr. destruct (resolve_ok _ _ _ _ Hok Hr) as [_ H].
    apply H. reflexivity.
  - intros now server msg. unfold status_ok; simpl.
    split; [split; eauto|auto].
  - intros server_ids cs w1 H. apply (cluster_status_spec _ _ _ _ Hok H).
Qed.

(** *** Selection of the servers *)

Lemma filter_all {A} (P : A → Prop) `{∀ x, Decision (P x)} (l : list A) :
  (∀ x, P x) → filter P l = l.
Proof.
  intros HP. induction l as [|x l IH]; [reflexivity|].
  rewrite filter_cons, decide_True by apply HP. f_equal. exact IH.
Qed.

Lemma filter_none {A} (P : A → Prop) `{∀ x, Decision (P x)} (l : list A) :
  (∀ x, x ∈ l → ¬ P x) → filter P l = [].
Proof.
  induction l as [|x l IH]; intros HP; [reflexivity|].
  rewrite filter_cons, decide_False by (apply HP; left).
  apply IH. intros y Hy. apply HP. right. exact Hy.
Qed.

Lemma servers_to_check_passes server_ids :
  servers_to_check config server_ids
  = filter (passes server_ids) (ClusterConfig.servers config).
Proof.
  destruct server_ids as [[|i ids]|]; simpl.
  - symmetry. apply filter_all. intros s. left. reflexivity.
  - apply list_filter_iff. intros s. simpl. split; [auto|].
    intros [[=]|H]; exact H.
  - symmetry. apply filter_all. intros s. exact I.
Qed.

(** *** The freshness window *)

(** C2, as the code has it: after a resolution that returned a status, the
    cache holds that status with the time it was stored (the time at which a
    fresh query completed; a call served from the cache stores nothing and
    leaves the state as it was).  As long as the entry is there, a resolution
    made less than [cache_ttl] after that time returns the same status and
    changes nothing, so it issues no command; one made [cache_ttl] or more
    after that time queries the server again, with exactly one command. *)
Theorem cache_freshness_window
    (server : ServerConfig.t) (w w1 : World) (ttl : Z) (st1 : ServerStatus.t) :
  setting config "cache_ttl" (PyNum 30) = PyNum ttl →
  _get_server_status remote config server w = Done (Return st1, w1) →
  ∃ stored_at,
    _cache w1 !! cache_key (ServerConfig.id server) = Some (st1, stored_at) ∧
    (w1 = w ∨ stored_at = clock w1 ∧ clock w ≤ clock w1) ∧
    ∀ w2,
      _cache w2 !! cache_key (ServerConfig.id server) = Some (st1, stored_at) →
      (clock w2 - stored_at < ttl →
       _get_server_status remote config server w2 = Done (Return st1, w2)) ∧
      (ttl ≤ clock w2 - stored_at →
       ∃ w3,
         _get_server_status remote config server w2
         = Done (Return (fresh_status remote config server w2).1, w3) ∧
         ssh_log w3
         = ssh_log w2 ++ [(ServerConfig.hostname server, status_command)]).
Proof.
  intros Httl Hcall.
  destruct (resolve_cases _ _ _ _ Hcall) as [Hp Hcases]. cbv zeta in Hcases.
  assert (Hlater : ∀ stored_at w2,
    _cache w2 !! cache_key (ServerConfig.id server) = Some (st1, stored_at) →
    (clock w2 - stored_at < ttl →
     _get_server_status remote config server w2 = Done (Return st1, w2)) ∧
    (ttl ≤ clock w2 - stored_at →
     ∃ w3,
       _get_server_status remote config server w2
       = Done (Return (fresh_status remote config server w2).1, w3) ∧
       ssh_log w3
       = ssh_log w2 ++ [(ServerConfig.hostname server, status_command)])).
  { intros stored_at w2 Hlook.
    destruct (resolve_returns server w2 Hp) as (r & w3 & Hr).
    destruct (resolve_cases _ _ _ _ Hr) as [_ Hc]. cbv zeta in Hc.
    unfold _is_cache_valid in Hc. rewrite Hlook, Httl in Hc.
    split; intros Hage.
    - rewrite bool_decide_true in Hc by assumption.
      destruct Hc as [(e & [=] & _)|[(st & ts & _ & [= <- <-] & -> & ->)
                                    |([=] & _)]].
      exact Hr.
    - rewrite bool_decide_false in Hc by lia.
      destruct Hc as [(e & [=] & _)|[(st & ts & [=] & _)|(_ & -> & ->)]].
      exists (fresh_status remote config server w2).2. split; [exact Hr|].
      apply fresh_status_spec. }
  rewrite Httl in Hcases.
  destruct Hcases as [(e & _ & [=] & _)|[(st & ts & _ & Hl & [= <-] & ->)
                                        |(_ & [= ->] & ->)]].
  - exists ts. split; [exact Hl|]. split; [auto|]. intros w2. apply Hlater.
  - destruct (fresh_status_spec server w) as (_ & _ & Hc & _ & Ht).
    exists (clock (fresh_status remote config server w).2).
    split; [rewrite Hc; apply lookup_insert_eq|].
    split; [auto|]. intros w2. apply Hlater.
Qed.

(** *** Dictionaries *)

Lemma dict_get_set_eq {V} k (v : V) d : dict_get k (dict_set k v d) = Some v.
Proof.
  induction d as [|[k' v'] d IH]; simpl.
  - rewrite decide_True; reflexivity.
  - destruct (decide (k = k')) as [<-|Hne]; simpl.
    + rewrite decide_True; reflexivity.
    + rewrite decide_False by assumption. exact IH.
Qed.

Lemma dict_get_set_ne {V} k k' (v : V) d :
  k ≠ k' → dict_get k' (dict_set k v d) = dict_get k' d.
Proof.
  intros Hne. induction d as [|[k0 v0] d IH]; simpl.
  - rewrite decide_False by congruence. reflexivity.
  - destruct (decide (k = k0)) as [<-|Hne0]; simpl.
    + rewrite !decide_False by congruence. reflexivity.
    + destruct (decide (k' = k0)); [reflexivity|exact IH].
Qed.

Lemma dict_set_fresh {V} k (v : V) d :
  k ∉ dict_keys d → dict_set k v d = d ++ [(k, v)].
Proof.
  unfold dict_keys. induction d as [|[k' v'] d IH]; simpl; intros Hk.
  - reflexivity.
  - apply not_elem_of_cons in Hk as [Hne Hk].
    rewrite decide_False by assumption. rewrite IH by assumption. reflexivity.
Qed.

Lemma dict_keys_set_present {V} k (v : V) d :
  k ∈ dict_keys d → dict_keys (dict_set k v d) = dict_keys d.
Proof.
  unfold dict_keys. induction d as [|[k' v'] d IH]; intros Hin.
  - apply elem_of_nil in Hin. contradiction.
  - cbn [dict_set]. destruct (decide (k = k')) as [<-|Hne]; [reflexivity|].
    cbn. f_equal. apply IH.
    apply elem_of_cons in Hin as [?|?]; [contradiction|assumption].
Qed.

Lemma dict_set_NoDup {V} k (v : V) d :
  NoDup (dict_keys d) → NoDup (dict_keys (dict_set k v d)).
Proof.
  intros Hnd. destruct (decide (k ∈ dict_keys d)) as [Hin|Hnin].
  - rewrite dict_keys_set_present by assumption. assumption.
  - rewrite dict_set_fresh by assumption. unfold dict_keys in *.
    rewrite fmap_app. apply NoDup_app. split; [assumption|]. split.
    + intros x Hx ->%list_elem_of_singleton. contradiction.
    + apply NoDup_singleton.
Qed.

(** *** The kill loop *)

(** One turn of the loop leaves the other servers' results and cache
    entries alone and only ever appends to the command log. *)
Lemma kill_step_frame results w server_id processes other :
  other ≠ server_id →
  let acc' := kill_step remote config (results, w) (server_id, processes) in
  dict_get other acc'.1 = dict_get other results ∧
  _cache acc'.2 !! cache_key other = _cache w !! cache_key other.
Proof.
  intros Hne. simpl.
  destruct (config_lookup config _) as [server|]; simpl.
  - pose proof (run_ssh_world (ServerConfig.hostname server)
                  (kill_command processes) w) as (Hc & _).
    destruct (_run_ssh_command remote config _ _ w)
      as [[[success output] rt] w1]. simpl in Hc.
    destruct success; simpl; rewrite dict_get_set_ne by congruence.
    + split; [reflexivity|]. rewrite lookup_delete_ne, Hc; [reflexivity|].
      intros Hk. apply cache_key_inj in Hk. congruence.
    + rewrite Hc. split; reflexivity.
  - rewrite dict_get_set_ne by congruence. split; reflexivity.
Qed.

Lemma kill_step_log acc item :
  ssh_log acc.2 `prefix_of` ssh_log (kill_step remote config acc item).2.
Proof.
  destruct acc as [results w], item as [server_id processes]. simpl.
  destruct (config_lookup config _) as [server|]; simpl; [|reflexivity].
  pose proof (run_ssh_world (ServerConfig.hostname server)
                (kill_command processes) w) as (_ & Hl & _).
  destruct (_run_ssh_command remote config _ _ w)
    as [[[success output] rt] w1]. simpl in Hl.
  destruct success; simpl; rewrite Hl; apply prefix_app_r; reflexivity.
Qed.

Lemma kill_loop_log items :
  ∀ acc, ssh_log acc.2
         `prefix_of` ssh_log (fold_left (kill_step remote config) items acc).2.
Proof.
  induction items as [|item items IH]; intros acc; simpl; [reflexivity|].
  etrans; [apply kill_step_log|apply IH].
Qed.

Lemma kill_loop_frame items other :
  other ∉ items.*1 →
  ∀ results w,
    let acc' := fold_left (kill_step remote config) items (results, w) in
    dict_get other acc'.1 = dict_get other results ∧
    _cache acc'.2 !! cache_key other = _cache w !! cache_key other.
Proof.
  induction items as [|[server_id processes] items IH]; intros Hnin results w.
  - split; reflexivity.
  - apply not_elem_of_cons in Hnin as [Hne Hnin].
    destruct (kill_step_frame results w server_id processes other Hne)
      as [Hr Hc].
    cbn [fold_left].
    destruct (kill_step remote config (results, w) (server_id, processes))
      as [results1 w1].
    destruct (IH Hnin results1 w1) as [Hr' Hc']. simpl in *.
    split; congruence.
Qed.

(** One turn of the loop for a configured server, seen from its own key. *)
Lemma kill_step_effect results w server_id processes server :
  config_lookup config server_id = Some server →
  let acc' := kill_step remote config (results, w) (server_id, processes) in
  kill_recorded remote config server server_id processes w
    (_cache w !! cache_key server_id) acc'.1 acc'.2 ∧
  ssh_log acc'.2
  = ssh_log w ++ [(ServerConfig.hostname server, kill_command processes)].
Proof.
  unfold kill_recorded. intros Hfind. simpl. rewrite Hfind.
  pose proof (run_ssh_world (ServerConfig.hostname server)
                (kill_command processes) w) as (Hc & Hl & _).
  destruct (_run_ssh_command remote config _ _ w)
    as [[[success output] rt] w1]. simpl in Hc, Hl.
  destruct success; simpl; rewrite dict_get_set_eq.
  - rewrite lookup_delete_eq. auto.
  - rewrite Hc. auto.
Qed.

Lemma kill_loop_spec items :
  NoDup items.*1 →
  ∀ results w server_id processes server,
    (server_id, processes) ∈ items →
    config_lookup config server_id = Some server →
    let acc' := fold_left (kill_step remote config) items (results, w) in
    ∃ before,
      _cache before !! cache_key server_id = _cache w !! cache_key server_id ∧
      ssh_log w `prefix_of` ssh_log before ∧
      (ssh_log before ++ [(ServerConfig.hostname server, kill_command processes)])
        `prefix_of` ssh_log acc'.2 ∧
      kill_recorded remote config server server_id processes before
        (_cache w !! cache_key server_id) acc'.1 acc'.2.
Proof.
  induction items as [|[sid procs] items IH];
    intros Hnd results w server_id processes server Hin Hfind.
  - apply elem_of_nil in Hin. contradiction.
  - simpl in Hnd. apply NoDup_cons in Hnd as [Hfresh Hnd].
    cbn [fold_left]. apply elem_of_cons in Hin as [[= -> ->]|Hin].
    + destruct (kill_step_effect results w sid procs server Hfind)
        as [Heff Hlog].
      pose proof (kill_loop_frame items sid Hfresh) as Hframe.
      pose proof (kill_loop_log items
                    (kill_step remote config (results, w) (sid, procs))) as Hpre.
      destruct (kill_step remote config (results, w) (sid, procs))
        as [results1 w1].
      destruct (Hframe results1 w1) as [Hr Hc]. simpl in *.
      exists w. split; [reflexivity|]. split; [reflexivity|].
      split; [rewrite <- Hlog; exact Hpre|].
      unfold kill_recorded in *.
      destruct (_run_ssh_command remote config _ _ w) as [[[success output] rt] wx].
      rewrite Hr, Hc. exact Heff.
    + assert (Hne : server_id ≠ sid).
      { intros ->. apply Hfresh. apply (list_elem_of_fmap_2 fst) in Hin. exact Hin. }
      destruct (kill_step_frame results w sid procs server_id Hne) as [_ Hc].
      pose proof (kill_step_log (results, w) (sid, procs)) as Hpre.
      destruct (kill_step remote config (results, w) (sid, procs))
        as [results1 w1]. simpl in Hc, Hpre.
      destruct (IH Hnd results1 w1 server_id processes server Hin Hfind)
        as (before & Hb & Hp1 & Hp2 & Hrec).
      exists before. rewrite <- Hc.
      split; [assumption|]. split; [etrans; eassumption|].
      split; assumption.
Qed.

(** *** The usage loop *)

Lemma usage_step_spec user acc st :
  usage_step user acc st
  = if decide (contributes user st) then
      {| user_processes := user_processes acc ++ matched user st;
         by_server := dict_set (ServerStatus.server_id st) (matched user st)
                        (by_server acc);
         used := used acc ++ [ServerStatus.server_id st] |}
    else acc.
Proof.
  unfold usage_step. fold (matched user st).
  destruct (decide (contributes user st)) as [[Hon Hm]|Hno].
  - rewrite Hon. simpl. destruct (matched user st); [contradiction|reflexivity].
  - destruct (ServerStatus.online st) eqn:Hon; simpl; [|reflexivity].
    destruct (matched user st) eqn:Hm; [reflexivity|].
    exfalso. apply Hno. split; [assumption|]. rewrite Hm. discriminate.
Qed.

(** The accumulated processes and the list of servers, for any statuses. *)
Lemma usage_fold_lists user sts :
  ∀ acc,
    let acc' := fold_left (usage_step user) sts acc in
    user_processes acc'
    = user_processes acc
      ++ concat (map (matched user) (filter (contributes user) sts)) ∧
    used acc' = used acc ++ map ServerStatus.server_id
                              (filter (contributes user) sts).
Proof.
  induction sts as [|st sts IH]; intros acc; simpl.
  - rewrite !app_nil_r. split; reflexivity.
  - destruct (IH (usage_step user acc st)) as [Hp Hu].
    rewrite Hp, Hu, usage_step_spec, filter_cons.
    destruct (decide (contributes user st)); simpl.
    + rewrite <- !app_assoc. split; reflexivity.
    + split; reflexivity.
Qed.

Lemma usage_fold_keys_NoDup user sts :
  ∀ acc,
    NoDup (dict_keys (by_server acc)) →
    NoDup (dict_keys (by_server (fold_left (usage_step user) sts acc))).
Proof.
  induction sts as [|st sts IH]; intros acc Hnd; simpl; [assumption|].
  apply IH. rewrite usage_step_spec.
  destruct (decide (contributes user st)); simpl; [|assumption].
  apply dict_set_NoDup, Hnd.
Qed.

(** With pairwise distinct server ids every assignment to the dictionary
    creates a key. *)
Lemma usage_fold_by_server user sts :
  ∀ acc,
    NoDup (map ServerStatus.server_id sts) →
    (∀ st, st ∈ sts → ServerStatus.server_id st ∉ dict_keys (by_server acc)) →
    by_server (fold_left (usage_step user) sts acc)
    = by_server acc
      ++ map (λ st, (ServerStatus.server_id st, matched user st))
           (filter (contributes user) sts).
Proof.
  induction sts as [|st sts IH]; intros acc Hnd Hfresh; simpl.
  - rewrite app_nil_r. reflexivity.
  - apply NoDup_cons in Hnd as [Hst Hnd].
    rewrite filter_cons, IH; [|assumption|].
    + rewrite usage_step_spec.
      destruct (decide (contributes user st)); simpl; [|reflexivity].
      rewrite dict_set_fresh by (apply Hfresh; left).
      rewrite <- app_assoc. reflexivity.
    + intros st' Hin. rewrite usage_step_spec.
      destruct (decide (contributes user st)); simpl;
        [|apply Hfresh; right; assumption].
      rewrite dict_set_fresh by (apply Hfresh; left).
      unfold dict_keys. rewrite fmap_app. simpl.
      intros [Hk|Hk%list_elem_of_singleton]%elem_of_app.
      * apply (Hfresh st'); [right; assumption|exact Hk].
      * apply Hst. rewrite <- Hk.
        apply (list_elem_of_fmap_2 ServerStatus.server_id), Hin.
Qed.

Lemma dict_get_elem {V} (d : pydict V) k v :
  NoDup (dict_keys d) → dict_get k d = Some v ↔ (k, v) ∈ d.
Proof.
  unfold dict_keys. induction d as [|[k' v'] d IH]; simpl; intros Hnd.
  - split; [discriminate|]. intros H. apply elem_of_nil in H. contradiction.
  - apply NoDup_cons in Hnd as [Hk Hnd].
    destruct (decide (k = k')) as [->|Hne].
    + split.
      * intros [= ->]. left.
      * intros [[= ->]|Hin]%elem_of_cons; [reflexivity|].
        exfalso. apply Hk. apply (list_elem_of_fmap_2 fst) in Hin. exact Hin.
    + rewrite IH by assumption. split.
      * intros Hin. right. assumption.
      * intros [[= -> ->]|Hin]%elem_of_cons; [contradiction|assumption].
Qed.

Lemma NoDup_map_filter {A B} (f : A → B) (P : A → Prop)
    `{∀ x, Decision (P x)} (l : list A) :
  NoDup (map f l) → NoDup (map f (filter P l)).
Proof.
  induction l as [|x l IH]; simpl; intros Hnd; [constructor|].
  apply NoDup_cons in Hnd as [Hx Hnd]. rewrite filter_cons.
  destruct (decide (P x)); simpl; [|auto].
  apply NoDup_cons. split; [|auto].
  intros Hin. apply Hx.
  apply list_elem_of_fmap in Hin as (y & -> & Hy).
  apply list_elem_of_filter in Hy as [_ Hy].
  apply (list_elem_of_fmap_2 f), Hy.
Qed.

Lemma matched_concat user sts :
  concat (map (matched user) (filter (contributes user) sts))
  = concat (map (matched user)
              (filter (λ st, ServerStatus.online st = true) sts)).
Proof.
  induction sts as [|st sts IH]; [reflexivity|].
  rewrite !filter_cons.
  destruct (decide (contributes user st)) as [[Hon Hm]|Hno].
  - rewrite decide_True by assumption. simpl. rewrite IH. reflexivity.
  - destruct (decide (ServerStatus.online st = true)) as [Hon|Hoff];
      [|exact IH].
    simpl. rewrite IH.
    destruct (matched user st) eqn:Hm; [reflexivity|].
    exfalso. apply Hno. split; [assumption|]. rewrite Hm. discriminate.
Qed.

(** The fields of a summary, for statuses with pairwise distinct ids. *)
Lemma summarize_fields user cs now :
  NoDup (map ServerStatus.server_id (ClusterStatus.servers cs)) →
  let sts := ClusterStatus.servers cs in
  let usage := summarize user cs now in
  UserUsageSummary.processes_by_server usage
  = map (λ st, (ServerStatus.server_id st, matched user st))
      (filter (contributes user) sts) ∧
  UserUsageSummary.servers_used usage
  = map ServerStatus.server_id (filter (contributes user) sts) ∧
  UserUsageSummary.total_processes usage
  = length (concat (map (matched user) (filter (contributes user) sts))) ∧
  UserUsageSummary.total_memory_used_mb usage
  = sumZ (map ProcessInfo.memory_used_mb
            (concat (map (matched user) (filter (contributes user) sts)))).
Proof.
  intros Hnd sts usage. subst usage. unfold summarize. simpl. fold sts.
  destruct (usage_fold_lists user sts
              {| user_processes := []; by_server := []; used := [] |})
    as [Hp Hu]. simpl in Hp, Hu.
  rewrite Hp, Hu, py_sum_sumZ, usage_fold_by_server; simpl; auto.
  intros st _. apply not_elem_of_nil.
Qed.

Lemma cluster_ids_NoDup server_ids w cs w1 :
  cache_ok w → unique_ids config →
  get_cluster_status remote config server_ids w = Done (cs, w1) →
  NoDup (map ServerStatus.server_id (ClusterStatus.servers cs)).
Proof.
  intros Hok Huniq H. rewrite (cluster_status_ids _ _ _ _ Hok H).
  rewrite servers_to_check_passes. apply NoDup_map_filter, Huniq.
Qed.

(** C5, as the code has it, for a configuration whose server ids are
    pairwise distinct.  A usage query that returns was computed from the
    cluster status of the same call: a process is listed under a server id
    exactly when a status of the cluster result with that id is online and
    holds the process with the asked user name; each contributing server
    has its matching processes in their original order; [servers_used]
    lists the contributing servers in the order of the cluster result; the
    memory total is the sum over the matching processes of the online
    servers; and when nothing matches the counts are zero and the lists
    empty. *)
Theorem user_usage_selection
    (user : string) (server_ids : option (list string)) (w w1 : World)
    (usage : UserUsageSummary.t) :
  reachable remote config w →
  unique_ids config →
  get_user_usage remote config user server_ids w = Done (usage, w1) →
  ∃ cs,
    get_cluster_status remote config server_ids w = Done (cs, w1) ∧
    let sts := ClusterStatus.servers cs in
    let by_server := UserUsageSummary.processes_by_server usage in
    (∀ sid p,
       (∃ ps, dict_get sid by_server = Some ps ∧ p ∈ ps) ↔
       (∃ st, st ∈ sts ∧ ServerStatus.server_id st = sid ∧
              ServerStatus.online st = true ∧
              p ∈ ServerStatus.processes st ∧ ProcessInfo.username p = user)) ∧
    (∀ st, st ∈ sts → contributes user st →
           dict_get (ServerStatus.server_id st) by_server
           = Some (filter (λ p, ProcessInfo.username p = user)
                     (ServerStatus.processes st))) ∧
    UserUsageSummary.servers_used usage
    = map ServerStatus.server_id (filter (contributes user) sts) ∧
    UserUsageSummary.total_memory_used_mb usage
    = sumZ (map ProcessInfo.memory_used_mb
              (concat (map (matched user)
                         (filter (λ st, ServerStatus.online st = true) sts)))) ∧
    ((∀ st, st ∈ sts → ¬ contributes user st) →
     UserUsageSummary.total_processes usage = 0%nat ∧
     UserUsageSummary.total_memory_used_mb usage = 0 ∧
     UserUsageSummary.servers_used usage = [] ∧
     by_server = []).
Proof.
  intros Hreach Huniq (cs & Hcs & ->)%usage_done.
  exists cs. split; [exact Hcs|]. intros sts by_server.
  pose proof (reachable_cache_ok w Hreach) as Hok.
  pose proof (cluster_ids_NoDup server_ids w cs w1 Hok Huniq Hcs) as Hnd.
  destruct (summarize_fields user cs (clock w1) Hnd)
    as (Hby & Hused & Hcount & Hmem).
  fold sts in Hby, Hused, Hcount, Hmem, Hnd. fold by_server in Hby.
  assert (Hkeys : NoDup (dict_keys by_server)).
  { rewrite Hby. unfold dict_keys. rewrite <- list_fmap_compose.
    apply (NoDup_map_filter ServerStatus.server_id), Hnd. }
  assert (Hentry : ∀ st, st ∈ sts → contributes user st →
            dict_get (ServerStatus.server_id st) by_server
            = Some (matched user st)).
  { intros st Hin Hc. apply dict_get_elem; [assumption|]. rewrite Hby.
    apply (list_elem_of_fmap_2
             (λ st, (ServerStatus.server_id st, matched user st))).
    apply list_elem_of_filter. split; assumption. }
  split; [|split; [|split; [|split]]].
  - intros sid p. split.
    + intros (ps & Hget & Hp). apply dict_get_elem in Hget; [|assumption].
      rewrite Hby in Hget.
      apply list_elem_of_fmap in Hget as (st & [= -> ->] & Hst).
      apply list_elem_of_filter in Hst as [[Hon _] Hst].
      apply list_elem_of_filter in Hp as [Hu Hp].
      exists st. auto.
    + intros (st & Hst & <- & Hon & Hp & Hu).
      assert (Hm : p ∈ matched user st)
        by (apply list_elem_of_filter; split; assumption).
      exists (matched user st). split; [|assumption].
      apply Hentry; [assumption|]. split; [assumption|].
      intros Hnil. rewrite Hnil in Hm. apply elem_of_nil in Hm. contradiction.
  - exact Hentry.
  - exact Hused.
  - rewrite Hmem, matched_concat. reflexivity.
  - intros Hnone.
    assert (Hempty : filter (contributes user) sts = []).
    { apply filter_none, Hnone. }
    rewrite Hcount, Hmem, Hused, Hby, Hempty. auto.
Qed.

Lemma sum_list_lengths {A} (ls : list (list A)) :
  length (concat ls) = sum_list (map length ls).
Proof.
  induction ls as [|l ls IH]; simpl; [reflexivity|].
  rewrite length_app, IH. reflexivity.
Qed.

(** C10, as the code has it, for a configuration whose server ids are
    pairwise distinct: in every summary that [get_user_usage] returns,
    [servers_used] is the list of keys of [processes_by_server] in the same
    order, no list of the dictionary is empty, [total_processes] is the sum
    of the lengths of the lists and [total_memory_used_mb] the sum of the
    memory of their processes. *)
Theorem usage_summary_consistent
    (user : string) (server_ids : option (list string)) (w w1 : World)
    (usage : UserUsageSummary.t) :
  reachable remote config w →
  unique_ids config →
  get_user_usage remote config user server_ids w = Done (usage, w1) →
  summary_consistent usage.
Proof.
  intros Hreach Huniq (cs & Hcs & ->)%usage_done.
  pose proof (reachable_cache_ok w Hreach) as Hok.
  pose proof (cluster_ids_NoDup server_ids w cs w1 Hok Huniq Hcs) as Hnd.
  destruct (summarize_fields user cs (clock w1) Hnd)
    as (Hby & Hused & Hcount & Hmem).
  unfold summary_consistent. rewrite Hby, Hused, Hcount, Hmem.
  set (sts := filter (contributes user) _).
  assert (Hsts : Forall (contributes user) sts).
  { apply Forall_forall. intros st Hst.
    apply list_elem_of_filter in Hst as [Hc _]. exact Hc. }
  unfold dict_keys. rewrite <- !list_fmap_compose.
  split; [reflexivity|]. split; [|split].
  - apply Forall_fmap. eapply Forall_impl; [exact Hsts|].
    intros st [_ Hm]. exact Hm.
  - rewrite sum_list_lengths. f_equal.
    change (map ?f ?l) with (f <$> l). rewrite <- !list_fmap_compose.
    reflexivity.
  - reflexivity.
Qed.

Lemma dict_keys_set_elem {V} k k' (v : V) d :
  k ∈ dict_keys (dict_set k' v d) → k = k' ∨ k ∈ dict_keys d.
Proof.
  destruct (decide (k' ∈ dict_keys d)) as [Hin|Hnin].
  - rewrite dict_keys_set_present by assumption. auto.
  - rewrite dict_set_fresh by assumption. unfold dict_keys.
    rewrite fmap_app. intros [H|H%list_elem_of_singleton]%elem_of_app; auto.
Qed.

Lemma usage_fold_keys_subset user sts :
  ∀ acc k,
    k ∈ dict_keys (by_server (fold_left (usage_step user) sts acc)) →
    k ∈ dict_keys (by_server acc) ∨ k ∈ map ServerStatus.server_id sts.
Proof.
  induction sts as [|st sts IH]; intros acc k Hk; simpl in *; [auto|].
  destruct (IH _ _ Hk) as [Hacc|Hrest]; [|right; right; exact Hrest].
  rewrite usage_step_spec in Hacc.
  destruct (decide (contributes user st)); simpl in Hacc; [|auto].
  apply dict_keys_set_elem in Hacc as [->|Hacc]; [right; left|auto].
Qed.

Lemma config_lookup_some server_id :
  server_id ∈ map ServerConfig.id (ClusterConfig.servers config) →
  ∃ server, config_lookup config server_id = Some server.
Proof.
  unfold config_lookup.
  induction (ClusterConfig.servers config) as [|s l IH]; simpl; intros Hin.
  - apply elem_of_nil in Hin. contradiction.
  - destruct (bool_decide (ServerConfig.id s = server_id)) eqn:Hs; [eauto|].
    apply IH. apply elem_of_cons in Hin as [Heq|Hin]; [|exact Hin].
    apply bool_decide_eq_false in Hs. congruence.
Qed.

(** In a reachable state every key of the usage dictionary is the id of a
    configured server, so the kill loop always finds the configuration. *)
Lemma usage_keys_configured user server_ids w usage w1 server_id :
  cache_ok w →
  get_user_usage remote config user server_ids w = Done (usage, w1) →
  server_id ∈ dict_keys (UserUsageSummary.processes_by_server usage) →
  server_id ∈ map ServerConfig.id (ClusterConfig.servers config).
Proof.
  intros Hok (cs & Hcs & ->)%usage_done Hk. unfold summarize in Hk. simpl in Hk.
  apply usage_fold_keys_subset in Hk as [Hk|Hk].
  - apply elem_of_nil in Hk. contradiction.
  - rewrite (cluster_status_ids _ _ _ _ Hok Hcs), servers_to_check_passes in Hk.
    apply list_elem_of_fmap in Hk as (s & -> & Hs).
    apply list_elem_of_filter in Hs as [_ Hs].
    apply (list_elem_of_fmap_2 ServerConfig.id), Hs.
Qed.

Lemma usage_keys_NoDup user cs now :
  NoDup (dict_keys (UserUsageSummary.processes_by_server (summarize user cs now))).
Proof. unfold summarize. simpl. apply usage_fold_keys_NoDup. constructor. Qed.

(** C7: take a confirmed kill started in a reachable state whose usage
    query returns, and any server id with matching processes.  The kill
    returns.  The configuration of the server is found, and its termination
    command, one command carrying all the matching pids, is issued in some
    state [before] of the loop in which the server's cache entry is still
    the one the usage query left.  If the runner reports success there, the
    result for the server is the message with the number of processes and
    the cache has no entry under "server_status_" + id when the call
    returns; if it reports failure, the result is the failure message with
    the runner's text and the entry is the one the usage query left. *)
Theorem kill_records_and_invalidates
    (username : string) (server_ids : option (list string)) (w w1 : World)
    (usage : UserUsageSummary.t)
    (server_id : string) (processes : list ProcessInfo.t) :
  reachable remote config w →
  get_user_usage remote config username server_ids w = Done (usage, w1) →
  (server_id, processes) ∈ UserUsageSummary.processes_by_server usage →
  ∃ results w2,
    kill_user_tasks remote config username server_ids true w
    = Done (results, w2) ∧
    ∃ server before,
      config_lookup config server_id = Some server ∧
      _cache before !! cache_key server_id = _cache w1 !! cache_key server_id ∧
      ssh_log w1 `prefix_of` ssh_log before ∧
      (ssh_log before ++ [(ServerConfig.hostname server, kill_command processes)])
        `prefix_of` ssh_log w2 ∧
      kill_recorded remote config server server_id processes before
        (_cache w1 !! cache_key server_id) results w2.
Proof.
  intros Hreach Husage Hin.
  pose proof (reachable_cache_ok w Hreach) as Hok.
  destruct (config_lookup_some server_id) as [server Hfind].
  { eapply usage_keys_configured; [exact Hok|exact Husage|].
    apply (list_elem_of_fmap_2 fst) in Hin. exact Hin. }
  assert (Hnd : NoDup (dict_keys (UserUsageSummary.processes_by_server usage))).
  { destruct (usage_done _ _ _ _ _ Husage) as (cs & _ & ->).
    apply usage_keys_NoDup. }
  rewrite (kill_of_usage _ _ _ _ _ Husage). unfold kill_listed.
  destruct (UserUsageSummary.processes_by_server usage) as [|item items] eqn:E.
  - apply elem_of_nil in Hin. contradiction.
  - destruct (kill_loop_spec (item :: items) Hnd [] w1 server_id processes
                server Hin Hfind) as (before & H).
    cbv zeta in H.
    set (r := fold_left (kill_step remote config) (item :: items) ([], w1)) in *.
    exists r.1, r.2. split; [destruct r; reflexivity|].
    exists server, before. split; [exact Hfind|exact H].
Qed.

End Engine.

(** *** The order of the results *)

Section Selection.
Variable config : ClusterConfig.t.

Lemma same_members_same_selection ids ids' :
  (∀ i : string, i ∈ ids ↔ i ∈ ids') →
  filter (passes (Some ids)) (ClusterConfig.servers config)
  = filter (passes (Some ids')) (ClusterConfig.servers config).
Proof.
  intros Hsame. apply list_filter_iff. intros s. simpl.
  rewrite Hsame. split; (intros [->|H]; [left|right]; try done).
  - destruct ids' as [|i ids']; [reflexivity|].
    exfalso. apply (not_elem_of_nil i), Hsame. left.
  - destruct ids as [|i ids]; [reflexivity|].
    exfalso. apply (not_elem_of_nil i), Hsame. left.
Qed.

(** C3, as the code has it: the servers of a result are, in configuration
    order, the configured servers whose id is in the filter, and all
    configured servers when the filter is absent or empty; none comes from
    outside the configuration; [total_servers] is their number; two filters
    with the same members, in whatever order, select the same servers; and
    whatever the order in which the replies of the hosts arrive, the poll
    returns and lists the same servers in the same order. *)
Theorem cluster_status_selection
    (remote : Remote) (server_ids : option (list string)) (w w1 : World)
    (cs : ClusterStatus.t) :
  reachable remote config w →
  get_cluster_status remote config server_ids w = Done (cs, w1) →
  let selected := filter (passes server_ids) (ClusterConfig.servers config) in
  map ServerStatus.server_id (ClusterStatus.servers cs)
  = map ServerConfig.id selected ∧
  ClusterStatus.total_servers cs = length selected ∧
  sublist selected (ClusterConfig.servers config) ∧
  (∀ st, st ∈ ClusterStatus.servers cs →
         ∃ s, s ∈ ClusterConfig.servers config ∧ passes server_ids s ∧
              ServerConfig.id s = ServerStatus.server_id st) ∧
  (∀ ids ids' cs' w',
     server_ids = Some ids →
     (∀ i, i ∈ ids ↔ i ∈ ids') →
     get_cluster_status remote config (Some ids') w = Done (cs', w') →
     map ServerStatus.server_id (ClusterStatus.servers cs')
     = map ServerStatus.server_id (ClusterStatus.servers cs)) ∧
  (∀ order,
     ∃ cs' w',
       get_cluster_status {| answer := answer remote; arrival := order |}
         config server_ids w = Done (cs', w') ∧
       map ServerStatus.server_id (ClusterStatus.servers cs')
       = map ServerStatus.server_id (ClusterStatus.servers cs) ∧
       ClusterStatus.total_servers cs' = ClusterStatus.total_servers cs).
Proof.
  intros Hreach Hcs selected.
  pose proof (reachable_cache_ok remote config w Hreach) as Hok.
  assert (Hids : ∀ r f c v,
    get_cluster_status r config f w = Done (c, v) →
    map ServerStatus.server_id (ClusterStatus.servers c)
    = map ServerConfig.id (filter (passes f) (ClusterConfig.servers config))).
  { intros r f c v H. rewrite (cluster_status_ids r config f w c v Hok H).
    rewrite servers_to_check_passes. reflexivity. }
  assert (Hlen : ∀ r f c v,
    get_cluster_status r config f w = Done (c, v) →
    ClusterStatus.total_servers c = length (ClusterStatus.servers c)).
  { intros r f c v (rs & _ & ->)%cluster_status_done. reflexivity. }
  assert (Htotal : ClusterStatus.total_servers cs = length selected).
  { rewrite (Hlen _ _ _ _ Hcs), <- (length_map ServerStatus.server_id).
    rewrite (Hids _ _ _ _ Hcs), length_map. reflexivity. }
  split; [apply (Hids _ _ _ _ Hcs)|]. split; [exact Htotal|].
  split; [apply sublist_filter|]. split; [|split].
  - intros st Hst.
    apply (list_elem_of_fmap_2 ServerStatus.server_id) in Hst.
    change (ServerStatus.server_id <$> ClusterStatus.servers cs)
      with (map ServerStatus.server_id (ClusterStatus.servers cs)) in Hst.
    rewrite (Hids _ _ _ _ Hcs) in Hst.
    apply list_elem_of_fmap in Hst as (s & Heq & Hs).
    apply list_elem_of_filter in Hs as [Hp Hs]. eauto.
  - intros ids ids' cs' w' -> Hsame Hcs'.
    rewrite (Hids _ _ _ _ Hcs), (Hids _ _ _ _ Hcs').
    rewrite (same_members_same_selection ids ids' Hsame). reflexivity.
  - intros order.
    set (remote' := {| answer := answer remote; arrival := order |}).
    destruct (cluster_status_returns remote' config server_ids w)
      as (cs' & w' & Hcs').
    { apply (cluster_status_can_return remote config server_ids w cs w1 Hcs). }
    exists cs', w'. split; [exact Hcs'|].
    assert (Hsame : map ServerStatus.server_id (ClusterStatus.servers cs')
                    = map ServerStatus.server_id (ClusterStatus.servers cs)).
    { rewrite (Hids _ _ _ _ Hcs), (Hids _ _ _ _ Hcs'). reflexivity. }
    split; [exact Hsame|].
    rewrite (Hlen _ _ _ _ Hcs), (Hlen _ _ _ _ Hcs').
    rewrite <- (length_map ServerStatus.server_id), Hsame, length_map.
    reflexivity.
Qed.

End Selection.

(** * The engine on concrete clusters *)

(** ** The test fixture: one server online, one refusing the connection *)

Example fixture_cluster_totals :
  ∃ cs w,
    get_cluster_status fixture_remote fixture_config None (init 0)
    = Done (cs, w) ∧
    ClusterStatus.total_servers cs = 2%nat ∧
    ClusterStatus.online_servers cs = 1 ∧
    ClusterStatus.total_gpus cs = 2 ∧
    map ServerStatus.error_message (ClusterStatus.servers cs)
    = [None;
       Some "ssh: connect to host test2.example.com port 22: Connection refused"] ∧
    clock w = 1.
Proof. eexists _, _. split; [vm_compute; reflexivity|]. vm_compute. auto 10. Qed.

(** The reply of the second server is seen first, and the result is in the
    order of the configuration all the same. *)
Example fixture_reversed_order :
  ∃ cs w,
    get_cluster_status fixture_reversed fixture_config None (init 0)
    = Done (cs, w) ∧
    map ServerStatus.server_id (ClusterStatus.servers cs)
    = ["test-gpu01"; "test-gpu02"] ∧
    map ServerStatus.last_updated (ClusterStatus.servers cs) = [1; 0].
Proof. eexists _, _. split; [vm_compute; reflexivity|]. vm_compute. auto. Qed.

Example fixture_user_usage :
  ∃ w,
    get_user_usage fixture_remote fixture_config "testuser" None (init 0)
    = Done (UserUsageSummary.mk "testuser" 2 6144 ["test-gpu01"]
              [("test-gpu01", testuser_processes)] 1, w).
Proof. eexists. vm_compute. reflexivity. Qed.

Example fixture_kill :
  ∃ w,
    kill_user_tasks fixture_remote fixture_config "testuser" None true (init 0)
    = Done ([("test-gpu01", "Killed 2 processes")], w) ∧
    last (ssh_log w) = Some ("test1.example.com", "kill -9 12345 67890") ∧
    _cache w !! cache_key "test-gpu01" = None ∧
    is_Some (_cache w !! cache_key "test-gpu02").
Proof. eexists. split; [vm_compute; reflexivity|]. vm_compute. eauto. Qed.

(** With no permit a poll of the fixture never returns; a poll that selects
    no server does. *)
Example starved_polls :
  get_cluster_status fixture_remote starved_config None (init 0) = Blocked ∧
  get_user_usage fixture_remote starved_config "testuser" None (init 0)
  = Blocked ∧
  kill_user_tasks fixture_remote starved_config "testuser" None true (init 0)
  = Blocked ∧
  _get_server_status fixture_remote starved_config fixture_first (init 0)
  = Blocked ∧
  get_cluster_status fixture_remote starved_config (Some ["gpu99"]) (init 0)
  = Done (ClusterStatus.mk [] 0 0 0 0, init 0).
Proof. vm_compute. auto 10. Qed.

(** Two servers under one id, with the default settings: both tasks test
    the cache before either has stored its status, so both hosts are
    queried and the result holds the status of each. *)
Example twin_hosts_both_queried :
  ∃ cs w,
    get_cluster_status twin_remote twin_cached_config None (init 0)
    = Done (cs, w) ∧
    map ServerStatus.hostname (ClusterStatus.servers cs)
    = ["gpu01-a.cluster.local"; "gpu01-b.cluster.local"] ∧
    map fst (ssh_log w) = ["gpu01-a.cluster.local"; "gpu01-b.cluster.local"].
Proof. eexists _, _. split; [vm_compute; reflexivity|]. vm_compute. auto. Qed.

(** A [cache_ttl] given as text makes the second resolution raise, and the
    aggregator puts its substitute in the result. *)
Example text_ttl_substitute :
  ∃ cs1 w1 cs2 w2,
    get_cluster_status drifting_remote text_ttl_config None (init 0)
    = Done (cs1, w1) ∧
    get_cluster_status drifting_remote text_ttl_config None w1
    = Done (cs2, w2) ∧
    ClusterStatus.servers cs2
    = [ServerStatus.mk "gpu01" "gpu01.cluster.local" false
         (Some "'<' not supported between instances of 'float' and 'str'")
         [] [] 0 None].
Proof.
  eexists _, _, _, _. split; [vm_compute; reflexivity|].
  split; vm_compute; reflexivity.
Qed.

(** ** Where the stated claims fail *)

Lemma drifting_first_poll :
  ∃ cs,
    get_cluster_status drifting_remote default_config None (init 0)
    = Done (cs, drifting_first.2).
Proof. eexists. vm_compute. reflexivity. Qed.

Lemma drifting_reachable d :
  reachable drifting_remote default_config (tick d drifting_first.2).
Proof.
  destruct drifting_first_poll as [cs Hcs].
  apply reach_tick. eapply reach_cluster; [apply reach_init|exact Hcs].
Qed.

(** The entry stored at time 0 serves a call at time 29 and is stale for a
    call at time 31, two seconds later: the server is queried again and
    answers differently. *)
Example drifting_timeline :
  let w29 := tick 29 drifting_first.2 in
  _get_server_status drifting_remote default_config gpu01 w29
  = Done (Return drifting_first.1, w29) ∧
  (∃ st w,
     _get_server_status drifting_remote default_config gpu01 (tick 2 w29)
     = Done (Return st, w) ∧
     ServerStatus.gpus st
     = [GPUInfo.mk 0 "Tesla V100" 10 100 16000 15900 None None] ∧
     length (ssh_log w) = 2%nat) ∧
  ServerStatus.gpus drifting_first.1
  = [GPUInfo.mk 0 "Tesla V100" 85 15000 16000 1000 None None].
Proof.
  cbv zeta. split; [vm_compute; reflexivity|]. split; [|vm_compute; reflexivity].
  eexists _, _. split; [vm_compute; reflexivity|]. vm_compute. auto.
Qed.

(** C2 as stated fails: a call served from an old entry can be followed,
    less than [cache_ttl] later, by a call that finds the entry stale. *)
Lemma calls_within_ttl_can_differ :
  ¬ calls_within_ttl_agree drifting_remote default_config.
Proof.
  intros H.
  pose (w29 := tick 29 drifting_first.2).
  specialize (H gpu01 w29 30 2%N drifting_first.1 w29 (drifting_reachable 29)).
  assert (Hcontra :
    _get_server_status drifting_remote default_config gpu01 (tick 2 w29)
    = Done (Return drifting_first.1, tick 2 w29)).
  { apply H; vm_compute; reflexivity. }
  vm_compute in Hcontra. discriminate Hcontra.
Qed.

Example empty_filter_result :
  ∃ cs w,
    get_cluster_status fixture_remote fixture_config (Some []) (init 0)
    = Done (cs, w) ∧
    map ServerStatus.server_id (ClusterStatus.servers cs)
    = ["test-gpu01"; "test-gpu02"] ∧
    ClusterStatus.total_servers cs = 2%nat.
Proof. eexists _, _. split; [vm_compute; reflexivity|]. vm_compute. auto. Qed.

(** C3 as stated fails: with the empty filter no configured id is a member,
    yet both servers of the fixture are resolved. *)
Lemma empty_filter_selects_all :
  ¬ filter_selects_members fixture_remote fixture_config.
Proof.
  intros H. destruct empty_filter_result as (cs & w & Hcs & Hids & _).
  specialize (H [] (init 0) cs w (reach_init _ _ 0) Hcs).
  rewrite Hids in H. vm_compute in H. discriminate H.
Qed.

(** What the usage query returns for two servers that share an id. *)
Example twin_usage :
  ∃ w,
    get_user_usage twin_remote twin_config "alice" None (init 0)
    = Done (UserUsageSummary.mk "alice" 2 3072 ["gpu01"; "gpu01"]
              [("gpu01", [ProcessInfo.mk 200 "alice" 0 1024 "python # Memory"])]
              0, w).
Proof. eexists. vm_compute. reflexivity. Qed.

Example twin_status :
  ∃ cs w,
    get_cluster_status twin_remote twin_config None (init 0) = Done (cs, w) ∧
    twin_status_a ∈ ClusterStatus.servers cs.
Proof. eexists _, _. split; [vm_compute; reflexivity|]. left. Qed.

(** C5 as stated fails: with two servers under one id the process of alice
    on the first, online, server is not listed. *)
Lemma shared_id_hides_processes :
  ¬ usage_lists_all_matching twin_remote twin_config.
Proof.
  intros H. destruct twin_usage as [w Husage].
  destruct (usage_done _ _ _ _ _ _ _ Husage) as (cs & Hcs & _).
  assert (Hin : twin_status_a ∈ ClusterStatus.servers cs).
  { destruct twin_status as (cs' & w' & Hcs' & Hin).
    rewrite Hcs in Hcs'. injection Hcs' as -> _. exact Hin. }
  destruct (H "alice" None (init 0) cs _ w alice_on_a (reach_init _ _ 0)
              Hcs Husage) as [_ Hback].
  destruct Hback as (sid & ps & Hget & Hp).
  - exists twin_status_a. split; [exact Hin|].
    split; [reflexivity|]. split; [left|reflexivity].
  - simpl in Hget.
    destruct (decide (sid = "gpu01")); [|discriminate Hget].
    injection Hget as <-. apply list_elem_of_singleton in Hp.
    discriminate Hp.
Qed.

(** C6 as stated fails: exit status 0 with an output that does not decode
    is reported as a failure. *)
Lemma zero_exit_can_fail :
  ¬ zero_exit_succeeds garbled_remote default_config.
Proof.
  intros H.
  specialize (H "gpu01.cluster.local" status_command (init 0) _ _ eq_refl).
  vm_compute in H. discriminate H.
Qed.

Example garbled_result :
  (_run_ssh_command garbled_remote default_config "gpu01.cluster.local"
     status_command (init 0)).1
  = (false, garbled_message, 0).
Proof. vm_compute. reflexivity. Qed.

(** C10 as stated fails: with two servers under one id [servers_used] has
    two entries and the dictionary one key. *)
Lemma shared_id_breaks_summary :
  ¬ summaries_consistent twin_remote twin_config.
Proof.
  intros H. destruct twin_usage as [w Husage].
  destruct (H "alice" None (init 0) _ w (reach_init _ _ 0) Husage) as [Hkeys _].
  vm_compute in Hkeys. discriminate Hkeys.
Qed.

(** ** The theorems at concrete inputs *)

Lemma fixture_unique_ids : unique_ids fixture_config.
Proof.
  unfold unique_ids. simpl.
  apply NoDup_cons. split; [|apply NoDup_singleton].
  intros H%list_elem_of_singleton. discriminate H.
Defined.

Lemma cluster_totals_witness :
  ∃ cs w1,
    get_cluster_status fixture_remote fixture_config None (init 0)
    = Done (cs, w1) ∧
    let online := filter (λ s, ServerStatus.online s = true)
                    (ClusterStatus.servers cs) in
    ClusterStatus.total_gpus cs
    = sumZ (map (λ s, Z.of_nat (length (ServerStatus.gpus s))) online) ∧
    ClusterStatus.total_gpus cs
    = sumZ (map gpu_contribution (ClusterStatus.servers cs)) ∧
    ClusterStatus.online_servers cs = Z.of_nat (length online).
Proof.
  eexists _, _. split; [vm_compute; reflexivity|].
  eapply (cluster_totals fixture_remote fixture_config None (init 0)).
  vm_compute. reflexivity.
Defined.

Lemma cache_freshness_window_witness :
  setting default_config "cache_ttl" (PyNum 30) = PyNum 30 ∧
  _get_server_status drifting_remote default_config gpu01 (init 0)
  = Done (Return drifting_first.1, drifting_first.2) ∧
  ∃ stored_at,
    _cache drifting_first.2 !! cache_key (ServerConfig.id gpu01)
    = Some (drifting_first.1, stored_at) ∧
    (drifting_first.2 = init 0 ∨
     stored_at = clock drifting_first.2 ∧ clock (init 0) ≤ clock drifting_first.2) ∧
    ∀ w2,
      _cache w2 !! cache_key (ServerConfig.id gpu01)
      = Some (drifting_first.1, stored_at) →
      (clock w2 - stored_at < 30 →
       _get_server_status drifting_remote default_config gpu01 w2
       = Done (Return drifting_first.1, w2)) ∧
      (30 ≤ clock w2 - stored_at →
       ∃ w3,
         _get_server_status drifting_remote default_config gpu01 w2
         = Done (Return (fresh_status drifting_remote default_config gpu01 w2).1,
                 w3) ∧
         ssh_log w3
         = ssh_log w2 ++ [(ServerConfig.hostname gpu01, status_command)]).
Proof.
  split; [vm_compute; reflexivity|]. split; [vm_compute; reflexivity|].
  apply (cache_freshness_window drifting_remote default_config gpu01 (init 0)
           drifting_first.2 30 drifting_first.1);
    vm_compute; reflexivity.
Defined.

Lemma cluster_status_selection_witness :
  reachable fixture_remote fixture_config (init 0) ∧
  let server_ids := Some ["gpu99"; "test-gpu02"] in
  ∃ cs w1,
    get_cluster_status fixture_remote fixture_config server_ids (init 0)
    = Done (cs, w1) ∧
    let selected := filter (passes server_ids)
                      (ClusterConfig.servers fixture_config) in
    map ServerStatus.server_id (ClusterStatus.servers cs)
    = map ServerConfig.id selected ∧
    ClusterStatus.total_servers cs = length selected ∧
    sublist selected (ClusterConfig.servers fixture_config) ∧
    (∀ st, st ∈ ClusterStatus.servers cs →
           ∃ s, s ∈ ClusterConfig.servers fixture_config ∧
                passes server_ids s ∧
                ServerConfig.id s = ServerStatus.server_id st) ∧
    (∀ ids ids' cs' w',
       server_ids = Some ids →
       (∀ i, i ∈ ids ↔ i ∈ ids') →
       get_cluster_status fixture_remote fixture_config (Some ids') (init 0)
       = Done (cs', w') →
       map ServerStatus.server_id (ClusterStatus.servers cs')
       = map ServerStatus.server_id (ClusterStatus.servers cs)) ∧
    (∀ order,
       ∃ cs' w',
         get_cluster_status
           {| answer := answer fixture_remote; arrival := order |}
           fixture_config server_ids (init 0) = Done (cs', w') ∧
         map ServerStatus.server_id (ClusterStatus.servers cs')
         = map ServerStatus.server_id (ClusterStatus.servers cs) ∧
         ClusterStatus.total_servers cs' = ClusterStatus.total_servers cs).
Proof.
  split; [apply reach_init|]. cbv zeta.
  eexists _, _. split; [vm_compute; reflexivity|].
  eapply (cluster_status_selection fixture_config fixture_remote
            (Some ["gpu99"; "test-gpu02"]) (init 0)).
  - apply reach_init.
  - vm_compute. reflexivity.
Defined.

Lemma user_usage_selection_witness :
  reachable fixture_remote fixture_config (init 0) ∧
  unique_ids fixture_config ∧
  let user := "testuser" in
  ∃ usage w1,
    get_user_usage fixture_remote fixture_config user None (init 0)
    = Done (usage, w1) ∧
    ∃ cs,
      get_cluster_status fixture_remote fixture_config None (init 0)
      = Done (cs, w1) ∧
      let sts := ClusterStatus.servers cs in
      let by_server := UserUsageSummary.processes_by_server usage in
      (∀ sid p,
         (∃ ps, dict_get sid by_server = Some ps ∧ p ∈ ps) ↔
         (∃ st, st ∈ sts ∧ ServerStatus.server_id st = sid ∧
                ServerStatus.online st = true ∧
                p ∈ ServerStatus.processes st ∧ ProcessInfo.username p = user)) ∧
      (∀ st, st ∈ sts → contributes user st →
             dict_get (ServerStatus.server_id st) by_server
             = Some (filter (λ p, ProcessInfo.username p = user)
                       (ServerStatus.processes st))) ∧
      UserUsageSummary.servers_used usage
      = map ServerStatus.server_id (filter (contributes user) sts) ∧
      UserUsageSummary.total_memory_used_mb usage
      = sumZ (map ProcessInfo.memory_used_mb
                (concat (map (matched user)
                           (filter (λ st, ServerStatus.online st = true) sts)))) ∧
      ((∀ st, st ∈ sts → ¬ contributes user st) →
       UserUsageSummary.total_processes usage = 0%nat ∧
       UserUsageSummary.total_memory_used_mb usage = 0 ∧
       UserUsageSummary.servers_used usage = [] ∧
       by_server = []).
Proof.
  split; [apply reach_init|]. split; [exact fixture_unique_ids|]. cbv zeta.
  eexists _, _. split; [vm_compute; reflexivity|].
  eapply (user_usage_selection fixture_remote fixture_config "testuser" None
           (init 0)).
  - apply reach_init.
  - exact fixture_unique_ids.
  - vm_compute. reflexivity.
Defined.

Lemma kill_records_and_invalidates_witness :
  reachable fixture_remote fixture_config (init 0) ∧
  ∃ usage w1,
    get_user_usage fixture_remote fixture_config "testuser" None (init 0)
    = Done (usage, w1) ∧
    ("test-gpu01", testuser_processes)
      ∈ UserUsageSummary.processes_by_server usage ∧
    ∃ results w2,
      kill_user_tasks fixture_remote fixture_config "testuser" None true (init 0)
      = Done (results, w2) ∧
      ∃ server before,
        config_lookup fixture_config "test-gpu01" = Some server ∧
        _cache before !! cache_key "test-gpu01"
        = _cache w1 !! cache_key "test-gpu01" ∧
        ssh_log w1 `prefix_of` ssh_log before ∧
        (ssh_log before
           ++ [(ServerConfig.hostname server, kill_command testuser_processes)])
          `prefix_of` ssh_log w2 ∧
        kill_recorded fixture_remote fixture_config server "test-gpu01"
          testuser_processes before (_cache w1 !! cache_key "test-gpu01")
          results w2.
Proof.
  split; [apply reach_init|].
  eexists _, _. split; [vm_compute; reflexivity|]. split; [left|].
  eapply (kill_records_and_invalidates fixture_remote fixture_config "testuser"
           None (init 0)).
  - apply reach_init.
  - vm_compute. reflexivity.
  - left.
Defined.

Lemma text_ttl_reachable :
  ∃ cs w,
    get_cluster_status drifting_remote text_ttl_config None (init 0)
    = Done (cs, w) ∧
    reachable drifting_remote text_ttl_config w.
Proof.
  eexists _, _. split; [vm_compute; reflexivity|].
  eapply (reach_cluster _ _ None (init 0)); [apply reach_init|].
  vm_compute. reflexivity.
Defined.

Lemma engine_statuses_well_shaped_witness :
  ∃ cs w,
    get_cluster_status drifting_remote text_ttl_config None (init 0)
    = Done (cs, w) ∧
    reachable drifting_remote text_ttl_config w ∧
    (∀ server st w1,
       _get_server_status drifting_remote text_ttl_config server w
       = Done (Return st, w1) →
       status_ok st) ∧
    (∀ now server msg, status_ok (valid_status now server (Raise msg))) ∧
    (∀ server_ids cs' w1,
       get_cluster_status drifting_remote text_ttl_config server_ids w
       = Done (cs', w1) →
       Forall status_ok (ClusterStatus.servers cs')).
Proof.
  destruct text_ttl_reachable as (cs & w & Hcs & Hreach).
  exists cs, w. split; [exact Hcs|]. split; [exact Hreach|].
  apply (engine_statuses_well_shaped drifting_remote text_ttl_config w Hreach).
Defined.

Lemma usage_summary_consistent_witness :
  reachable fixture_remote fixture_config (init 0) ∧
  unique_ids fixture_config ∧
  ∃ usage w1,
    get_user_usage fixture_remote fixture_config "testuser" None (init 0)
    = Done (usage, w1) ∧
    summary_consistent usage.
Proof.
  split; [apply reach_init|]. split; [exact fixture_unique_ids|].
  eexists _, _. split; [vm_compute; reflexivity|].
  eapply (usage_summary_consistent fixture_remote fixture_config "testuser" None
           (init 0)).
  - apply reach_init.
  - exact fixture_unique_ids.
  - vm_compute. reflexivity.
Defined.

(** * Further properties of the parser *)

Lemma sapp_cons x (a b : string) : String x a +:+ b = String x (a +:+ b).
Proof. reflexivity. Qed.

Lemma sapp_nil_l (a : string) : "" +:+ a = a.
Proof. reflexivity. Qed.

Lemma sapp_assoc (a b c : string) : (a +:+ b) +:+ c = a +:+ (b +:+ c).
Proof.
  induction a as [|x a IH]; [reflexivity|]. rewrite !sapp_cons, IH. reflexivity.
Qed.

Lemma sapp_nil_r (a : string) : a +:+ "" = a.
Proof.
  induction a as [|x a IH]; [reflexivity|]. rewrite sapp_cons, IH. reflexivity.
Qed.

Lemma rep_greedy_sound {R} cl (k : string → string → option R) s :
  ∀ least taken r,
    rep_greedy cl k least taken s = Some r →
    ∃ more rest,
      k (taken +:+ more) rest = Some r ∧
      (least ≤ String.length more)%nat ∧
      all_chars (in_class cl) more = true ∧
      s = more +:+ rest.
Proof.
  assert (Hstop : ∀ least taken s r,
            rep_stop k least taken s = Some r →
            ∃ more rest, k (taken +:+ more) rest = Some r ∧
              (least ≤ String.length more)%nat ∧
              all_chars (in_class cl) more = true ∧
              s = more +:+ rest).
  { intros least taken s' r. unfold rep_stop.
    destruct least; [|discriminate]. intros Hk.
    exists "", s'. rewrite sapp_nil_r. repeat split; auto. }
  induction s as [|c s IH]; intros least taken r H; simpl in H.
  - apply Hstop, H.
  - destruct (in_class cl c) eqn:Hc; [|apply Hstop, H].
    destruct (rep_greedy cl k (pred least) (taken +:+ String c "") s)
      as [r'|] eqn:Hrec; [|apply Hstop, H].
    injection H as ->.
    apply IH in Hrec as (more & rest & Hk & Hlen & Hall & ->).
    exists (String c more), rest.
    rewrite sapp_assoc, sapp_cons, sapp_nil_l in Hk.
    split; [exact Hk|]. simpl. rewrite Hc, Hall.
    split; [lia|]. split; reflexivity.
Qed.

Lemma rep_lazy_sound {R} cl (k : string → string → option R) s :
  ∀ least taken r,
    rep_lazy cl k least taken s = Some r →
    ∃ more rest,
      k (taken +:+ more) rest = Some r ∧
      (least ≤ String.length more)%nat ∧
      all_chars (in_class cl) more = true ∧
      s = more +:+ rest.
Proof.
  assert (Hstop : ∀ least taken s r,
            rep_stop k least taken s = Some r →
            ∃ more rest, k (taken +:+ more) rest = Some r ∧
              (least ≤ String.length more)%nat ∧
              all_chars (in_class cl) more = true ∧
              s = more +:+ rest).
  { intros least taken s' r. unfold rep_stop.
    destruct least; [|discriminate]. intros Hk.
    exists "", s'. rewrite sapp_nil_r. repeat split; auto. }
  induction s as [|c s IH]; intros least taken r H; simpl in H.
  - destruct (rep_stop k least taken "") as [r'|] eqn:Hk; [|discriminate].
    injection H as ->. apply Hstop, Hk.
  - destruct (rep_stop k least taken (String c s)) as [r'|] eqn:Hk.
    { injection H as ->. apply Hstop, Hk. }
    destruct (in_class cl c) eqn:Hc; [|discriminate].
    apply IH in H as (more & rest & Hk' & Hlen & Hall & ->).
    exists (String c more), rest.
    rewrite sapp_assoc, sapp_cons, sapp_nil_l in Hk'.
    split; [exact Hk'|]. simpl. rewrite Hc, Hall.
    split; [lia|]. split; reflexivity.
Qed.

Lemma within_suffix c g s : within g s → within g (String c s).
Proof. intros (u & v & ->). exists (String c u), v. reflexivity. Qed.

Lemma within_after more g rest : within g rest → within g (more +:+ rest).
Proof.
  intros (u & v & ->). exists (more +:+ u), v. rewrite sapp_assoc. reflexivity.
Qed.

Lemma within_trans a b c : within a b → within b c → within a c.
Proof.
  intros (u & v & ->) (u' & v' & ->).
  exists (u' +:+ u), (v +:+ v'). rewrite !sapp_assoc. reflexivity.
Qed.

(** Whatever a pattern of the fragment matches, each of its groups is a
    piece of the text, holds characters of the group's class only, and at
    least as many as the repetition asks for. *)
Lemma match_here_captures re :
  ∀ caps s groups,
    match_here re caps s = Some groups →
    ∃ news, groups = caps ++ news ∧
            Forall2 group_ok (capture_specs re) news ∧
            Forall (λ g, within g s) news.
Proof.
  induction re as [|a re IH]; intros caps s groups H; simpl in H.
  - injection H as <-. exists []. rewrite app_nil_r.
    split; [reflexivity|]. split; constructor.
  - destruct a as [c|cl least greedy capture].
    + destruct s as [|c' s]; [discriminate|].
      destruct (Ascii.eqb c c'); [|discriminate]. simpl.
      apply IH in H as (news & -> & Hok & Hin). exists news.
      split; [reflexivity|]. split; [exact Hok|].
      eapply Forall_impl; [exact Hin|]. intros g. apply within_suffix.
    + assert (Hk : ∃ more rest,
                match_here re (if capture then caps ++ [more] else caps) rest
                = Some groups ∧
                (least ≤ String.length more)%nat ∧
                all_chars (in_class cl) more = true ∧
                s = more +:+ rest).
      { destruct greedy.
        - apply rep_greedy_sound in H as (more & rest & Hk & Hl & Ha & Hs).
          exists more, rest. auto.
        - apply rep_lazy_sound in H as (more & rest & Hk & Hl & Ha & Hs).
          exists more, rest. auto. }
      destruct Hk as (more & rest & Hk & Hl & Ha & ->).
      apply IH in Hk as (news & -> & Hnews & Hin). simpl.
      assert (Hin' : Forall (λ g, within g (more +:+ rest)) news).
      { eapply Forall_impl; [exact Hin|]. intros g. apply within_after. }
      destruct capture.
      * exists (more :: news). rewrite <- app_assoc. split; [reflexivity|].
        split; [constructor; [split; assumption|assumption]|].
        constructor; [|exact Hin']. exists "", rest. reflexivity.
      * exists news. auto.
Qed.

Lemma re_search_captures re s groups :
  re_search re s = Some groups →
  Forall2 group_ok (capture_specs re) groups ∧ Forall (λ g, within g s) groups.
Proof.
  induction s as [|c s IH]; simpl.
  - destruct (match_here re [] "") as [g|] eqn:Hm; [|discriminate].
    intros [= <-]. apply match_here_captures in Hm as (news & -> & H). exact H.
  - destruct (match_here re [] (String c s)) as [g|] eqn:Hm.
    + intros [= <-]. apply match_here_captures in Hm as (news & -> & H).
      exact H.
    + intros H. apply IH in H as [Hok Hin]. split; [exact Hok|].
      eapply Forall_impl; [exact Hin|]. intros g. apply within_suffix.
Qed.

Lemma digits_value_digits s :
  ∀ acc, 0 ≤ acc → all_chars is_digit s = true →
         ∃ v, digits_value acc s = Some v ∧ 0 ≤ v.
Proof.
  induction s as [|c s IH]; intros acc Hacc Hall; simpl in *.
  - eauto.
  - apply andb_true_iff in Hall as [Hc Hall]. rewrite Hc.
    apply IH; [|assumption].
    unfold is_digit, in_range in Hc. apply andb_true_iff in Hc as [Hlo _].
    apply N.leb_le in Hlo. lia.
Qed.

(** On a group captured by [(\d+)], [int] raises exactly when the group
    has more than [max_str_digits] digits, and its value is not negative. *)
Lemma py_int_group g :
  group_ok (Digit, 1%nat) g →
  if (max_str_digits <? Z.of_nat (String.length g)) then py_int g = None
  else ∃ v, py_int g = Some v ∧ 0 ≤ v.
Proof.
  intros [Hlen Hall]. unfold py_int. simpl in *.
  destruct g as [|c g]; [simpl in Hlen; lia|]. simpl is_empty. cbv iota.
  destruct (max_str_digits <? Z.of_nat (String.length (String c g))); [reflexivity|].
  apply digits_value_digits; [lia|assumption].
Qed.

Lemma py_int_nonneg g v :
  group_ok (Digit, 1%nat) g → py_int g = Some v → 0 ≤ v.
Proof.
  intros Hg Hv. apply py_int_group in Hg.
  destruct (max_str_digits <? Z.of_nat (String.length g)); [congruence|].
  destruct Hg as (v' & Hv' & Hpos). congruence.
Qed.

(** *** Runs of digits *)

Lemma digit_runs_cons c s :
  digit_runs (String c s)
  = if is_digit c
    then ((digit_runs s).1 + 1, Z.max ((digit_runs s).1 + 1) (digit_runs s).2)
    else (0, (digit_runs s).2).
Proof. simpl. destruct (digit_runs s). reflexivity. Qed.

Lemma digit_runs_bounds s : 0 ≤ (digit_runs s).1 ≤ (digit_runs s).2.
Proof.
  induction s as [|c s IH]; [simpl; lia|]. rewrite digit_runs_cons.
  destruct (is_digit c); simpl; lia.
Qed.

Lemma leading_digits_all g v :
  all_chars is_digit g = true →
  Z.of_nat (String.length g) ≤ (digit_runs (g +:+ v)).1.
Proof.
  induction g as [|c g IH].
  - intros _. rewrite sapp_nil_l. pose proof (digit_runs_bounds v). simpl. lia.
  - intros [Hc Hg]%andb_true_iff. rewrite sapp_cons, digit_runs_cons, Hc.
    specialize (IH Hg). cbn [String.length fst]. lia.
Qed.

Lemma digit_runs_app x v :
  (digit_runs x).1 ≤ (digit_runs (x +:+ v)).1 ∧
  (digit_runs x).2 ≤ (digit_runs (x +:+ v)).2.
Proof.
  induction x as [|c x IH].
  - rewrite sapp_nil_l. pose proof (digit_runs_bounds v). simpl. lia.
  - rewrite sapp_cons, !digit_runs_cons. destruct (is_digit c); simpl; lia.
Qed.

Lemma longest_run_app_l u x :
  longest_digit_run x ≤ longest_digit_run (u +:+ x).
Proof.
  unfold longest_digit_run. induction u as [|c u IH]; [rewrite sapp_nil_l; lia|].
  rewrite sapp_cons, digit_runs_cons. destruct (is_digit c); simpl; lia.
Qed.

Lemma longest_run_within g s :
  within g s → longest_digit_run g ≤ longest_digit_run s.
Proof.
  intros (u & v & ->).
  pose proof (digit_runs_app g v) as [_ H1].
  pose proof (longest_run_app_l u (g +:+ v)).
  unfold longest_digit_run in *. lia.
Qed.

(** A group of digits taken from a text is no longer than the longest run
    of digits of the text. *)
Lemma digit_group_short g s :
  group_ok (Digit, 1%nat) g → within g s →
  Z.of_nat (String.length g) ≤ longest_digit_run s.
Proof.
  intros [_ Hall] Hin. simpl in Hall.
  pose proof (leading_digits_all g "" Hall) as H1. rewrite sapp_nil_r in H1.
  pose proof (digit_runs_bounds g).
  pose proof (longest_run_within g s Hin). unfold longest_digit_run in *. lia.
Qed.

Lemma py_int_short g s :
  group_ok (Digit, 1%nat) g → within g s →
  longest_digit_run s ≤ max_str_digits →
  ∃ v, py_int g = Some v ∧ 0 ≤ v.
Proof.
  intros Hg Hin Hshort. pose proof (digit_group_short g s Hg Hin) as Hlen.
  apply py_int_group in Hg.
  destruct (max_str_digits <? Z.of_nat (String.length g)) eqn:Hlt; [|exact Hg].
  apply Z.ltb_lt in Hlt. lia.
Qed.

Lemma gpu_pattern_specs :
  capture_specs gpu_pattern
  = [(Digit, 1%nat); (Digit, 1%nat); (Digit, 1%nat); (Digit, 1%nat)].
Proof. reflexivity. Qed.

Lemma process_pattern_specs :
  capture_specs process_pattern
  = [(Digit, 1%nat); (Word, 1%nat); (Digit, 1%nat); (Digit, 1%nat);
     (AnyChar, 1%nat)].
Proof. reflexivity. Qed.

(** The GPU branch raises or appends, whatever was accumulated before; what
    it appends is nothing or one well-formed record; and it does not raise
    on a line without a run of more than [max_str_digits] digits. *)
Lemma gpu_step_spec line :
  ((∀ gpus, gpu_step line gpus = None) ∧
   max_str_digits < longest_digit_run line) ∨
  ∃ new, (∀ gpus, gpu_step line gpus = Some (gpus ++ new)) ∧ Forall gpu_ok new.
Proof.
  unfold gpu_step.
  destruct (py_in "GPU" line && py_in "%" line);
    [|right; exists []; split; [intros; rewrite app_nil_r; reflexivity|constructor]].
  destruct (re_search gpu_pattern line) as [groups|] eqn:Hs;
    [|right; exists []; split; [intros; rewrite app_nil_r; reflexivity|constructor]].
  apply re_search_captures in Hs as [Hs Hin]. rewrite gpu_pattern_specs in Hs.
  apply Forall2_cons_inv_l in Hs as (a & ? & Ha & Hs & ->).
  apply Forall2_cons_inv_l in Hs as (b & ? & Hb & Hs & ->).
  apply Forall2_cons_inv_l in Hs as (c & ? & Hc & Hs & ->).
  apply Forall2_cons_inv_l in Hs as (d & ? & Hd & Hs & ->).
  apply Forall2_nil_inv_l in Hs as ->.
  apply Forall_cons in Hin as [Hia Hin]. apply Forall_cons in Hin as [Hib Hin].
  apply Forall_cons in Hin as [Hic Hin]. apply Forall_cons in Hin as [Hid _].
  pose proof (digit_group_short a line Ha Hia) as Hla.
  pose proof (digit_group_short b line Hb Hib) as Hlb.
  pose proof (digit_group_short c line Hc Hic) as Hlc.
  pose proof (digit_group_short d line Hd Hid) as Hld.
  apply py_int_group in Ha, Hb, Hc, Hd.
  destruct (max_str_digits <? Z.of_nat (String.length a)) eqn:Ea;
    [apply Z.ltb_lt in Ea; left; split; [intros; rewrite Ha; reflexivity|lia]|].
  destruct Ha as (i & -> & Hi).
  destruct (max_str_digits <? Z.of_nat (String.length b)) eqn:Eb;
    [apply Z.ltb_lt in Eb; left; split; [intros; rewrite Hb; reflexivity|lia]|].
  destruct Hb as (u & -> & Hu).
  destruct (max_str_digits <? Z.of_nat (String.length c)) eqn:Ec;
    [apply Z.ltb_lt in Ec; left; split; [intros; rewrite Hc; reflexivity|lia]|].
  destruct Hc as (m & -> & Hm).
  destruct (max_str_digits <? Z.of_nat (String.length d)) eqn:Ed;
    [apply Z.ltb_lt in Ed; left; split; [intros; rewrite Hd; reflexivity|lia]|].
  destruct Hd as (t & -> & Ht).
  right. simpl. eexists. split; [intros; reflexivity|].
  constructor; [|constructor]. unfold gpu_ok. simpl. auto 10.
Qed.

(** The same for the process branch. *)
Lemma process_step_spec line :
  ((∀ processes, process_step line processes = None) ∧
   max_str_digits < longest_digit_run line) ∨
  ∃ new, (∀ processes, process_step line processes = Some (processes ++ new)) ∧
         Forall process_ok new.
Proof.
  unfold process_step.
  destruct (py_in "PID" line && py_in "Memory" line);
    [|right; exists []; split; [intros; rewrite app_nil_r; reflexivity|constructor]].
  destruct (re_search process_pattern line) as [groups|] eqn:Hs;
    [|right; exists []; split; [intros; rewrite app_nil_r; reflexivity|constructor]].
  apply re_search_captures in Hs as [Hs Hin]. rewrite process_pattern_specs in Hs.
  apply Forall2_cons_inv_l in Hs as (a & ? & Ha & Hs & ->).
  apply Forall2_cons_inv_l in Hs as (b & ? & Hb & Hs & ->).
  apply Forall2_cons_inv_l in Hs as (c & ? & Hc & Hs & ->).
  apply Forall2_cons_inv_l in Hs as (d & ? & Hd & Hs & ->).
  apply Forall2_cons_inv_l in Hs as (e & ? & He & Hs & ->).
  apply Forall2_nil_inv_l in Hs as ->.
  apply Forall_cons in Hin as [Hia Hin]. apply Forall_cons in Hin as [_ Hin].
  apply Forall_cons in Hin as [Hic Hin]. apply Forall_cons in Hin as [Hid _].
  pose proof (digit_group_short a line Ha Hia) as Hla.
  pose proof (digit_group_short c line Hc Hic) as Hlc.
  pose proof (digit_group_short d line Hd Hid) as Hld.
  apply py_int_group in Ha, Hc, Hd.
  destruct (max_str_digits <? Z.of_nat (String.length a)) eqn:Ea;
    [apply Z.ltb_lt in Ea; left; split; [intros; rewrite Ha; reflexivity|lia]|].
  destruct Ha as (p & -> & Hp).
  destruct (max_str_digits <? Z.of_nat (String.length c)) eqn:Ec;
    [apply Z.ltb_lt in Ec; left; split; [intros; rewrite Hc; reflexivity|lia]|].
  destruct Hc as (g & -> & Hg).
  destruct (max_str_digits <? Z.of_nat (String.length d)) eqn:Ed;
    [apply Z.ltb_lt in Ed; left; split; [intros; rewrite Hd; reflexivity|lia]|].
  destruct Hd as (m & -> & Hm).
  right. simpl. eexists. split; [intros; reflexivity|].
  constructor; [|constructor]. unfold process_ok. simpl.
  destruct Hb as [Hlen Hword]. simpl in Hlen, Hword.
  repeat split; try assumption.
  intros ->. simpl in Hlen. lia.
Qed.

Lemma parse_lines_acc lines :
  ∀ gpus processes,
    parse_lines lines gpus processes
    = (gpus ++ (parse_lines lines [] []).1,
       processes ++ (parse_lines lines [] []).2).
Proof.
  induction lines as [|raw rest IH]; intros gpus processes; simpl.
  - rewrite !app_nil_r. reflexivity.
  - destruct (is_empty (strip raw)); [apply IH|].
    destruct (gpu_step_spec (strip raw)) as [[Hg _]|(ng & Hg & _)].
    { rewrite (Hg gpus), (Hg []). simpl. rewrite !app_nil_r. reflexivity. }
    rewrite (Hg gpus), (Hg []).
    destruct (process_step_spec (strip raw)) as [[Hp _]|(np & Hp & _)].
    { rewrite (Hp processes), (Hp []). simpl. rewrite app_nil_r. reflexivity. }
    rewrite (Hp processes), (Hp []). simpl.
    rewrite (IH (gpus ++ ng)), (IH ng np). simpl.
    rewrite !app_assoc. reflexivity.
Qed.

(** Lines without a long run of digits are read to the end. *)
Lemma parse_lines_app l1 l2 :
  Forall (λ raw, longest_digit_run (strip raw) ≤ max_str_digits) l1 →
  ∀ gpus processes,
    parse_lines (l1 ++ l2) gpus processes
    = parse_lines l2 (parse_lines l1 gpus processes).1
        (parse_lines l1 gpus processes).2.
Proof.
  induction 1 as [|raw rest Hraw _ IH]; intros gpus processes; simpl.
  - reflexivity.
  - destruct (is_empty (strip raw)); [apply IH|].
    destruct (gpu_step_spec (strip raw)) as [[_ Hlong]|(ng & Hg & _)]; [lia|].
    destruct (process_step_spec (strip raw)) as [[_ Hlong]|(np & Hp & _)]; [lia|].
    rewrite (Hg gpus), (Hp processes). apply IH.
Qed.

Lemma parse_lines_ok lines :
  ∀ gpus processes,
    Forall gpu_ok gpus → Forall process_ok processes →
    Forall gpu_ok (parse_lines lines gpus processes).1 ∧
    Forall process_ok (parse_lines lines gpus processes).2.
Proof.
  induction lines as [|raw rest IH]; intros gpus processes Hg Hp; simpl.
  - auto.
  - destruct (is_empty (strip raw)); [apply IH; assumption|].
    destruct (gpu_step_spec (strip raw)) as [[Hsg _]|(ng & Hsg & Hng)];
      rewrite (Hsg gpus); [auto|].
    destruct (process_step_spec (strip raw)) as [[Hsp _]|(np & Hsp & Hnp)];
      rewrite (Hsp processes).
    + simpl. split; [apply Forall_app; auto|assumption].
    + apply IH; apply Forall_app; auto.
Qed.

Lemma split_newline_nonempty s : split_newline s ≠ [].
Proof.
  induction s as [|c s IH]; simpl; [discriminate|].
  destruct (split_newline s); [contradiction|].
  destruct (Ascii.eqb c newline); discriminate.
Qed.

Lemma split_newline_app a b :
  split_newline (a +:+ String newline b) = split_newline a ++ split_newline b.
Proof.
  induction a as [|c a IH].
  - rewrite sapp_nil_l. simpl.
    pose proof (split_newline_nonempty b) as Hb.
    destruct (split_newline b); [contradiction|reflexivity].
  - rewrite sapp_cons. simpl. rewrite IH.
    pose proof (split_newline_nonempty a) as Ha.
    destruct (split_newline a) as [|l ls]; [contradiction|]. simpl.
    destruct (Ascii.eqb c newline); reflexivity.
Qed.

(** X1: every GPU record of the parser has a non-negative index,
    utilisation, used and total memory, its free memory is total minus used,
    and it has no temperature and no power reading; every process record
    has a non-negative pid, GPU index and memory and a non-empty user name
    made of word characters. *)
Theorem parsed_records_well_formed (output : string) :
  Forall gpu_ok (_parse_nvidia_smi_output output).1 ∧
  Forall process_ok (_parse_nvidia_smi_output output).2.
Proof. apply parse_lines_ok; constructor. Qed.

(** Nothing bounds the utilisation by 100 or keeps the free memory from
    being negative. *)
Example parsed_values_unbounded :
  (_parse_nvidia_smi_output "GPU 0: 250% 9000/8000 MB").1
  = [GPUInfo.mk 0 "Tesla V100" 250 9000 8000 (-1000) None None].
Proof. vm_compute. reflexivity. Qed.

(** ** Substrings *)

Lemma starts_with_spec p :
  ∀ s, starts_with p s = true ↔ ∃ v, s = p +:+ v.
Proof.
  induction p as [|a p IH]; intros s; simpl.
  - split; [intros _; exists s; reflexivity|reflexivity].
  - destruct s as [|b s].
    + split; [discriminate|]. intros [v Hv]. rewrite sapp_cons in Hv. discriminate.
    + rewrite andb_true_iff, IH. split.
      * intros [Hab [v ->]]. apply Ascii.eqb_eq in Hab as ->.
        exists v. reflexivity.
      * intros [v Hv]. rewrite sapp_cons in Hv. injection Hv as -> ->.
        split; [apply Ascii.eqb_refl|eauto].
Qed.

Lemma py_in_spec needle :
  ∀ s, py_in needle s = true ↔ ∃ u v, s = u +:+ needle +:+ v.
Proof.
  induction s as [|c s IH]; simpl; rewrite orb_true_iff, starts_with_spec.
  - split.
    + intros [[v Hv]|]; [|discriminate]. exists "", v. exact Hv.
    + intros (u & v & Huv). left. destruct u; [|discriminate].
      exists v. exact Huv.
  - rewrite IH. split.
    + intros [[v Hv]|(u & v & ->)].
      * exists "", v. exact Hv.
      * exists (String c u), v. reflexivity.
    + intros (u & v & Huv). destruct u as [|c' u].
      * left. exists v. exact Huv.
      * right. rewrite sapp_cons in Huv. injection Huv as -> ->. eauto.
Qed.

Lemma py_in_within needle u x v :
  py_in needle x = true → py_in needle (u +:+ x +:+ v) = true.
Proof.
  rewrite !py_in_spec. intros (a & b & ->).
  exists (u +:+ a), (b +:+ v). rewrite !sapp_assoc. reflexivity.
Qed.

Lemma lstrip_within s : ∃ u, s = u +:+ lstrip s.
Proof.
  induction s as [|c s [u IH]]; simpl.
  - exists "". reflexivity.
  - destruct (is_space c).
    + exists (String c u). rewrite sapp_cons, <- IH. reflexivity.
    + exists "". reflexivity.
Qed.

Lemma rstrip_within s : ∃ v, s = rstrip s +:+ v.
Proof.
  induction s as [|c s [v IH]]; simpl.
  - exists "". reflexivity.
  - destruct (rstrip s) as [|c' r].
    + rewrite sapp_nil_l in IH. subst v. destruct (is_space c).
      * exists (String c s). reflexivity.
      * exists s. reflexivity.
    + exists v. rewrite sapp_cons, <- IH. reflexivity.
Qed.

Lemma strip_within s : ∃ u v, s = u +:+ strip s +:+ v.
Proof.
  unfold strip. destruct (lstrip_within s) as [u Hu].
  destruct (rstrip_within (lstrip s)) as [v Hv].
  exists u, v. rewrite <- Hv. exact Hu.
Qed.

Lemma first_line_prefix s :
  ∀ l ls, split_newline s = l :: ls → ∃ v, s = l +:+ v.
Proof.
  induction s as [|c s IH]; simpl; intros l ls H.
  - injection H as <- <-. exists "". reflexivity.
  - destruct (split_newline s) as [|l' ls'] eqn:Hs; [discriminate|].
    destruct (Ascii.eqb c newline).
    + injection H as <- <-. exists (String c s). reflexivity.
    + injection H as <- <-. destruct (IH l' ls' eq_refl) as [v ->].
      exists v. reflexivity.
Qed.

Lemma line_within s :
  ∀ line, line ∈ split_newline s → ∃ u v, s = u +:+ line +:+ v.
Proof.
  induction s as [|c s IH]; simpl; intros line Hin.
  - apply list_elem_of_singleton in Hin as ->. exists "", "". reflexivity.
  - destruct (split_newline s) as [|l ls] eqn:Hs;
      [apply elem_of_nil in Hin; contradiction|].
    assert (Hrest : line ∈ l :: ls → ∃ u v, String c s = u +:+ line +:+ v).
    { intros H. destruct (IH line H) as (u & v & ->).
      exists (String c u), v. reflexivity. }
    destruct (Ascii.eqb c newline).
    + apply elem_of_cons in Hin as [->|Hin]; [|auto].
      exists "", (String c s). reflexivity.
    + apply elem_of_cons in Hin as [->|Hin]; [|apply Hrest; right; exact Hin].
      destruct (first_line_prefix s l ls Hs) as [v ->].
      exists "", v. reflexivity.
Qed.

(** A word that is not in the text is in none of its trimmed lines. *)
Lemma keyword_absent needle output raw :
  py_in needle output = false →
  raw ∈ split_newline output →
  py_in needle (strip raw) = false.
Proof.
  intros Hout Hraw. destruct (py_in needle (strip raw)) eqn:Hin; [|reflexivity].
  destruct (strip_within raw) as (u & v & Hr).
  destruct (line_within output raw Hraw) as (u' & v' & Ho).
  apply (py_in_within needle u _ v) in Hin. rewrite <- Hr in Hin.
  apply (py_in_within needle u' _ v') in Hin. rewrite <- Ho in Hin.
  congruence.
Qed.

Lemma lines_short output :
  longest_digit_run output ≤ max_str_digits →
  Forall (λ raw, longest_digit_run (strip raw) ≤ max_str_digits)
    (split_newline output).
Proof.
  intros Hshort. apply Forall_forall. intros raw Hraw.
  destruct (strip_within raw) as (u & v & Hr).
  destruct (line_within output raw Hraw) as (u' & v' & Ho).
  assert (Hin : within (strip raw) output).
  { apply (within_trans _ raw); [exists u, v; exact Hr|exists u', v'; exact Ho]. }
  pose proof (longest_run_within _ _ Hin). lia.
Qed.

(** X2: the parser works line by line.  When the first of two texts has no
    run of more than 4300 digits, so that no conversion [int(...)] raises
    on it, parsing the two texts joined by a newline gives the records of
    the first followed by the records of the second; the second text is
    read up to the line, if any, on which a conversion raises. *)
Theorem parse_concatenation (a b : string) :
  longest_digit_run a ≤ max_str_digits →
  _parse_nvidia_smi_output (a +:+ nl +:+ b)
  = ((_parse_nvidia_smi_output a).1 ++ (_parse_nvidia_smi_output b).1,
     (_parse_nvidia_smi_output a).2 ++ (_parse_nvidia_smi_output b).2).
Proof.
  intros Hshort. unfold _parse_nvidia_smi_output, nl.
  rewrite sapp_cons, sapp_nil_l, split_newline_app.
  rewrite parse_lines_app by (apply lines_short, Hshort).
  rewrite parse_lines_acc. reflexivity.
Qed.

(** A line with a number of more than 4300 digits ends the parse: the
    lines after it are not read. *)
Example long_number_stops_parser :
  let long := string_of_list_ascii (repeat "1"%char 4301) in
  let a := "GPU 0: 50% 1/" +:+ long +:+ " MB" in
  let b := "GPU 1: 60% 2/8 MB" in
  (_parse_nvidia_smi_output b).1
  = [GPUInfo.mk 1 "Tesla V100" 60 2 8 6 None None] ∧
  (_parse_nvidia_smi_output (a +:+ nl +:+ b)).1 = [] ∧
  longest_digit_run a = 4301.
Proof. vm_compute. auto. Qed.

Lemma parse_lines_no_gpu lines :
  (∀ raw, raw ∈ lines →
          py_in "GPU" (strip raw) && py_in "%" (strip raw) = false) →
  ∀ gpus processes, (parse_lines lines gpus processes).1 = gpus.
Proof.
  induction lines as [|raw rest IH]; intros Hno gpus processes; simpl.
  - reflexivity.
  - assert (Hrest : ∀ g p, (parse_lines rest g p).1 = g)
      by (apply IH; intros r Hr; apply Hno; right; exact Hr).
    destruct (is_empty (strip raw)); [apply Hrest|].
    unfold gpu_step. rewrite (Hno raw) by left.
    destruct (process_step (strip raw) processes); [apply Hrest|reflexivity].
Qed.

Lemma parse_lines_no_process lines :
  (∀ raw, raw ∈ lines →
          py_in "PID" (strip raw) && py_in "Memory" (strip raw) = false) →
  ∀ gpus processes, (parse_lines lines gpus processes).2 = processes.
Proof.
  induction lines as [|raw rest IH]; intros Hno gpus processes; simpl.
  - reflexivity.
  - assert (Hrest : ∀ g p, (parse_lines rest g p).2 = p)
      by (apply IH; intros r Hr; apply Hno; right; exact Hr).
    destruct (is_empty (strip raw)); [apply Hrest|].
    destruct (gpu_step (strip raw) gpus); [|reflexivity].
    unfold process_step. rewrite (Hno raw) by left. apply Hrest.
Qed.

(** X3: a text that lacks "GPU" or lacks the percent sign yields no GPU
    record, and a text that lacks "PID" or lacks the word "Memory" yields no
    process record, whatever else it contains. *)
Theorem parser_needs_keywords (output : string) :
  (py_in "GPU" output = false ∨ py_in "%" output = false →
   (_parse_nvidia_smi_output output).1 = []) ∧
  (py_in "PID" output = false ∨ py_in "Memory" output = false →
   (_parse_nvidia_smi_output output).2 = []).
Proof.
  unfold _parse_nvidia_smi_output. split; intros Hno.
  - apply parse_lines_no_gpu. intros raw Hraw. apply andb_false_iff.
    destruct Hno as [H|H]; [left|right];
      apply (keyword_absent _ output); assumption.
  - apply parse_lines_no_process. intros raw Hraw. apply andb_false_iff.
    destruct Hno as [H|H]; [left|right];
      apply (keyword_absent _ output); assumption.
Qed.

(** * Further properties of the engine *)

Section EngineFacts.
Variable remote : Remote.
Variable config : ClusterConfig.t.

(** ** What a resolution does to the state *)

Lemma end_status_parsed server call w :
  status_parsed (end_status config server call w).1.
Proof.
  unfold end_status.
  destruct (receive_reply config call w) as [[[success output] rt] w1].
  destruct success.
  - pose proof (parse_lines_ok (split_newline output) [] []
                  (Forall_nil_2 _) (Forall_nil_2 _)) as Hp.
    fold (_parse_nvidia_smi_output output) in Hp.
    destruct (_parse_nvidia_smi_output output) as [gpus processes]. exact Hp.
  - split; constructor.
Qed.

Lemma end_status_sane server call w :
  cache_sane w → cache_sane (end_status config server call w).2.
Proof.
  intros Hs key st ts.
  destruct (end_status_spec config server call w) as (_ & _ & Hc & _).
  rewrite Hc, lookup_insert. case_decide.
  - intros [= <- <-]. apply end_status_parsed.
  - apply Hs.
Qed.

Lemma gather_sane servers w rs w1 :
  cache_sane w →
  gather remote config servers w = Done (rs, w1) →
  cache_sane w1 ∧ Forall (λ r, ∀ st, r = Return st → status_parsed st) rs.
Proof.
  intros Hs. unfold gather.
  destruct (run remote config _ _ w) as [[rs' w']|] eqn:Hrun; [|discriminate].
  intros [= -> ->].
  apply (run_invariant remote config
           (λ tasks w', cache_sane w' ∧ Forall task_parsed (entered tasks)))
    in Hrun as (tasks & [Hs1 Hts] & Hres).
  - split; [exact Hs1|].
    apply results_inv in Hres as [_ He]. rewrite He in Hts.
    apply Forall_forall. intros r Hr st ->.
    rewrite Forall_forall in Hts. apply (Hts (Finished (Return st))).
    + apply (list_elem_of_fmap_2 Finished) in Hr. exact Hr.
    + reflexivity.
  - intros tasks w' next [Hs' Hts] _
           (server & rest & Hw & Hw' & Hnext & He)%enter_inv.
    rewrite Hnext, He.
    destruct (begin_status_cases remote config server w')
      as [(e & Hb & _)|[(st & ts & Hb & Hl & _)|[Hb _]]]; rewrite Hb;
      cbn [fst snd].
    + split; [exact Hs'|]. apply Forall_app. split; [exact Hts|].
      constructor; [|constructor]. intros st. discriminate.
    + split; [exact Hs'|]. apply Forall_app. split; [exact Hts|].
      constructor; [|constructor]. intros st' [= <-]. apply (Hs' _ _ _ Hl).
    + split; [exact Hs'|]. apply Forall_app. split; [exact Hts|].
      constructor; [|constructor]. intros st. discriminate.
  - intros tasks w' k next [Hs' Hts]
           (_ & pre & server & call & post & He & He' & Hnext)%resume_inv.
    rewrite Hnext, He'. split; [apply end_status_sane, Hs'|].
    rewrite He in Hts. apply Forall_app in Hts as [Hpre Hpost].
    apply Forall_cons in Hpost as [_ Hpost].
    apply Forall_app. split; [exact Hpre|]. constructor; [|exact Hpost].
    intros st [= <-]. apply end_status_parsed.
  - split; [exact Hs|constructor].
Qed.

Lemma cluster_status_sane server_ids w cs w1 :
  cache_sane w →
  get_cluster_status remote config server_ids w = Done (cs, w1) →
  cache_sane w1 ∧ Forall status_parsed (ClusterStatus.servers cs).
Proof.
  intros Hs (rs & Hg & ->)%cluster_status_done.
  destruct (gather_sane _ _ _ _ Hs Hg) as [Hs1 Hrs].
  split; [exact Hs1|]. simpl.
  clear Hg. revert Hrs.
  generalize (servers_to_check config server_ids) as servers.
  induction rs as [|r rs IH]; intros servers Hrs.
  - destruct servers; constructor.
  - destruct servers as [|s servers]; [constructor|].
    apply Forall_cons in Hrs as [Hr Hrs]. simpl. constructor; [|apply IH, Hrs].
    destruct r as [st|msg]; simpl; [apply Hr; reflexivity|split; constructor].
Qed.

Lemma kill_step_sane acc item :
  cache_sane acc.2 → cache_sane (kill_step remote config acc item).2.
Proof.
  destruct acc as [results w], item as [server_id processes]. simpl.
  intros Hs.
  destruct (config_lookup config _) as [server|]; [|assumption].
  pose proof (run_ssh_world remote config (ServerConfig.hostname server)
                (kill_command processes) w) as (Hc & _ & Ht).
  destruct (_run_ssh_command remote config _ _ w) as [[[success output] rt] w1].
  simpl in Hc, Ht.
  assert (Hs1 : cache_sane w1).
  { intros k st ts. rewrite Hc. apply Hs. }
  destruct success; simpl; [|assumption].
  intros k st ts. unfold invalidate; simpl.
  rewrite lookup_delete. case_decide; [discriminate|apply Hs1].
Qed.

Lemma kill_loop_sane items :
  ∀ acc, cache_sane acc.2 →
         cache_sane (fold_left (kill_step remote config) items acc).2.
Proof.
  induction items as [|item items IH]; intros acc Hs; simpl; [assumption|].
  apply IH, kill_step_sane, Hs.
Qed.

Lemma kill_sane username server_ids confirm w results w1 :
  cache_sane w →
  kill_user_tasks remote config username server_ids confirm w
  = Done (results, w1) →
  cache_sane w1.
Proof.
  intros Hs. destruct confirm.
  - intros (usage & w0 & (cs & Hcs & _)%usage_done & Hk)%kill_done.
    destruct (cluster_status_sane _ _ _ _ Hs Hcs) as [Hs0 _].
    replace w1 with (kill_listed remote config username usage w0).2
      by (rewrite Hk; reflexivity).
    unfold kill_listed.
    destruct (UserUsageSummary.processes_by_server usage) as [|item items];
      [exact Hs0|].
    apply (kill_loop_sane (item :: items) ([], w0)). exact Hs0.
  - unfold kill_user_tasks. simpl. intros [= _ <-]. exact Hs.
Qed.

Lemma reachable_sane w : reachable remote config w → cache_sane w.
Proof.
  induction 1 as [t|d w _ IH|ids w cs w1 _ IH Hcs|user ids w usage w1 _ IH Hus
                 |user ids confirm w results w1 _ IH Hk].
  - intros key st ts. simpl. rewrite lookup_empty. discriminate.
  - intros key st ts Hl. apply (IH _ _ _ Hl).
  - apply (cluster_status_sane _ _ _ _ IH Hcs).
  - apply usage_done in Hus as (cs & Hcs & _).
    apply (cluster_status_sane _ _ _ _ IH Hcs).
  - apply (kill_sane _ _ _ _ _ _ IH Hk).
Qed.

(** X4: with a [cache_ttl] that is zero or negative nothing is served from
    the cache.  Where the semaphore has a permit and the cache entry of the
    server, if there is one, was not stored at a time later than the
    present reading of the clock, a resolution queries the host, with
    exactly one command. *)
Theorem nonpositive_ttl_disables_cache
    (server : ServerConfig.t) (w : World) (ttl : Z) :
  0 < _semaphore config →
  setting config "cache_ttl" (PyNum 30) = PyNum ttl →
  ttl ≤ 0 →
  (∀ st ts, _cache w !! cache_key (ServerConfig.id server) = Some (st, ts) →
            ts ≤ clock w) →
  _get_server_status remote config server w
  = Done (Return (fresh_status remote config server w).1,
          (fresh_status remote config server w).2) ∧
  ssh_log (fresh_status remote config server w).2
  = ssh_log w ++ [status_query server].
Proof.
  intros Hpermit Httl Hneg Hpast.
  split; [|apply (fresh_status_spec remote config server w)].
  unfold _get_server_status.
  replace (_semaphore config <=? 0) with false by (symmetry; apply Z.leb_gt, Hpermit).
  unfold begin_status, fresh_status, _is_cache_valid, _get_cached. rewrite Httl.
  destruct (send_command remote config _ _ w) as [call w1].
  destruct (_cache w !! cache_key (ServerConfig.id server))
    as [[cached ts]|] eqn:Hlook.
  - specialize (Hpast _ _ eq_refl).
    rewrite bool_decide_false by lia.
    destruct (end_status config server call w1). reflexivity.
  - destruct (end_status config server call w1). reflexivity.
Qed.

(** ** A [cache_ttl] that is not a number *)

Lemma substitutes_offline now servers :
  List.filter ServerStatus.online (map (type_error_status now) servers) = [].
Proof. induction servers as [|s l IH]; simpl; [reflexivity|exact IH]. Qed.

Lemma zip_substitutes now servers :
  zip_with (valid_status now) servers
    (map (λ _, Raise "'<' not supported between instances of 'float' and 'str'")
       servers)
  = map (type_error_status now) servers.
Proof.
  induction servers as [|s l IH]; simpl; [reflexivity|]. rewrite IH. reflexivity.
Qed.

Lemma gather_stores servers w rs w1 :
  gather remote config servers w = Done (rs, w1) →
  ∀ server, server ∈ servers →
            is_Some (_cache w1 !! cache_key (ServerConfig.id server)).
Proof.
  intros (Hts & _)%gather_spec server Hin.
  apply list_elem_of_lookup in Hin as [i Hi].
  destruct (Forall2_lookup_l _ _ _ _ _ Hts Hi) as (r & _ & [Hsome _]).
  exact Hsome.
Qed.

Lemma gather_text_ttl s servers w :
  0 < _semaphore config ∨ servers = [] →
  setting config "cache_ttl" (PyNum 30) = PyStr s →
  (∀ server, server ∈ servers →
             is_Some (_cache w !! cache_key (ServerConfig.id server))) →
  gather remote config servers w
  = Done (map (λ _, Raise "'<' not supported between instances of 'float' and 'str'")
            servers, w).
Proof.
  intros [Hpermit| ->] Httl Hall; [|reflexivity].
  apply (gather_immediate remote config
           (λ _, Raise "'<' not supported between instances of 'float' and 'str'"));
    [exact Hpermit|].
  intros server Hin. destruct (Hall server Hin) as [[st ts] Hlook].
  unfold begin_status, _is_cache_valid. rewrite Hlook, Httl. reflexivity.
Qed.

(** X5: when [cache_ttl] is given as a string, the first poll of a server
    works and stores its status, and from then on the cache test raises: any
    poll made after a poll of the same servers has returned, however much
    later, issues no command, changes nothing and reports every selected
    server offline with the text of the type error. *)
Theorem text_ttl_blinds_monitor
    (s : string) (server_ids : option (list string)) (w w0 : World)
    (cs : ClusterStatus.t) (d : N) :
  setting config "cache_ttl" (PyNum 30) = PyStr s →
  get_cluster_status remote config server_ids w = Done (cs, w0) →
  let w1 := tick d w0 in
  let selected := servers_to_check config server_ids in
  get_cluster_status remote config server_ids w1
  = Done (ClusterStatus.mk (map (type_error_status (clock w1)) selected) 0 0
            (length selected) (clock w1), w1).
Proof.
  intros Httl Hcs w1 selected.
  pose proof (cluster_status_can_return remote config _ _ _ _ Hcs) as Hcan.
  apply cluster_status_done in Hcs as (rs & Hg & _).
  fold selected in Hg, Hcan.
  assert (Hall : ∀ server, server ∈ selected →
            is_Some (_cache w1 !! cache_key (ServerConfig.id server)))
    by exact (gather_stores selected w rs w0 Hg).
  unfold get_cluster_status. fold selected.
  rewrite (gather_text_ttl s selected w1 Hcan Httl Hall).
  rewrite zip_substitutes, substitutes_offline, length_map. reflexivity.
Qed.

(** ** The commands of a poll *)

(** X6: a poll that returns has issued nothing but status queries, at most
    one for each selected server and in configuration order; it has not
    turned the clock back and it has changed no cache entry other than
    those of the selected servers. *)
Theorem poll_effects
    (server_ids : option (list string)) (w w1 : World) (cs : ClusterStatus.t) :
  get_cluster_status remote config server_ids w = Done (cs, w1) →
  let selected := filter (passes server_ids) (ClusterConfig.servers config) in
  (∃ cmds, ssh_log w1 = ssh_log w ++ cmds ∧
           sublist cmds (map status_query selected)) ∧
  clock w ≤ clock w1 ∧
  ∀ key, (∀ server, server ∈ selected →
                    key ≠ cache_key (ServerConfig.id server)) →
         _cache w1 !! key = _cache w !! key.
Proof.
  intros (rs & Hg & _)%cluster_status_done. simpl.
  rewrite <- servers_to_check_passes.
  destruct (gather_spec remote config _ _ _ _ Hg)
    as (_ & _ & Hclock & Hlog & Hframe & _).
  auto.
Qed.

(** ** A first poll and its repetition *)

Lemma NoDup_map_middle {A B} (f : A → B) (l1 l2 : list A) (x y : A) :
  NoDup (map f (l1 ++ x :: l2)) → y ∈ l1 ++ l2 → f y ≠ f x.
Proof.
  rewrite map_app. simpl. intros Hnd Hy Heq.
  apply NoDup_app in Hnd as (_ & Hdisj & Hnd).
  apply NoDup_cons in Hnd as [Hx _].
  apply elem_of_app in Hy as [Hy|Hy].
  - apply (Hdisj (f y)).
    + apply (list_elem_of_fmap_2 f), Hy.
    + rewrite Heq. left.
  - apply Hx. rewrite <- Heq. apply (list_elem_of_fmap_2 f), Hy.
Qed.

Lemma first_poll_enter servers w0 tasks w next :
  first_poll_inv servers w0 tasks w →
  enter remote config tasks w = Some next →
  first_poll_inv servers w0 next.1 next.2.
Proof.
  intros (pre & Hs & Hlog & Hclock & Hnone & Hts)
         (server & rest & Hw & Hw' & Hnext & He)%enter_inv.
  assert (Hb : begin_status remote config server w
               = (inr (send_command remote config (ServerConfig.hostname server)
                         status_command w).1,
                  (send_command remote config (ServerConfig.hostname server)
                     status_command w).2)).
  { unfold begin_status, _is_cache_valid.
    rewrite (Hnone server) by (rewrite Hw; left). reflexivity. }
  exists (pre ++ [server]). rewrite Hw', He, Hnext, Hb.
  cbn [send_command fst snd _cache clock ssh_log].
  split; [rewrite Hs, Hw, <- app_assoc; reflexivity|].
  split; [rewrite Hlog, map_app, <- app_assoc; reflexivity|].
  split; [exact Hclock|]. split.
  - intros s' Hs'. apply Hnone. rewrite Hw. right. exact Hs'.
  - apply Forall2_app; [|constructor; [reflexivity|constructor]].
    eapply Forall2_impl; [exact Hts|]. intros s' [server' call'|r]; simpl; auto.
Qed.

Lemma first_poll_resume servers w0 tasks w k next :
  NoDup (map ServerConfig.id servers) →
  first_poll_inv servers w0 tasks w →
  resume config k tasks w = Some next →
  first_poll_inv servers w0 next.1 next.2.
Proof.
  intros Hnd (pre & Hs & Hlog & Hclock & Hnone & Hts)
         (Hw & pre' & server & call & post & He & He' & Hnext)%resume_inv.
  rewrite He in Hts.
  apply Forall2_app_inv_r in Hts as (l1 & l2' & Hl1 & Hl2 & ->).
  apply Forall2_cons_inv_r in Hl2 as (s' & l2 & Hrun & Hl2 & ->).
  simpl in Hrun. subst s'.
  destruct (end_status_spec config server call w) as (_ & _ & Hc & Hl & Ht).
  assert (Hother : ∀ s, s ∈ (l1 ++ l2) ++ waiting tasks →
            _cache (end_status config server call w).2
              !! cache_key (ServerConfig.id s)
            = _cache w !! cache_key (ServerConfig.id s)).
  { intros s Hin. rewrite Hc, lookup_insert_ne; [reflexivity|].
    intros Hk. apply cache_key_inj in Hk. symmetry in Hk. revert Hk.
    apply (NoDup_map_middle ServerConfig.id l1 (l2 ++ waiting tasks)).
    - rewrite Hs in Hnd. rewrite <- app_assoc in Hnd. exact Hnd.
    - rewrite app_assoc. exact Hin. }
  exists (l1 ++ server :: l2). rewrite Hw, He', Hnext.
  split; [exact Hs|]. split; [rewrite Hl; exact Hlog|].
  split; [lia|]. split.
  - intros s Hin. rewrite Hother; [apply Hnone, Hin|].
    apply elem_of_app. right. exact Hin.
  - assert (Hkeep : ∀ l ts, (∀ s, s ∈ l → s ∈ l1 ++ l2) →
              Forall2 (task_fresh w0 w) l ts →
              Forall2 (task_fresh w0 (end_status config server call w).2) l ts).
    { intros l ts Hsub H. induction H as [|s t l ts Hst _ IH]; constructor.
      - destruct t as [server' call'|r]; simpl in *; [exact Hst|].
        destruct Hst as (st & stored & -> & Hlook & Hbounds).
        exists st, stored. split; [reflexivity|].
        rewrite Hother.
        + split; [exact Hlook|lia].
        + apply elem_of_app. left. apply Hsub. left.
      - apply IH. intros s' Hs'. apply Hsub. right. exact Hs'. }
    apply Forall2_app.
    + apply Hkeep; [|exact Hl1]. intros s Hin. apply elem_of_app. auto.
    + constructor.
      * simpl. eexists _, _. split; [reflexivity|].
        rewrite Hc, lookup_insert_eq. split; [reflexivity|lia].
      * apply Hkeep; [|exact Hl2]. intros s Hin. apply elem_of_app. auto.
Qed.

(** A poll of servers with distinct ids and no cache entry queries each of
    them, in the order of the list, and stores what it returns. *)
Lemma gather_fresh servers w rs w1 :
  NoDup (map ServerConfig.id servers) →
  (∀ server, server ∈ servers →
             _cache w !! cache_key (ServerConfig.id server) = None) →
  gather remote config servers w = Done (rs, w1) →
  ssh_log w1 = ssh_log w ++ map status_query servers ∧
  ∃ sts,
    rs = map Return sts ∧
    Forall2 (λ server st,
               ∃ ts, _cache w1 !! cache_key (ServerConfig.id server)
                     = Some (st, ts) ∧ clock w ≤ ts ∧ ts ≤ clock w1)
      servers sts.
Proof.
  intros Hnd Hnone. unfold gather.
  destruct (run remote config _ _ w) as [[rs' w']|] eqn:Hrun; [|discriminate].
  intros [= -> ->].
  apply (run_invariant remote config (first_poll_inv servers w)) in Hrun
    as (tasks & (pre & Hs & Hlog & _ & _ & Hts) & Hres).
  - apply results_inv in Hres as [Hw He]. rewrite Hw, app_nil_r in Hs.
    subst pre. split; [exact Hlog|].
    rewrite He in Hts. clear -Hts. revert rs Hts.
    induction servers as [|s servers IH]; intros rs Hts.
    + destruct rs; [|inversion Hts]. exists []. split; constructor.
    + destruct rs as [|r rs]; [inversion Hts|]. simpl in Hts.
      apply Forall2_cons in Hts as [(st & ts & -> & Hlook & Hlo & Hhi) Hts].
      destruct (IH rs Hts) as (sts & -> & Hall).
      exists (st :: sts). split; [reflexivity|]. constructor; eauto.
  - intros tasks w' next HI _. apply first_poll_enter, HI.
  - intros tasks w' k next HI. apply first_poll_resume; assumption.
  - exists []. simpl. rewrite app_nil_r.
    split; [reflexivity|]. split; [reflexivity|]. split; [lia|].
    split; [exact Hnone|constructor].
Qed.

Lemma gather_hits ttl servers sts w :
  0 < _semaphore config →
  setting config "cache_ttl" (PyNum 30) = PyNum ttl →
  Forall2 (λ server st,
             ∃ ts, _cache w !! cache_key (ServerConfig.id server)
                   = Some (st, ts) ∧ clock w - ts < ttl)
    servers sts →
  gather remote config servers w = Done (map Return sts, w).
Proof.
  intros Hpermit Httl Hall.
  pose (f := λ server : ServerConfig.t,
          match _cache w !! cache_key (ServerConfig.id server) with
          | Some (st, _) => Return st
          | None => Raise ""
          end).
  rewrite (gather_immediate remote config f servers w Hpermit).
  - f_equal. f_equal. clear -Hall.
    induction Hall as [|server st servers sts (ts & Hlook & _) _ IH];
      [reflexivity|].
    simpl. rewrite IH. unfold f. rewrite Hlook. reflexivity.
  - intros server Hin.
    apply list_elem_of_lookup in Hin as [i Hi].
    destruct (Forall2_lookup_l _ _ _ _ _ Hall Hi) as (st & _ & ts & Hlook & Hage).
    unfold begin_status, _is_cache_valid, _get_cached, f.
    rewrite Hlook, Httl, bool_decide_true by assumption. reflexivity.
Qed.

Lemma zip_returns now servers sts :
  length servers = length sts →
  zip_with (valid_status now) servers (map Return sts) = sts.
Proof.
  revert sts. induction servers as [|s l IH]; intros [|st sts] Hlen;
    simpl in *; try discriminate; [reflexivity|].
  rewrite IH by lia. reflexivity.
Qed.

Lemma poll_then_repeat
    (server_ids : option (list string)) (w : World) (ttl : Z) (d : N) :
  0 < _semaphore config →
  unique_ids config →
  setting config "cache_ttl" (PyNum 30) = PyNum ttl →
  (∀ server, server ∈ servers_to_check config server_ids →
             _cache w !! cache_key (ServerConfig.id server) = None) →
  ∃ cs1 w1,
    get_cluster_status remote config server_ids w = Done (cs1, w1) ∧
    ssh_log w1
    = ssh_log w ++ map status_query (servers_to_check config server_ids) ∧
    (clock (tick d w1) - clock w < ttl →
     ∃ cs2,
       get_cluster_status remote config server_ids (tick d w1)
       = Done (cs2, tick d w1) ∧
       ClusterStatus.servers cs2 = ClusterStatus.servers cs1).
Proof.
  intros Hpermit Huniq Httl Hnone.
  assert (Hnd : NoDup (map ServerConfig.id (servers_to_check config server_ids))).
  { rewrite servers_to_check_passes. apply NoDup_map_filter, Huniq. }
  destruct (cluster_status_returns remote config server_ids w (or_introl Hpermit))
    as (cs1 & w1 & Hcs1).
  exists cs1, w1. split; [exact Hcs1|].
  apply cluster_status_done in Hcs1 as (rs & Hg & Hcs).
  destruct (gather_fresh _ _ _ _ Hnd Hnone Hg) as (Hlog & sts & -> & Hent).
  assert (Hlen : length (servers_to_check config server_ids) = length sts)
    by (eapply Forall2_length; exact Hent).
  split; [exact Hlog|]. intros Hsoon.
  unfold get_cluster_status.
  rewrite (gather_hits ttl (servers_to_check config server_ids) sts (tick d w1)
             Hpermit Httl).
  - eexists. split; [reflexivity|]. rewrite Hcs. simpl.
    rewrite !zip_returns by assumption. reflexivity.
  - eapply Forall2_impl; [exact Hent|].
    intros s st (ts & Hlook & Hlo & Hhi). exists ts.
    split; [exact Hlook|]. simpl in *. lia.
Qed.

(** X7: take a monitor whose semaphore has a permit, a configuration with
    pairwise distinct ids and a state in which none of the selected servers
    has a cache entry (a new monitor, for one).  A poll then returns, having
    queried every selected server exactly once, in configuration order.  If
    [cache_ttl] is a number, a second poll that starts less than
    [cache_ttl] after the first one started issues no command, changes
    nothing and returns the same list of statuses. *)
Theorem first_poll_then_cached
    (server_ids : option (list string)) (w : World) (ttl : Z) (d : N) :
  0 < _semaphore config →
  unique_ids config →
  setting config "cache_ttl" (PyNum 30) = PyNum ttl →
  (∀ server, server ∈ servers_to_check config server_ids →
             _cache w !! cache_key (ServerConfig.id server) = None) →
  ∃ cs1 w1,
    get_cluster_status remote config server_ids w = Done (cs1, w1) ∧
    ssh_log w1
    = ssh_log w ++ map status_query (servers_to_check config server_ids) ∧
    (clock (tick d w1) - clock w < ttl →
     ∃ cs2,
       get_cluster_status remote config server_ids (tick d w1)
       = Done (cs2, tick d w1) ∧
       ClusterStatus.servers cs2 = ClusterStatus.servers cs1).
Proof. apply poll_then_repeat. Qed.

(** ** Counts *)

Lemma sumZ_nonneg l : Forall (λ x, 0 ≤ x) l → 0 ≤ sumZ l.
Proof. induction 1; simpl; lia. Qed.

Lemma filter_length_le {A} (f : A → bool) (l : list A) :
  (length (List.filter f l) ≤ length l)%nat.
Proof. induction l as [|x l IH]; simpl; [lia|]. destruct (f x); simpl; lia. Qed.

(** X8: in every cluster result [total_servers] is the number of statuses
    listed and the number of servers selected, [online_servers] lies between
    zero and [total_servers], and [total_gpus] is not negative. *)
Theorem cluster_counts_bounded
    (server_ids : option (list string)) (w w1 : World) (cs : ClusterStatus.t) :
  get_cluster_status remote config server_ids w = Done (cs, w1) →
  ClusterStatus.total_servers cs = length (ClusterStatus.servers cs) ∧
  ClusterStatus.total_servers cs
  = length (filter (passes server_ids) (ClusterConfig.servers config)) ∧
  0 ≤ ClusterStatus.online_servers cs ≤ Z.of_nat (ClusterStatus.total_servers cs) ∧
  0 ≤ ClusterStatus.total_gpus cs.
Proof.
  intros (rs & Hg & ->)%cluster_status_done. simpl.
  rewrite <- servers_to_check_passes.
  pose proof (gather_length remote config _ _ _ _ Hg) as Hlen.
  split; [reflexivity|]. split.
  - rewrite length_zip_with. lia.
  - rewrite !py_sum_sumZ, sum_ones.
    split.
    + split; [lia|]. apply Nat2Z.inj_le, filter_length_le.
    + apply sumZ_nonneg. apply Forall_forall. intros x Hx.
      apply list_elem_of_fmap in Hx as (st & -> & _). lia.
Qed.

(** ** A filter that names no configured server *)

(** X9: when the filter is not empty and none of its members is the id of a
    configured server, the status is empty with all counts zero, the usage
    of any user is empty, and a confirmed kill answers that no processes
    were found; in all three cases the call returns, nothing is sent and
    nothing changes. *)
Theorem unknown_ids_select_nothing
    (ids : list string) (user : string) (w : World) :
  ids ≠ [] →
  (∀ server, server ∈ ClusterConfig.servers config →
             ServerConfig.id server ∉ ids) →
  get_cluster_status remote config (Some ids) w
  = Done (ClusterStatus.mk [] 0 0 0 (clock w), w) ∧
  get_user_usage remote config user (Some ids) w
  = Done (UserUsageSummary.mk user 0 0 [] [] (clock w), w) ∧
  kill_user_tasks remote config user (Some ids) true w
  = Done ([("message", "No processes found for user " +:+ user)], w).
Proof.
  intros Hne Hunknown.
  assert (Hsel : servers_to_check config (Some ids) = []).
  { rewrite servers_to_check_passes. apply filter_none.
    intros s Hs [Hnil|Hin]; [contradiction|]. exact (Hunknown s Hs Hin). }
  assert (Hcs : get_cluster_status remote config (Some ids) w
                = Done (ClusterStatus.mk [] 0 0 0 (clock w), w)).
  { unfold get_cluster_status. rewrite Hsel. reflexivity. }
  assert (Hus : get_user_usage remote config user (Some ids) w
                = Done (UserUsageSummary.mk user 0 0 [] [] (clock w), w)).
  { unfold get_user_usage. rewrite Hcs. reflexivity. }
  split; [exact Hcs|]. split; [exact Hus|].
  unfold kill_user_tasks. simpl. rewrite Hus. reflexivity.
Qed.

(** ** Usage, for any configuration *)

Lemma dict_set_elem {V} k (v : V) d k' v' :
  (k', v') ∈ dict_set k v d → (k', v') = (k, v) ∨ (k', v') ∈ d.
Proof.
  induction d as [|[k0 v0] d IH]; simpl.
  - intros H%list_elem_of_singleton. auto.
  - destruct (decide (k = k0)) as [<-|Hne].
    + intros [H|H]%elem_of_cons; [auto|]. right. right. exact H.
    + intros [H|H]%elem_of_cons.
      * right. rewrite H. left.
      * destruct (IH H) as [?|?]; [auto|]. right. right. assumption.
Qed.

Lemma usage_fold_entries user sts :
  ∀ acc k v,
    (k, v) ∈ by_server (fold_left (usage_step user) sts acc) →
    (k, v) ∈ by_server acc ∨
    ∃ st, st ∈ sts ∧ contributes user st ∧
          k = ServerStatus.server_id st ∧ v = matched user st.
Proof.
  induction sts as [|st sts IH]; intros acc k v Hin; simpl in *; [auto|].
  destruct (IH _ _ _ Hin) as [Hacc|(st' & Hst' & Hc & -> & ->)].
  - rewrite usage_step_spec in Hacc.
    destruct (decide (contributes user st)) as [Hc|Hc]; simpl in Hacc; [|auto].
    apply dict_set_elem in Hacc as [[= -> ->]|Hacc]; [|auto].
    right. exists st. split; [left|auto].
  - right. exists st'. split; [right; exact Hst'|auto].
Qed.

Lemma usage_entries_listed user cs now sid ps :
  (sid, ps) ∈ UserUsageSummary.processes_by_server (summarize user cs now) →
  ps ≠ [] ∧
  Forall (λ p, ProcessInfo.username p = user) ps ∧
  ∃ st, st ∈ ClusterStatus.servers cs ∧
        ServerStatus.server_id st = sid ∧
        ServerStatus.online st = true ∧
        ps = filter (λ p, ProcessInfo.username p = user)
               (ServerStatus.processes st).
Proof.
  unfold summarize. simpl. intros Hin.
  apply usage_fold_entries in Hin as [Hin|(st & Hst & [Hon Hm] & -> & ->)].
  - apply elem_of_nil in Hin. contradiction.
  - split; [exact Hm|]. split.
    + apply Forall_forall. intros p Hp'.
      apply list_elem_of_filter in Hp' as [Hu _]. exact Hu.
    + exists st. auto.
Qed.

(** X10: whatever the configuration and the state, every list of
    [processes_by_server] is the non-empty list of the processes with the
    asked user name of an online status of the cluster result carrying that
    server id, so no process of another user is ever listed;
    [total_processes] and [total_memory_used_mb] count every process with
    the asked name on the online servers of the result. *)
Theorem usage_lists_only_matching
    (user : string) (server_ids : option (list string)) (w w1 : World)
    (usage : UserUsageSummary.t) :
  get_user_usage remote config user server_ids w = Done (usage, w1) →
  ∃ cs,
    get_cluster_status remote config server_ids w = Done (cs, w1) ∧
    let sts := ClusterStatus.servers cs in
    let everything :=
      concat (map (matched user)
                (filter (λ st, ServerStatus.online st = true) sts)) in
    (∀ sid ps,
       (sid, ps) ∈ UserUsageSummary.processes_by_server usage →
       ps ≠ [] ∧
       Forall (λ p, ProcessInfo.username p = user) ps ∧
       ∃ st, st ∈ sts ∧ ServerStatus.server_id st = sid ∧
             ServerStatus.online st = true ∧
             ps = filter (λ p, ProcessInfo.username p = user)
                    (ServerStatus.processes st)) ∧
    UserUsageSummary.total_processes usage = length everything ∧
    UserUsageSummary.total_memory_used_mb usage
    = sumZ (map ProcessInfo.memory_used_mb everything).
Proof.
  intros (cs & Hcs & ->)%usage_done. exists cs. split; [exact Hcs|].
  intros sts everything. split.
  - intros sid ps Hin. apply (usage_entries_listed _ _ _ _ _ Hin).
  - subst everything. unfold summarize. simpl. fold sts.
    destruct (usage_fold_lists user sts
                {| user_processes := []; by_server := []; used := [] |})
      as [Hp _]. simpl in Hp.
    rewrite Hp, py_sum_sumZ, matched_concat. split; reflexivity.
Qed.

(** ** User names the parser cannot produce *)

Lemma usage_fold_none user sts :
  (∀ st, st ∈ sts → ¬ contributes user st) →
  ∀ acc, fold_left (usage_step user) sts acc = acc.
Proof.
  induction sts as [|st sts IH]; intros Hnone acc; simpl; [reflexivity|].
  rewrite usage_step_spec, decide_False by (apply Hnone; left).
  apply IH. intros st' Hst'. apply Hnone. right. exact Hst'.
Qed.

Lemma usage_of_nobody user server_ids w cs w1 :
  get_cluster_status remote config server_ids w = Done (cs, w1) →
  (∀ st, st ∈ ClusterStatus.servers cs → ¬ contributes user st) →
  get_user_usage remote config user server_ids w
  = Done (UserUsageSummary.mk user 0 0 [] [] (clock w1), w1) ∧
  kill_user_tasks remote config user server_ids true w
  = Done ([("message", "No processes found for user " +:+ user)], w1).
Proof.
  intros Hcs Hnone.
  assert (Hus : get_user_usage remote config user server_ids w
                = Done (UserUsageSummary.mk user 0 0 [] [] (clock w1), w1)).
  { rewrite (usage_of_status remote config user _ _ _ _ Hcs).
    unfold summarize. rewrite usage_fold_none by exact Hnone. reflexivity. }
  split; [exact Hus|].
  rewrite (kill_of_usage remote config user _ _ _ _ Hus). reflexivity.
Qed.

(** X11: a user whose name is empty or contains a character that is not a
    letter, a digit or the underscore is never found: in every reachable
    state, when the poll returns, the usage is empty and a confirmed kill
    answers that no processes were found and sends no termination
    command. *)
Theorem unparsable_user_is_invisible
    (user : string) (server_ids : option (list string)) (w w1 : World)
    (cs : ClusterStatus.t) :
  reachable remote config w →
  user = "" ∨ all_chars is_word user = false →
  get_cluster_status remote config server_ids w = Done (cs, w1) →
  get_user_usage remote config user server_ids w
  = Done (UserUsageSummary.mk user 0 0 [] [] (clock w1), w1) ∧
  kill_user_tasks remote config user server_ids true w
  = Done ([("message", "No processes found for user " +:+ user)], w1).
Proof.
  intros Hreach Hbad Hcs. apply (usage_of_nobody user _ _ cs w1 Hcs).
  intros st Hst [_ Hm].
  destruct (cluster_status_sane _ _ _ _ (reachable_sane w Hreach) Hcs)
    as [_ Hparsed].
  rewrite Forall_forall in Hparsed. destruct (Hparsed st Hst) as [_ Hprocs].
  destruct (matched user st) as [|p ps] eqn:Hmatched; [contradiction|].
  assert (Hp : p ∈ matched user st) by (rewrite Hmatched; left).
  apply list_elem_of_filter in Hp as [Hname Hin].
  rewrite Forall_forall in Hprocs.
  destruct (Hprocs p Hin) as (_ & _ & _ & Hne & Hword).
  rewrite Hname in Hne, Hword. destruct Hbad; congruence.
Qed.

(** X12: when no online status of the cluster result holds a process of
    the user, a confirmed kill returns the single entry "No processes found
    for user ..." and leaves the state as the status query left it: no
    termination command is sent. *)
Theorem kill_without_processes
    (user : string) (server_ids : option (list string)) (w w1 : World)
    (cs : ClusterStatus.t) :
  get_cluster_status remote config server_ids w = Done (cs, w1) →
  (∀ st, st ∈ ClusterStatus.servers cs →
         ServerStatus.online st = true →
         Forall (λ p, ProcessInfo.username p ≠ user)
           (ServerStatus.processes st)) →
  kill_user_tasks remote config user server_ids true w
  = Done ([("message", "No processes found for user " +:+ user)], w1).
Proof.
  intros Hcs Hnone. apply (usage_of_nobody user _ _ cs w1 Hcs).
  intros st Hst [Hon Hm]. specialize (Hnone st Hst Hon).
  destruct (matched user st) as [|p ps] eqn:Hmatched; [contradiction|].
  assert (Hp : p ∈ matched user st) by (rewrite Hmatched; left).
  apply list_elem_of_filter in Hp as [Hname Hin].
  rewrite Forall_forall in Hnone. exact (Hnone p Hin Hname).
Qed.

(** ** The commands and the result of a kill *)

Lemma find_first {A} (f : A → bool) (l : list A) (x : A) :
  List.find f l = Some x →
  ∃ before after,
    l = before ++ x :: after ∧ f x = true ∧ Forall (λ y, f y = false) before.
Proof.
  induction l as [|y l IH]; simpl; [discriminate|].
  destruct (f y) eqn:Hy.
  - intros [= <-]. exists [], l. split; [reflexivity|]. split; [exact Hy|constructor].
  - intros (before & after & -> & Hx & Hall)%IH.
    exists (y :: before), after. split; [reflexivity|].
    split; [exact Hx|]. constructor; assumption.
Qed.

Lemma config_lookup_first server_id server :
  config_lookup config server_id = Some server →
  first_with_id config server_id server.
Proof.
  intros (before & after & Hl & Hx & Hall)%find_first.
  exists before, after. split; [exact Hl|].
  split; [apply bool_decide_eq_true in Hx; exact Hx|].
  eapply Forall_impl; [exact Hall|]. intros y Hy.
  apply bool_decide_eq_false in Hy. exact Hy.
Qed.

Lemma first_is_configured server_id server :
  first_with_id config server_id server → configured config server_id.
Proof.
  intros (before & after & Hl & <- & _). unfold configured. rewrite Hl.
  apply (list_elem_of_fmap_2 ServerConfig.id).
  apply elem_of_app. right. left.
Qed.

Lemma config_lookup_none server_id :
  config_lookup config server_id = None → ¬ configured config server_id.
Proof.
  intros Hnone Hconf.
  destruct (config_lookup_some config server_id Hconf) as [server Hsome].
  rewrite Hsome in Hnone. discriminate Hnone.
Qed.

Lemma kill_step_commands results w item :
  let acc1 := kill_step remote config (results, w) item in
  clock w ≤ clock acc1.2 ∧
  match config_lookup config item.1 with
  | Some server =>
      configured config item.1 ∧
      ∃ cmd, ssh_log acc1.2 = ssh_log w ++ [cmd] ∧ kills config item cmd
  | None => ¬ configured config item.1 ∧ ssh_log acc1.2 = ssh_log w
  end.
Proof.
  destruct item as [sid procs]. simpl.
  destruct (config_lookup config sid) as [server|] eqn:Hlook.
  - pose proof (run_ssh_world remote config (ServerConfig.hostname server)
                  (kill_command procs) w) as (_ & Hl & Ht).
    pose proof (config_lookup_first _ _ Hlook) as Hfirst.
    destruct (_run_ssh_command remote config _ _ w)
      as [[[success output] rt] w1]. simpl in Hl, Ht.
    assert (Hcmd : kills config (sid, procs)
                     (ServerConfig.hostname server, kill_command procs)).
    { split; [exists server; auto|reflexivity]. }
    destruct success; simpl; (split; [exact Ht|]);
      (split; [exact (first_is_configured _ _ Hfirst)|]); eauto.
  - split; [simpl; lia|]. split; [apply config_lookup_none, Hlook|reflexivity].
Qed.

(** The commands of the kill loop: one for each entry whose server id is
    configured, in the order of the entries. *)
Lemma kill_loop_commands items :
  ∀ results w,
    let acc' := fold_left (kill_step remote config) items (results, w) in
    clock w ≤ clock acc'.2 ∧
    ∃ cmds,
      ssh_log acc'.2 = ssh_log w ++ cmds ∧
      Forall2 (kills config)
        (filter (λ item, configured config item.1) items) cmds.
Proof.
  induction items as [|item items IH]; intros results w.
  - simpl. split; [lia|]. exists []. rewrite app_nil_r.
    split; [reflexivity|constructor].
  - cbn [fold_left].
    destruct (kill_step_commands results w item) as [Ht Hstep].
    destruct (kill_step remote config (results, w) item) as [results1 w1].
    destruct (IH results1 w1) as (Ht' & cmds & Hl' & Hcmds).
    cbn [fst snd] in *. split; [lia|].
    destruct (config_lookup config item.1) as [server|].
    + destruct Hstep as (Hconf & cmd & Hl & Hcmd).
      exists (cmd :: cmds). rewrite Hl', Hl, <- app_assoc.
      split; [reflexivity|]. rewrite filter_cons_True by exact Hconf.
      constructor; assumption.
    + destruct Hstep as [Hconf Hl].
      exists cmds. rewrite Hl', Hl. split; [reflexivity|].
      rewrite filter_cons_False by exact Hconf. exact Hcmds.
Qed.

Lemma kill_step_keys results w sid procs :
  dict_keys (kill_step remote config (results, w) (sid, procs)).1
  = dict_keys (dict_set sid "" results).
Proof.
  assert (Hk : ∀ v v' : string,
            dict_keys (dict_set sid v results)
            = dict_keys (dict_set sid v' results)).
  { intros v v'. unfold dict_keys.
    induction results as [|[k0 v0] d IH]; simpl; [reflexivity|].
    destruct (decide (sid = k0)); simpl; [reflexivity|]. f_equal. exact IH. }
  simpl. destruct (config_lookup config sid) as [server|]; [|apply Hk].
  destruct (_run_ssh_command remote config _ _ w) as [[[success output] rt] w1].
  destruct success; apply Hk.
Qed.

Lemma kill_loop_keys items :
  NoDup items.*1 →
  ∀ results w,
    (∀ k, k ∈ items.*1 → k ∉ dict_keys results) →
    dict_keys (fold_left (kill_step remote config) items (results, w)).1
    = dict_keys results ++ items.*1.
Proof.
  induction items as [|[sid procs] items IH]; intros Hnd results w Hfresh.
  - simpl. rewrite app_nil_r. reflexivity.
  - simpl in Hnd. apply NoDup_cons in Hnd as [Hsid Hnd]. cbn [fold_left].
    pose proof (kill_step_keys results w sid procs) as Hk.
    rewrite dict_set_fresh in Hk by (apply Hfresh; left).
    destruct (kill_step remote config (results, w) (sid, procs))
      as [results1 w1]. simpl in Hk.
    rewrite IH; [|assumption|].
    + rewrite Hk. unfold dict_keys. rewrite fmap_app, <- app_assoc. reflexivity.
    + intros k Hin. rewrite Hk. unfold dict_keys. rewrite fmap_app.
      intros [H|H%list_elem_of_singleton]%elem_of_app.
      * apply (Hfresh k); [right; exact Hin|exact H].
      * simpl in H. subst k. contradiction.
Qed.

(** What [kill_user_tasks] does once the usage is there. *)
Lemma kill_listed_commands user cs now w1 :
  let usage := summarize user cs now in
  let items := UserUsageSummary.processes_by_server usage in
  let r := kill_listed remote config user usage w1 in
  clock w1 ≤ clock r.2 ∧
  (∃ cmds,
     ssh_log r.2 = ssh_log w1 ++ cmds ∧
     Forall2 (kills config)
       (filter (λ item, configured config item.1) items) cmds) ∧
  (items ≠ [] → dict_keys r.1 = dict_keys items) ∧
  (∀ other, other ∉ dict_keys items →
            _cache r.2 !! cache_key other = _cache w1 !! cache_key other).
Proof.
  cbv zeta. unfold kill_listed.
  pose proof (usage_keys_NoDup user cs now) as Hnd.
  destruct (UserUsageSummary.processes_by_server (summarize user cs now))
    as [|item items] eqn:E.
  - simpl. split; [lia|]. split.
    + exists []. rewrite app_nil_r. split; [reflexivity|constructor].
    + split; [intros H; contradiction|reflexivity].
  - destruct (kill_loop_commands (item :: items) [] w1) as [Ht Hcmds].
    pose proof (kill_loop_keys (item :: items) Hnd [] w1) as Hk.
    split; [exact Ht|]. split; [exact Hcmds|]. split.
    + intros _. apply Hk. intros k _. apply not_elem_of_nil.
    + intros other Hother.
      apply (kill_loop_frame remote config (item :: items) other Hother [] w1).
Qed.

(** X13: after its usage query has returned, a confirmed kill sends exactly
    the termination commands of the usage dictionary: for each entry whose
    server id is configured, in the order of the dictionary, one command
    that goes to the host of the first configured server with that id and
    reads "kill -9 " followed by the pids listed for that id, separated by
    single spaces; all of them are pids of processes of the asked user.
    When there are matching processes the result has exactly the keys of
    the usage dictionary.  The clock is not turned back and the cache entry
    of a server id without matching processes is left as it was. *)
Theorem kill_sends_only_listed_pids
    (user : string) (server_ids : option (list string)) (w w1 : World)
    (usage : UserUsageSummary.t) :
  get_user_usage remote config user server_ids w = Done (usage, w1) →
  let items := UserUsageSummary.processes_by_server usage in
  ∃ results w2 cmds,
    kill_user_tasks remote config user server_ids true w
    = Done (results, w2) ∧
    ssh_log w2 = ssh_log w1 ++ cmds ∧
    Forall2 (kills config)
      (filter (λ item, configured config item.1) items) cmds ∧
    (items ≠ [] → dict_keys results = dict_keys items) ∧
    (∀ sid ps, (sid, ps) ∈ items →
               Forall (λ p, ProcessInfo.username p = user) ps) ∧
    clock w1 ≤ clock w2 ∧
    (∀ other, other ∉ dict_keys items →
              _cache w2 !! cache_key other = _cache w1 !! cache_key other).
Proof.
  intros Hus items.
  pose proof (kill_of_usage remote config user _ _ _ _ Hus) as Hk.
  apply usage_done in Hus as (cs & _ & Husage).
  subst items. rewrite Husage in *.
  destruct (kill_listed_commands user cs (clock w1) w1)
    as (Ht & (cmds & Hl & Hcmds) & Hkeys & Hframe).
  destruct (kill_listed remote config user _ w1) as [results w2].
  exists results, w2, cmds. cbn [fst snd] in *.
  split; [exact Hk|]. split; [exact Hl|]. split; [exact Hcmds|].
  split; [exact Hkeys|]. split; [|split; assumption].
  intros sid ps Hin. apply (usage_entries_listed _ _ _ _ _ Hin).
Qed.

Lemma filter_Forall_id {A} (P : A → Prop) `{∀ x, Decision (P x)} (l : list A) :
  Forall P l → filter P l = l.
Proof.
  induction 1 as [|x l Hx _ IH]; [reflexivity|].
  rewrite filter_cons_True by exact Hx. rewrite IH. reflexivity.
Qed.

Lemma dict_set_Forall {V} (P : string * V → Prop) k v d :
  Forall P d → P (k, v) → Forall P (dict_set k v d).
Proof.
  intros Hd Hv. induction Hd as [|[k0 v0] d H0 Hd IH]; simpl.
  - constructor; [exact Hv|constructor].
  - destruct (decide (k = k0)); constructor; assumption.
Qed.

Lemma kill_step_found results w item :
  configured config item.1 →
  Forall (λ entry, entry.2 ≠ "Server config not found") results →
  Forall (λ entry, entry.2 ≠ "Server config not found")
    (kill_step remote config (results, w) item).1.
Proof.
  destruct item as [sid procs]. simpl. intros Hconf Hres.
  destruct (config_lookup config sid) as [server|] eqn:Hlook.
  - destruct (_run_ssh_command remote config _ _ w)
      as [[[success output] rt] w1].
    destruct success; simpl; apply dict_set_Forall; try exact Hres;
      simpl; discriminate.
  - exfalso. exact (config_lookup_none _ Hlook Hconf).
Qed.

Lemma kill_loop_found items :
  Forall (λ item, configured config item.1) items →
  ∀ results w,
    Forall (λ entry, entry.2 ≠ "Server config not found") results →
    Forall (λ entry, entry.2 ≠ "Server config not found")
      (fold_left (kill_step remote config) items (results, w)).1.
Proof.
  induction 1 as [|item items Hitem _ IH]; intros results w Hres; [exact Hres|].
  cbn [fold_left].
  pose proof (kill_step_found results w item Hitem Hres) as Hstep.
  destruct (kill_step remote config (results, w) item) as [results1 w1].
  apply IH, Hstep.
Qed.

(** X14: in a reachable state every key of the usage dictionary is the id
    of a configured server, so a confirmed kill sends one termination
    command for every server id with matching processes, to the host of
    the first configured server with that id and with the pids listed for
    it, and no entry of its result says "Server config not found". *)
Theorem kill_reaches_every_listed_server
    (user : string) (server_ids : option (list string)) (w w1 : World)
    (usage : UserUsageSummary.t) :
  reachable remote config w →
  get_user_usage remote config user server_ids w = Done (usage, w1) →
  let items := UserUsageSummary.processes_by_server usage in
  Forall (λ item, configured config item.1) items ∧
  ∃ results w2 cmds,
    kill_user_tasks remote config user server_ids true w
    = Done (results, w2) ∧
    ssh_log w2 = ssh_log w1 ++ cmds ∧
    Forall2 (kills config) items cmds ∧
    Forall (λ entry, entry.2 ≠ "Server config not found") results.
Proof.
  intros Hreach Hus items.
  assert (Hall : Forall (λ item, configured config item.1) items).
  { apply Forall_forall. intros [sid ps] Hin. simpl.
    apply (usage_keys_configured remote config user server_ids w usage w1 sid
             (reachable_cache_ok remote config w Hreach) Hus).
    apply (list_elem_of_fmap_2 fst) in Hin. exact Hin. }
  split; [exact Hall|].
  pose proof (kill_of_usage remote config user _ _ _ _ Hus) as Hk.
  apply usage_done in Hus as (cs & _ & Husage).
  subst items. rewrite Husage in *.
  destruct (kill_listed_commands user cs (clock w1) w1)
    as (_ & (cmds & Hl & Hcmds) & _).
  rewrite (filter_Forall_id _ _ Hall) in Hcmds.
  assert (Hfound : Forall (λ entry, entry.2 ≠ "Server config not found")
                     (kill_listed remote config user
                        (summarize user cs (clock w1)) w1).1).
  { unfold kill_listed.
    destruct (UserUsageSummary.processes_by_server
                (summarize user cs (clock w1))) as [|item rest].
    - constructor; [simpl; discriminate|constructor].
    - apply (kill_loop_found (item :: rest) Hall). constructor. }
  destruct (kill_listed remote config user _ w1) as [results w2].
  exists results, w2, cmds. cbn [fst snd] in *. auto.
Qed.

(** ** After a kill *)

Lemma kill_step_own results w sid procs :
  dict_get sid (kill_step remote config (results, w) (sid, procs)).1
  = dict_get sid (kill_step remote config ([], w) (sid, procs)).1 ∧
  (kill_step remote config (results, w) (sid, procs)).2
  = (kill_step remote config ([], w) (sid, procs)).2.
Proof.
  simpl. destruct (config_lookup config sid) as [server|].
  - destruct (_run_ssh_command remote config _ _ w)
      as [[[success output] rt] w1].
    destruct success; simpl; rewrite dict_get_set_eq, decide_True by reflexivity;
      auto.
  - simpl. rewrite dict_get_set_eq, decide_True by reflexivity. auto.
Qed.

(** The entry of the result for a server id and the server's cache entry
    when the loop is over are those its own turn of the loop produced. *)
Lemma kill_loop_entry items :
  NoDup items.*1 →
  ∀ results w sid procs,
    (sid, procs) ∈ items →
    let acc' := fold_left (kill_step remote config) items (results, w) in
    ∃ before,
      _cache before !! cache_key sid = _cache w !! cache_key sid ∧
      dict_get sid acc'.1
      = dict_get sid (kill_step remote config ([], before) (sid, procs)).1 ∧
      _cache acc'.2 !! cache_key sid
      = _cache (kill_step remote config ([], before) (sid, procs)).2
          !! cache_key sid.
Proof.
  induction items as [|[sid0 procs0] items IH];
    intros Hnd results w sid procs Hin.
  - apply elem_of_nil in Hin. contradiction.
  - simpl in Hnd. apply NoDup_cons in Hnd as [Hfresh Hnd].
    cbn [fold_left]. apply elem_of_cons in Hin as [[= -> ->]|Hin].
    + destruct (kill_step_own results w sid0 procs0) as [Hown Hw].
      pose proof (kill_loop_frame remote config items sid0 Hfresh) as Hframe.
      destruct (kill_step remote config (results, w) (sid0, procs0))
        as [results1 w1].
      destruct (Hframe results1 w1) as [Hr Hc]. simpl in Hown, Hw, Hr, Hc.
      exists w. split; [reflexivity|]. simpl. rewrite Hr, Hc, Hown, Hw. auto.
    + assert (Hne : sid ≠ sid0).
      { intros ->. apply Hfresh. apply (list_elem_of_fmap_2 fst) in Hin.
        exact Hin. }
      destruct (kill_step_frame remote config results w sid0 procs0 sid Hne)
        as [_ Hc].
      destruct (kill_step remote config (results, w) (sid0, procs0))
        as [results1 w1]. simpl in Hc.
      destruct (IH Hnd results1 w1 sid procs Hin) as (before & Hb & H1 & H2).
      exists before. rewrite <- Hc. auto.
Qed.

(** A resolution of a server that has no cache entry queries the host. *)
Lemma resolve_absent server w :
  0 < _semaphore config →
  _cache w !! cache_key (ServerConfig.id server) = None →
  _get_server_status remote config server w
  = Done (Return (fresh_status remote config server w).1,
          (fresh_status remote config server w).2).
Proof.
  intros Hpermit Hnone. unfold _get_server_status.
  replace (_semaphore config <=? 0) with false
    by (symmetry; apply Z.leb_gt, Hpermit).
  unfold begin_status, fresh_status, _is_cache_valid. rewrite Hnone.
  destruct (send_command remote config _ _ w) as [call w1].
  destruct (end_status config server call w1). reflexivity.
Qed.

(** A poll that selects no server finds no process. *)
Lemma usage_of_nothing user server_ids w usage w1 :
  servers_to_check config server_ids = [] →
  get_user_usage remote config user server_ids w = Done (usage, w1) →
  UserUsageSummary.processes_by_server usage = [].
Proof.
  intros Hsel (cs & (rs & _ & ->)%cluster_status_done & ->)%usage_done.
  rewrite Hsel. reflexivity.
Qed.

(** X15: when the result of a confirmed kill says "Killed ..." for a server
    id, the cache has no entry for that id when the call returns, and the
    next resolution of a server with that id, whenever it is made and
    whatever [cache_ttl] is, queries the host again. *)
Theorem killed_server_is_polled_again
    (user : string) (server_ids : option (list string)) (w w2 : World)
    (results : pydict string)
    (server : ServerConfig.t) (msg : string) (d : N) :
  kill_user_tasks remote config user server_ids true w = Done (results, w2) →
  dict_get (ServerConfig.id server) results = Some msg →
  starts_with "Killed" msg = true →
  _cache w2 !! cache_key (ServerConfig.id server) = None ∧
  _get_server_status remote config server (tick d w2)
  = Done (Return (fresh_status remote config server (tick d w2)).1,
          (fresh_status remote config server (tick d w2)).2).
Proof.
  intros (usage & w1 & Hus & Hkl)%kill_done Hget Hkilled.
  assert (Hitems : UserUsageSummary.processes_by_server usage ≠ []).
  { intros E. unfold kill_listed in Hkl. rewrite E in Hkl.
    injection Hkl as <- _. simpl in Hget.
    destruct (decide (ServerConfig.id server = "message")); [|discriminate].
    injection Hget as <-. cbv in Hkilled. discriminate Hkilled. }
  assert (Hpermit : 0 < _semaphore config).
  { destruct (usage_done remote config _ _ _ _ _ Hus) as (cs & Hcs & _).
    destruct (cluster_status_can_return remote config _ _ _ _ Hcs)
      as [Hp|Hsel]; [exact Hp|].
    exfalso. apply Hitems. apply (usage_of_nothing _ _ _ _ _ Hsel Hus). }
  assert (Hgone : _cache w2 !! cache_key (ServerConfig.id server) = None).
  { assert (Hnd : NoDup (dict_keys (UserUsageSummary.processes_by_server usage))).
    { apply usage_done in Hus as (cs & _ & ->). apply usage_keys_NoDup. }
    unfold kill_listed in Hkl.
    destruct (UserUsageSummary.processes_by_server usage) as [|item items] eqn:E;
      [contradiction|].
    pose proof (kill_loop_keys (item :: items) Hnd [] w1) as Hkeys.
    replace results
      with (fold_left (kill_step remote config) (item :: items) ([], w1)).1
      in Hget by (rewrite Hkl; reflexivity).
    replace w2
      with (fold_left (kill_step remote config) (item :: items) ([], w1)).2
      by (rewrite Hkl; reflexivity).
    clear Hkl.
    assert (Hin : ServerConfig.id server ∈ (item :: items).*1).
    { rewrite <- (app_nil_l ((item :: items).*1)).
      change (@nil string) with (dict_keys (@nil (string * string))).
      rewrite <- Hkeys by (intros k _; apply not_elem_of_nil).
      clear -Hget. unfold dict_keys.
      induction (fold_left _ _ _).1 as [|[k v] l IH]; simpl in *;
        [discriminate|].
      destruct (decide (ServerConfig.id server = k)) as [->|Hne]; [left|].
      right. apply IH, Hget. }
    apply list_elem_of_fmap in Hin as ([sid procs] & Hsid & Hin).
    simpl in Hsid. subst sid.
    destruct (kill_loop_entry (item :: items) Hnd [] w1 _ procs Hin)
      as (before & _ & Hres & Hcache).
    etrans; [exact Hcache|].
    pose proof (eq_trans (eq_sym Hres) Hget) as Hown.
    clear Hres Hcache Hget Hkeys. rename Hown into Hget.
    simpl in *.
    destruct (config_lookup config (ServerConfig.id server)) as [srv|].
    - destruct (_run_ssh_command remote config _ _ before)
        as [[[success output] rt] wb].
      destruct success; simpl in *.
      + apply lookup_delete_eq.
      + rewrite decide_True in Hget by reflexivity. injection Hget as <-.
        cbv in Hkilled. discriminate Hkilled.
    - simpl in Hget. rewrite decide_True in Hget by reflexivity.
      injection Hget as <-. cbv in Hkilled. discriminate Hkilled. }
  split; [exact Hgone|].
  apply resolve_absent; [exact Hpermit|exact Hgone].
Qed.

(** ** The cache primitives *)

(** X16: what [_set_cache] stores is what [_get_cached] returns; for a
    numeric [ttl] the entry is valid exactly while less than [ttl] has
    passed since it was stored, so never when [ttl] is zero or negative;
    entries under other keys are not affected; and once the entry is
    removed the key is not valid, whatever [ttl] is, and holds nothing. *)
Theorem cache_round_trip
    (key other : string) (data : ServerStatus.t) (ttl : Z) (any_ttl : PyVal)
    (d : N) (w : World) :
  let stored := tick d (_set_cache key data w) in
  _get_cached key stored = Some data ∧
  _is_cache_valid key (PyNum ttl) stored = Return (bool_decide (Z.of_N d < ttl)) ∧
  (other ≠ key →
   _get_cached other stored = _get_cached other w ∧
   _cache stored !! other = _cache w !! other) ∧
  _is_cache_valid key any_ttl (invalidate key stored) = Return false ∧
  _get_cached key (invalidate key stored) = None.
Proof.
  unfold _get_cached, _is_cache_valid. simpl.
  rewrite lookup_insert_eq, lookup_delete_eq.
  split; [reflexivity|]. split.
  - f_equal. apply bool_decide_ext. lia.
  - split; [|auto]. intros Hne. rewrite lookup_insert_ne by congruence. auto.
Qed.

(** ** The permits *)

Lemma semaphore_permits n :
  setting config "max_concurrent" (PyNum 4) = PyNum n → 0 ≤ n →
  _semaphore config = n.
Proof.
  intros Hmax Hpos. unfold _semaphore, semaphore. rewrite Hmax.
  replace (n <? 0) with false by (symmetry; apply Z.ltb_ge; lia).
  reflexivity.
Qed.

(** Whether a poll returns depends on the permits alone.  A poll returns
    when the semaphore has a permit or no server is selected, in whatever
    order the replies arrive, and with no permit and a server selected it
    never does; the same holds of the usage query and of a confirmed
    kill. *)
Lemma poll_returns_iff_permit
    (user : string) (server_ids : option (list string)) (w : World) :
  let can := 0 < _semaphore config ∨ servers_to_check config server_ids = [] in
  (can ↔ ∃ cs w1, get_cluster_status remote config server_ids w = Done (cs, w1)) ∧
  (¬ can ↔ get_cluster_status remote config server_ids w = Blocked) ∧
  (can ↔ ∃ usage w1,
           get_user_usage remote config user server_ids w = Done (usage, w1)) ∧
  (can ↔ ∃ results w2,
           kill_user_tasks remote config user server_ids true w
           = Done (results, w2)).
Proof.
  intros can.
  assert (H1 : can ↔ ∃ cs w1,
            get_cluster_status remote config server_ids w = Done (cs, w1)).
  { split; [apply cluster_status_returns|].
    intros (cs & w1 & H). apply (cluster_status_can_return _ _ _ _ _ _ H). }
  split; [exact H1|]. split; [|split].
  - split.
    + intros Hno. apply cluster_status_blocked.
      * destruct (decide (0 < _semaphore config)); [|lia].
        exfalso. apply Hno. left. assumption.
      * intros Hsel. apply Hno. right. exact Hsel.
    + intros Hb (cs & w1 & H)%H1. rewrite H in Hb. discriminate Hb.
  - rewrite H1. split.
    + intros (cs & w1 & H). eexists _, w1.
      apply (usage_of_status remote config user _ _ _ _ H).
    + intros (usage & w1 & (cs & H & _)%usage_done). eauto.
  - rewrite H1. split.
    + intros (cs & w1 & H).
      pose proof (usage_of_status remote config user _ _ _ _ H) as Hus.
      pose proof (kill_of_usage remote config user _ _ _ _ Hus) as Hk.
      destruct (kill_listed remote config user _ w1) as [results w2].
      eauto.
    + intros (results & w2 & (usage & w1 & (cs & H & _)%usage_done & _)%kill_done).
      eauto.
Qed.

End EngineFacts.

(** * The module-level functions *)

Section CoreFacts.
Variable remote : Remote.

Lemma all_or_selection config server_id :
  servers_to_check config (all_or server_id)
  = filter (λ s, server_id = "all" ∨ ServerConfig.id s = server_id)
      (ClusterConfig.servers config).
Proof.
  rewrite servers_to_check_passes. unfold all_or.
  apply list_filter_iff. intros s.
  destruct (decide (server_id = "all")) as [->|Hne]; simpl.
  - split; auto.
  - split.
    + intros [[=]|Hin]. apply list_elem_of_singleton in Hin. auto.
    + intros [?|<-]; [contradiction|]. right. left.
Qed.

Lemma new_monitor_cases file env :
  match new_monitor file env with
  | Return (m, w) =>
      _load_config file = Return (monitor_config m) ∧
      (∃ n, setting (monitor_config m) "max_concurrent" (PyNum 4) = PyNum n ∧
            0 ≤ n ∧ _semaphore (monitor_config m) = n) ∧
      w = {| _cache := ∅; clock := clock env; ssh_log := ssh_log env |}
  | Raise e => True
  end.
Proof.
  unfold new_monitor. destruct (_load_config file) as [config|e]; [|exact I].
  unfold _semaphore, semaphore.
  destruct (setting config "max_concurrent" (PyNum 4)) as [n|s] eqn:Hn;
    [|exact I].
  destruct (n <? 0) eqn:Hneg; [exact I|]. simpl.
  apply Z.ltb_ge in Hneg. rewrite Hn.
  replace (n <? 0) with false by (symmetry; apply Z.ltb_ge; lia).
  eauto 10.
Qed.

Lemma new_monitor_loaded file env config n :
  _load_config file = Return config →
  setting config "max_concurrent" (PyNum 4) = PyNum n → 0 ≤ n →
  new_monitor file env
  = Return ({| monitor_config := config |},
            {| _cache := ∅; clock := clock env; ssh_log := ssh_log env |}).
Proof.
  intros Hload Hmax Hpos. unfold new_monitor, semaphore. rewrite Hload, Hmax.
  replace (n <? 0) with false by (symmetry; apply Z.ltb_ge; lia).
  reflexivity.
Qed.

Lemma empty_cache_ok t log : cache_ok {| _cache := ∅; clock := t; ssh_log := log |}.
Proof. intros key st ts. simpl. rewrite lookup_empty. discriminate. Qed.

(** X17: [check_gpu_status] builds a new monitor at every call, so nothing
    is served from a cache: when the configuration loads (or is missing and
    replaced by the built-in one), its ids are pairwise distinct and
    [max_concurrent] is a positive number, the call returns, it has queried
    every selected server exactly once, in configuration order, and the
    result lists exactly those servers: all of them for "all", otherwise
    those whose id is the one asked for. *)
Theorem check_gpu_status_always_polls
    (server_id : string) (file : ConfigFile) (env : World)
    (config : ClusterConfig.t) (n : Z) :
  _load_config file = Return config →
  unique_ids config →
  setting config "max_concurrent" (PyNum 4) = PyNum n →
  0 < n →
  let selected :=
    filter (λ s, server_id = "all" ∨ ServerConfig.id s = server_id)
      (ClusterConfig.servers config) in
  ∃ cs w,
    Core.check_gpu_status remote server_id file env = Done (cs, w) ∧
    ssh_log w = ssh_log env ++ map status_query selected ∧
    map ServerStatus.server_id (ClusterStatus.servers cs)
    = map ServerConfig.id selected.
Proof.
  intros Hload Huniq Hmax Hpos selected. subst selected.
  rewrite <- all_or_selection.
  unfold Core.check_gpu_status.
  rewrite (new_monitor_loaded file env config n Hload Hmax) by lia.
  cbn [monitor_config].
  set (w0 := {| _cache := ∅; clock := clock env; ssh_log := ssh_log env |}).
  assert (Hpermit : 0 < _semaphore config)
    by (rewrite (semaphore_permits config n Hmax); lia).
  destruct (cluster_status_returns remote config (all_or server_id) w0
              (or_introl Hpermit)) as (cs & w & Hcs).
  exists cs, w. split; [exact Hcs|].
  assert (Hnone : ∀ server, server ∈ servers_to_check config (all_or server_id) →
            _cache w0 !! cache_key (ServerConfig.id server) = None)
    by (intros; apply lookup_empty).
  split.
  - destruct (cluster_status_done remote config _ _ _ _ Hcs) as (rs & Hg & _).
    assert (Hnd : NoDup (map ServerConfig.id
                           (servers_to_check config (all_or server_id)))).
    { rewrite servers_to_check_passes. apply NoDup_map_filter, Huniq. }
    apply (gather_fresh remote config _ _ _ _ Hnd Hnone Hg).
  - apply (cluster_status_ids remote config _ w0 cs w); [|exact Hcs].
    apply empty_cache_ok.
Qed.

(** X18: the module-level [kill_user_tasks] without confirmation never
    sends a command and never waits: it returns the single error entry when
    a monitor can be built, and raises when it cannot, which is when the
    configuration file is unusable or [max_concurrent] is negative or not a
    number. *)
Theorem module_kill_needs_confirm
    (username server_id : string) (file : ConfigFile) (env : World) :
  match Core.kill_user_tasks remote username server_id false file env with
  | Done (results, w) =>
      results = [("error", "Must set confirm=True to kill user tasks")] ∧
      ssh_log w = ssh_log env ∧ clock w = clock env ∧
      ∃ config n, _load_config file = Return config ∧
                  setting config "max_concurrent" (PyNum 4) = PyNum n ∧ 0 ≤ n
  | Raised e =>
      _load_config file = Raise e ∨
      ∃ config, _load_config file = Return config ∧
                semaphore (setting config "max_concurrent" (PyNum 4)) = Raise e
  | Blocked => False
  end.
Proof.
  unfold Core.kill_user_tasks.
  pose proof (new_monitor_cases file env) as Hm.
  unfold new_monitor in *.
  destruct (_load_config file) as [config|e]; [|auto].
  destruct (semaphore (setting config "max_concurrent" (PyNum 4)))
    as [permits|e] eqn:Hsem; [|eauto].
  simpl in *. destruct Hm as (_ & (n & Hmax & Hpos & _) & _).
  repeat split; eauto.
Qed.

(** X20: [check_user_usage] is [check_gpu_status] followed by the selection
    of the user's processes.  For a configuration that loads with pairwise
    distinct ids, it raises when the status check raises, waits for ever
    when the status check does, and otherwise leaves the surroundings as
    the status check leaves them and lists, for each online server of the
    status result with a process of the user, in order, the processes of
    that user; the totals count those processes. *)
Theorem check_user_usage_follows_status
    (username server_id : string) (file : ConfigFile) (env : World)
    (config : ClusterConfig.t) :
  _load_config file = Return config →
  unique_ids config →
  match Core.check_gpu_status remote server_id file env with
  | Done (cs, w) =>
      ∃ usage,
        Core.check_user_usage remote username server_id file env
        = Done (usage, w) ∧
        let found := filter (contributes username) (ClusterStatus.servers cs) in
        UserUsageSummary.username usage = username ∧
        UserUsageSummary.processes_by_server usage
        = map (λ st, (ServerStatus.server_id st, matched username st)) found ∧
        UserUsageSummary.servers_used usage
        = map ServerStatus.server_id found ∧
        UserUsageSummary.total_processes usage
        = length (concat (map (matched username) found)) ∧
        UserUsageSummary.total_memory_used_mb usage
        = sumZ (map ProcessInfo.memory_used_mb
                  (concat (map (matched username) found)))
  | Raised e =>
      Core.check_user_usage remote username server_id file env = Raised e
  | Blocked =>
      Core.check_user_usage remote username server_id file env = Blocked
  end.
Proof.
  intros Hload Huniq.
  unfold Core.check_gpu_status, Core.check_user_usage, new_monitor.
  rewrite Hload.
  destruct (semaphore (setting config "max_concurrent" (PyNum 4)))
    as [permits|e]; [|reflexivity].
  cbn [monitor_config].
  set (w0 := {| _cache := ∅; clock := clock env; ssh_log := ssh_log env |}).
  unfold get_user_usage.
  destruct (get_cluster_status remote config (all_or server_id) w0)
    as [[cs w]|e|] eqn:Hcs; [|reflexivity|reflexivity].
  eexists. split; [reflexivity|].
  pose proof (cluster_ids_NoDup remote config _ _ _ _
                (empty_cache_ok _ _) Huniq Hcs) as Hnd.
  split; [reflexivity|].
  apply (summarize_fields username cs (clock w) Hnd).
Qed.

End CoreFacts.

(** * The command line *)

Section CliFacts.
Variable remote : Remote.

Lemma sublist_Forall {A} (P : A → Prop) (l1 l2 : list A) :
  sublist l1 l2 → Forall P l2 → Forall P l1.
Proof.
  induction 1 as [|x l1 l2 _ IH|x l1 l2 _ IH]; intros Hall.
  - constructor.
  - apply Forall_cons in Hall as [Hx Hall]. constructor; auto.
  - apply Forall_cons in Hall as [_ Hall]. auto.
Qed.

Lemma usage_commands config user server_ids w usage w1 :
  get_user_usage remote config user server_ids w = Done (usage, w1) →
  ∃ cmds,
    ssh_log w1 = ssh_log w ++ cmds ∧
    Forall (λ cmd, cmd.2 = status_command) cmds.
Proof.
  intros (cs & (rs & Hg & _)%cluster_status_done & _)%usage_done.
  destruct (gather_spec remote config _ _ _ _ Hg)
    as (_ & _ & _ & (cmds & Hlog & Hsub) & _).
  exists cmds. split; [exact Hlog|].
  apply (sublist_Forall _ _ _ Hsub).
  apply Forall_forall. intros cmd Hin.
  apply list_elem_of_fmap in Hin as (s & -> & _). reflexivity.
Qed.

(** X19: the [kill] command of the command line never sends a termination
    command.  Whatever its options, every command it sends is a status
    query.  It ends normally only when no process of the user is found or
    when [--dry-run] is given; when processes are found and [--dry-run] is
    not given it stops with [UnboundLocalError] before it asks for
    confirmation, with or without [--confirm]. *)
Theorem cli_kill_never_kills
    (user server : option string) (confirm dry_run : bool)
    (env_user : option string) (file : ConfigFile) (env : World) :
  let run := Cli.kill remote user server confirm dry_run env_user file env in
  (∃ cmds, ssh_log (after run) = ssh_log env ++ cmds ∧
           Forall (λ cmd, cmd.2 = status_command) cmds) ∧
  (ending run = Done tt →
   dry_run = true ∨
   echoed run
   = [EchoNoProcesses (py_or user (get_current_user env_user))]) ∧
  (dry_run = false →
   ∀ username, EchoToKill username ∈ echoed run →
               ending run = Raised unbound_confirm) ∧
  run = Cli.kill remote user server (negb confirm) dry_run env_user file env.
Proof.
  unfold Cli.kill.
  pose proof (new_monitor_cases file env) as Hm.
  assert (Hquiet : ∃ cmds : list (string * string),
            ssh_log env = ssh_log env ++ cmds ∧
            Forall (λ cmd, cmd.2 = status_command) cmds)
    by (exists []; rewrite app_nil_r; split; [reflexivity|constructor]).
  destruct (new_monitor file env) as [[m w]|e]; simpl.
  - destruct Hm as (_ & _ & ->).
    set (w0 := {| _cache := ∅; clock := clock env; ssh_log := ssh_log env |}).
    pose proof (usage_commands (monitor_config m)
                  (py_or user (get_current_user env_user))
                  (one_or_all server) w0) as Hcmds.
    destruct (get_user_usage remote (monitor_config m) _ _ w0)
      as [[usage w1]|e|]; simpl.
    + destruct (Hcmds usage w1 eq_refl) as (cmds & Hlog & Hall).
      simpl in Hlog.
      destruct (UserUsageSummary.processes_by_server usage) as [|item items];
        simpl.
      * split; [eauto|]. split; [auto|]. split; [|reflexivity].
        intros _ u [H|H]%elem_of_cons; [discriminate|].
        apply elem_of_nil in H. contradiction.
      * destruct dry_run; simpl.
        -- split; [eauto|]. split; [auto|]. split; [discriminate|reflexivity].
        -- split; [eauto|]. split; [discriminate|]. split; [auto|reflexivity].
    + split; [exact Hquiet|]. split; [discriminate|]. split; [|reflexivity].
      intros _ u Hin. apply elem_of_nil in Hin. contradiction.
    + split; [exact Hquiet|]. split; [discriminate|]. split; [|reflexivity].
      intros _ u Hin. apply elem_of_nil in Hin. contradiction.
  - split; [exact Hquiet|]. split; [discriminate|]. split; [|reflexivity].
    intros _ u Hin. apply elem_of_nil in Hin. contradiction.
Qed.

End CliFacts.

(** * The server of the Model Context Protocol *)

Section McpFacts.
Variable remote : Remote.
Variable packaged : ConfigFile.

Lemma one_id_selection config server_id :
  servers_to_check config (Some [server_id])
  = filter (λ s, ServerConfig.id s = server_id) (ClusterConfig.servers config).
Proof.
  rewrite servers_to_check_passes. apply list_filter_iff. intros s. simpl.
  split.
  - intros [[=]|Hin]. apply list_elem_of_singleton in Hin. exact Hin.
  - intros ->. right. left.
Qed.

Lemma poll_shape config server_ids w cs w1 :
  cache_ok w →
  get_cluster_status remote config server_ids w = Done (cs, w1) →
  map ServerStatus.server_id (ClusterStatus.servers cs)
  = map ServerConfig.id (servers_to_check config server_ids) ∧
  Forall status_ok (ClusterStatus.servers cs) ∧
  (∃ cmds, ssh_log w1 = ssh_log w ++ cmds ∧
           sublist cmds (map status_query (servers_to_check config server_ids))) ∧
  (servers_to_check config server_ids = [] → w1 = w).
Proof.
  intros Hok Hcs.
  destruct (cluster_status_spec remote config _ _ _ _ Hok Hcs) as (_ & Hids & Hst).
  destruct (cluster_status_done remote config _ _ _ _ Hcs) as (rs & Hg & _).
  destruct (gather_spec remote config _ _ _ _ Hg) as (_ & _ & _ & Hlog & _).
  split; [exact Hids|]. split; [exact Hst|]. split; [exact Hlog|].
  intros Hsel. rewrite Hsel in Hg. injection Hg as _ ->. reflexivity.
Qed.

(** X21: the resource [gpu://status/{server_id}] of a server that has its
    monitor, whose semaphore has a permit, in a reachable state: when no
    configured server has the id asked for (the empty id is an id like any
    other here, not a way to ask for all servers), the answer is the error
    "Server ... not found", nothing is sent and nothing changes; otherwise
    the answer is a well-shaped status that carries the id asked for, and
    at most one query for each configured server with that id is sent.  The
    monitor is kept in both cases. *)
Theorem server_resource_answers
    (server_id : string) (m : Monitor) (w : World) :
  reachable remote (monitor_config m) w →
  0 < _semaphore (monitor_config m) →
  let matching :=
    filter (λ s, ServerConfig.id s = server_id)
      (ClusterConfig.servers (monitor_config m)) in
  ∃ res w1,
    Mcp.gpu_server_status_resource remote packaged server_id (Some m) w
    = Done (res, (Some m, w1)) ∧
    Mcp.uri res = "gpu://status/" +:+ server_id ∧
    (∃ cmds, ssh_log w1 = ssh_log w ++ cmds ∧
             sublist cmds (map status_query matching)) ∧
    match Mcp.text res with
    | Mcp.ErrorJson error =>
        matching = [] ∧ w1 = w ∧
        error = "Server " +:+ server_id +:+ " not found" ∧
        Mcp.description res = error
    | Mcp.StatusJson status =>
        matching ≠ [] ∧
        ServerStatus.server_id status = server_id ∧ status_ok status
    end.
Proof.
  intros Hreach Hpos matching.
  unfold Mcp.gpu_server_status_resource, Mcp.get_monitor.
  pose proof (reachable_cache_ok remote (monitor_config m) w Hreach) as Hok.
  destruct (cluster_status_returns remote (monitor_config m) (Some [server_id]) w
              (or_introl Hpos)) as (cs & w1 & Hcs).
  rewrite Hcs.
  destruct (poll_shape (monitor_config m) (Some [server_id]) w cs w1 Hok Hcs)
    as (Hids & Hshape & Hlog & Hnone).
  rewrite one_id_selection in Hids, Hlog, Hnone.
  fold matching in Hids, Hlog, Hnone.
  destruct (ClusterStatus.servers cs) as [|st sts] eqn:Hsts.
  - eexists _, w1. split; [reflexivity|]. simpl.
    split; [reflexivity|]. split; [exact Hlog|].
    assert (Hnil : matching = []).
    { destruct matching; [reflexivity|discriminate]. }
    split; [exact Hnil|]. split; [|split; reflexivity].
    apply Hnone, Hnil.
  - eexists _, w1. split; [reflexivity|]. simpl.
    split; [reflexivity|]. split; [exact Hlog|].
    destruct matching as [|s rest] eqn:Hm; [discriminate|].
    split; [discriminate|].
    assert (Hs : s ∈ matching) by (rewrite Hm; left).
    apply list_elem_of_filter in Hs as [Hid _].
    simpl in Hids. injection Hids as Hst _.
    split; [congruence|].
    apply Forall_cons in Hshape as [Hst_ok _]. exact Hst_ok.
Qed.

(** X22: the server keeps its monitor, and with it the cache, from one call
    to the next.  Take a server that has no monitor yet, a packaged
    configuration that loads (or is missing), with pairwise distinct ids, a
    positive [max_concurrent] and a numeric [cache_ttl].  The first call of
    the tool [check_gpu_status] builds the monitor and queries every
    selected server exactly once; the same call made again less than
    [cache_ttl] after the first one started sends no command, changes
    nothing and returns the same list of statuses. *)
Theorem tool_polls_share_cache
    (server_id : option string) (env : World) (config : ClusterConfig.t)
    (n ttl : Z) (d : N) :
  _load_config packaged = Return config →
  unique_ids config →
  setting config "max_concurrent" (PyNum 4) = PyNum n →
  0 < n →
  setting config "cache_ttl" (PyNum 30) = PyNum ttl →
  ∃ m cs w1,
    Mcp.check_gpu_status_tool remote packaged server_id None env
    = Done (cs, (Some m, w1)) ∧
    monitor_config m = config ∧
    ssh_log w1
    = ssh_log env
      ++ map status_query (servers_to_check config (one_or_all server_id)) ∧
    (clock (tick d w1) - clock env < ttl →
     ∃ cs2,
       Mcp.check_gpu_status_tool remote packaged server_id (Some m) (tick d w1)
       = Done (cs2, (Some m, tick d w1)) ∧
       ClusterStatus.servers cs2 = ClusterStatus.servers cs).
Proof.
  intros Hload Huniq Hmax Hpos Httl.
  unfold Mcp.check_gpu_status_tool at 1. unfold Mcp.get_monitor.
  rewrite (new_monitor_loaded packaged env config n Hload Hmax) by lia.
  set (m := {| monitor_config := config |}).
  set (w0 := {| _cache := ∅; clock := clock env; ssh_log := ssh_log env |}).
  change (monitor_config m) with config.
  assert (Hpermit : 0 < _semaphore config)
    by (rewrite (semaphore_permits config n Hmax); lia).
  assert (Hnone : ∀ server,
            server ∈ servers_to_check config (one_or_all server_id) →
            _cache w0 !! cache_key (ServerConfig.id server) = None)
    by (intros; apply lookup_empty).
  destruct (poll_then_repeat remote config (one_or_all server_id) w0 ttl d
              Hpermit Huniq Httl Hnone) as (cs & w1 & Hcs & Hlog & Hagain).
  rewrite Hcs.
  exists m, cs, w1. split; [reflexivity|]. split; [reflexivity|].
  split; [exact Hlog|]. intros Hsoon.
  destruct (Hagain Hsoon) as (cs2 & Hcs2 & Hsame).
  unfold Mcp.check_gpu_status_tool, Mcp.get_monitor.
  change (monitor_config m) with config. rewrite Hcs2.
  exists cs2. split; [reflexivity|exact Hsame].
Qed.

End McpFacts.

(** * The further properties at concrete inputs *)

Lemma parse_concatenation_witness :
  let a := "GPU 0: Tesla V100, 85% utilization, 15000/16000 MB" in
  let b := "PID 12345 testuser GPU:0 2048MB python train.py # Memory" in
  longest_digit_run a ≤ max_str_digits ∧
  _parse_nvidia_smi_output (a +:+ nl +:+ b)
  = ((_parse_nvidia_smi_output a).1 ++ (_parse_nvidia_smi_output b).1,
     (_parse_nvidia_smi_output a).2 ++ (_parse_nvidia_smi_output b).2) ∧
  length (_parse_nvidia_smi_output (a +:+ nl +:+ b)).1 = 1%nat ∧
  length (_parse_nvidia_smi_output (a +:+ nl +:+ b)).2 = 1%nat.
Proof.
  cbv zeta. split; [vm_compute; discriminate|].
  split; [|vm_compute; auto].
  apply (parse_concatenation
           "GPU 0: Tesla V100, 85% utilization, 15000/16000 MB"
           "PID 12345 testuser GPU:0 2048MB python train.py # Memory").
  vm_compute. discriminate.
Defined.

(** The text of the test fixture has no process line the parser accepts. *)
Lemma parser_needs_keywords_witness :
  (py_in "GPU" conftest_output = false ∨ py_in "%" conftest_output = false →
   (_parse_nvidia_smi_output conftest_output).1 = []) ∧
  (py_in "PID" conftest_output = false ∨ py_in "Memory" conftest_output = false →
   (_parse_nvidia_smi_output conftest_output).2 = []) ∧
  py_in "Memory" conftest_output = false ∧
  (_parse_nvidia_smi_output conftest_output).2 = [].
Proof.
  pose proof (parser_needs_keywords conftest_output) as [Hg Hp].
  split; [exact Hg|]. split; [exact Hp|].
  split; [vm_compute; reflexivity|].
  apply Hp. right. vm_compute. reflexivity.
Defined.

(** A server of the twin cluster, polled once: its entry is there and was
    stored at the present time, and with [cache_ttl] zero it is not used. *)
Lemma nonpositive_ttl_disables_cache_witness :
  ∃ cs w,
    get_cluster_status twin_remote twin_config None (init 0) = Done (cs, w) ∧
    is_Some (_cache w !! cache_key (ServerConfig.id gpu01)) ∧
    0 < _semaphore twin_config ∧
    setting twin_config "cache_ttl" (PyNum 30) = PyNum 0 ∧
    0 ≤ 0 ∧
    (∀ st ts, _cache w !! cache_key (ServerConfig.id gpu01) = Some (st, ts) →
              ts ≤ clock w) ∧
    _get_server_status twin_remote twin_config gpu01 w
    = Done (Return (fresh_status twin_remote twin_config gpu01 w).1,
            (fresh_status twin_remote twin_config gpu01 w).2) ∧
    ssh_log (fresh_status twin_remote twin_config gpu01 w).2
    = ssh_log w ++ [status_query gpu01].
Proof.
  eexists _, _. split; [vm_compute; reflexivity|].
  split; [vm_compute; eauto|].
  split; [vm_compute; reflexivity|].
  split; [vm_compute; reflexivity|]. split; [lia|].
  match goal with
  | |- ?past ∧ _ => assert (Hpast : past)
  end.
  { intros st ts H. vm_compute in H. injection H as _ <-.
    vm_compute. discriminate. }
  split; [exact Hpast|].
  apply (nonpositive_ttl_disables_cache twin_remote twin_config gpu01 _ 0).
  - vm_compute. reflexivity.
  - vm_compute. reflexivity.
  - lia.
  - exact Hpast.
Defined.

(** An entry stamped later than the clock reads is served even with a
    negative [cache_ttl]: the clock was set back after the entry was
    stored. *)
Example entry_from_the_future :
  let config :=
    ClusterConfig.mk [gpu01] (list_to_map [("cache_ttl", PyNum (-5))]) in
  let stored := _set_cache (cache_key "gpu01") drifting_first.1 (init 10) in
  let w := {| _cache := _cache stored; clock := 0; ssh_log := [] |} in
  _get_server_status drifting_remote config gpu01 w
  = Done (Return drifting_first.1, w).
Proof. vm_compute. reflexivity. Qed.

Lemma text_ttl_blinds_monitor_witness :
  setting text_ttl_config "cache_ttl" (PyNum 30) = PyStr "30" ∧
  ∃ cs w0,
    get_cluster_status drifting_remote text_ttl_config None (init 0)
    = Done (cs, w0) ∧
    let w1 := tick 100 w0 in
    let selected := servers_to_check text_ttl_config None in
    get_cluster_status drifting_remote text_ttl_config None w1
    = Done (ClusterStatus.mk (map (type_error_status (clock w1)) selected) 0 0
              (length selected) (clock w1), w1).
Proof.
  split; [vm_compute; reflexivity|].
  eexists _, _. split; [vm_compute; reflexivity|].
  eapply (text_ttl_blinds_monitor drifting_remote text_ttl_config "30" None
            (init 0)).
  - vm_compute. reflexivity.
  - vm_compute. reflexivity.
Defined.

Lemma poll_effects_witness :
  let server_ids := Some ["test-gpu02"] in
  ∃ cs w1,
    get_cluster_status fixture_remote fixture_config server_ids (init 0)
    = Done (cs, w1) ∧
    let selected := filter (passes server_ids)
                      (ClusterConfig.servers fixture_config) in
    (∃ cmds, ssh_log w1 = ssh_log (init 0) ++ cmds ∧
             sublist cmds (map status_query selected)) ∧
    clock (init 0) ≤ clock w1 ∧
    ∀ key, (∀ server, server ∈ selected →
                      key ≠ cache_key (ServerConfig.id server)) →
           _cache w1 !! key = _cache (init 0) !! key.
Proof.
  cbv zeta. eexists _, _. split; [vm_compute; reflexivity|].
  eapply (poll_effects fixture_remote fixture_config (Some ["test-gpu02"])
            (init 0)).
  vm_compute. reflexivity.
Defined.

Lemma first_poll_then_cached_witness :
  0 < _semaphore fixture_config ∧
  unique_ids fixture_config ∧
  setting fixture_config "cache_ttl" (PyNum 30) = PyNum 5 ∧
  (∀ server, server ∈ servers_to_check fixture_config None →
             _cache (init 0) !! cache_key (ServerConfig.id server) = None) ∧
  ∃ cs1 w1,
    get_cluster_status fixture_remote fixture_config None (init 0)
    = Done (cs1, w1) ∧
    ssh_log w1
    = ssh_log (init 0) ++ map status_query (servers_to_check fixture_config None) ∧
    (clock (tick 3 w1) - clock (init 0) < 5 →
     ∃ cs2,
       get_cluster_status fixture_remote fixture_config None (tick 3 w1)
       = Done (cs2, tick 3 w1) ∧
       ClusterStatus.servers cs2 = ClusterStatus.servers cs1) ∧
    clock (tick 3 w1) - clock (init 0) < 5.
Proof.
  split; [vm_compute; reflexivity|].
  split; [exact fixture_unique_ids|].
  split; [vm_compute; reflexivity|].
  split; [intros; apply lookup_empty|].
  destruct (first_poll_then_cached fixture_remote fixture_config None (init 0)
              5 3) as (cs1 & w1 & Hcs & Hlog & Hagain).
  - vm_compute. reflexivity.
  - exact fixture_unique_ids.
  - vm_compute. reflexivity.
  - intros. apply lookup_empty.
  - exists cs1, w1. split; [exact Hcs|]. split; [exact Hlog|].
    split; [exact Hagain|].
    vm_compute in Hcs. injection Hcs as _ <-. vm_compute. reflexivity.
Defined.

Lemma cluster_counts_bounded_witness :
  ∃ cs w1,
    get_cluster_status fixture_remote fixture_config None (init 0)
    = Done (cs, w1) ∧
    ClusterStatus.total_servers cs = length (ClusterStatus.servers cs) ∧
    ClusterStatus.total_servers cs
    = length (filter (passes None) (ClusterConfig.servers fixture_config)) ∧
    0 ≤ ClusterStatus.online_servers cs
      ≤ Z.of_nat (ClusterStatus.total_servers cs) ∧
    0 ≤ ClusterStatus.total_gpus cs.
Proof.
  eexists _, _. split; [vm_compute; reflexivity|].
  eapply (cluster_counts_bounded fixture_remote fixture_config None (init 0)).
  vm_compute. reflexivity.
Defined.

Lemma gpu99_unknown :
  ∀ server, server ∈ ClusterConfig.servers fixture_config →
            ServerConfig.id server ∉ ["gpu99"].
Proof.
  intros server Hs Hin. apply list_elem_of_singleton in Hin. simpl in Hs.
  apply elem_of_cons in Hs as [->|Hs]; [discriminate Hin|].
  apply list_elem_of_singleton in Hs as ->. discriminate Hin.
Defined.

Lemma unknown_ids_select_nothing_witness :
  ["gpu99"] ≠ [] ∧
  (∀ server, server ∈ ClusterConfig.servers fixture_config →
             ServerConfig.id server ∉ ["gpu99"]) ∧
  get_cluster_status fixture_remote fixture_config (Some ["gpu99"]) (init 0)
  = Done (ClusterStatus.mk [] 0 0 0 (clock (init 0)), init 0) ∧
  get_user_usage fixture_remote fixture_config "testuser" (Some ["gpu99"]) (init 0)
  = Done (UserUsageSummary.mk "testuser" 0 0 [] [] (clock (init 0)), init 0) ∧
  kill_user_tasks fixture_remote fixture_config "testuser" (Some ["gpu99"]) true
    (init 0)
  = Done ([("message", "No processes found for user " +:+ "testuser")], init 0).
Proof.
  split; [discriminate|]. split; [exact gpu99_unknown|].
  apply (unknown_ids_select_nothing fixture_remote fixture_config ["gpu99"]
           "testuser" (init 0)); [discriminate|exact gpu99_unknown].
Defined.

(** The usage of alice on the twin cluster, where she has a process on each
    of the two servers that share an id. *)
Lemma usage_lists_only_matching_witness :
  let user := "alice" in
  ∃ usage w1,
    get_user_usage twin_remote twin_config user None (init 0)
    = Done (usage, w1) ∧
    UserUsageSummary.processes_by_server usage
    = [("gpu01", [ProcessInfo.mk 200 "alice" 0 1024 "python # Memory"])] ∧
    ∃ cs,
      get_cluster_status twin_remote twin_config None (init 0) = Done (cs, w1) ∧
      let sts := ClusterStatus.servers cs in
      let everything :=
        concat (map (matched user)
                  (filter (λ st, ServerStatus.online st = true) sts)) in
      (∀ sid ps,
         (sid, ps) ∈ UserUsageSummary.processes_by_server usage →
         ps ≠ [] ∧
         Forall (λ p, ProcessInfo.username p = user) ps ∧
         ∃ st, st ∈ sts ∧ ServerStatus.server_id st = sid ∧
               ServerStatus.online st = true ∧
               ps = filter (λ p, ProcessInfo.username p = user)
                      (ServerStatus.processes st)) ∧
      UserUsageSummary.total_processes usage = length everything ∧
      UserUsageSummary.total_memory_used_mb usage
      = sumZ (map ProcessInfo.memory_used_mb everything).
Proof.
  cbv zeta. eexists _, _. split; [vm_compute; reflexivity|].
  split; [vm_compute; reflexivity|].
  eapply (usage_lists_only_matching twin_remote twin_config "alice" None
            (init 0)).
  vm_compute. reflexivity.
Defined.

(** The process of john-doe is on the host and is not parsed, so it is not
    found. *)
Lemma unparsable_user_is_invisible_witness :
  reachable hyphen_remote default_config (init 0) ∧
  ("john-doe" = "" ∨ all_chars is_word "john-doe" = false) ∧
  ∃ cs w1,
    get_cluster_status hyphen_remote default_config None (init 0)
    = Done (cs, w1) ∧
    get_user_usage hyphen_remote default_config "john-doe" None (init 0)
    = Done (UserUsageSummary.mk "john-doe" 0 0 [] [] (clock w1), w1) ∧
    kill_user_tasks hyphen_remote default_config "john-doe" None true (init 0)
    = Done ([("message", "No processes found for user " +:+ "john-doe")], w1).
Proof.
  split; [apply reach_init|].
  split; [right; vm_compute; reflexivity|].
  eexists _, _. split; [vm_compute; reflexivity|].
  eapply (unparsable_user_is_invisible hyphen_remote default_config "john-doe"
            None (init 0)).
  - apply reach_init.
  - right. vm_compute. reflexivity.
  - vm_compute. reflexivity.
Defined.

Lemma kill_without_processes_witness :
  ∃ cs w1,
    get_cluster_status fixture_remote fixture_config None (init 0)
    = Done (cs, w1) ∧
    (∀ st, st ∈ ClusterStatus.servers cs →
           ServerStatus.online st = true →
           Forall (λ p, ProcessInfo.username p ≠ "nobody")
             (ServerStatus.processes st)) ∧
    kill_user_tasks fixture_remote fixture_config "nobody" None true (init 0)
    = Done ([("message", "No processes found for user " +:+ "nobody")], w1).
Proof.
  eexists _, _. split; [vm_compute; reflexivity|].
  match goal with
  | |- ?nobody ∧ _ => assert (Hnobody : nobody)
  end.
  { intros st Hst _. revert st Hst. apply Forall_forall. vm_compute.
    repeat (constructor; [repeat (constructor; [discriminate|]); constructor|]).
    constructor. }
  split; [exact Hnobody|].
  eapply (kill_without_processes fixture_remote fixture_config "nobody" None
            (init 0)).
  - vm_compute. reflexivity.
  - exact Hnobody.
Defined.

Lemma kill_sends_only_listed_pids_witness :
  let user := "testuser" in
  ∃ usage w1,
    get_user_usage fixture_remote fixture_config user None (init 0)
    = Done (usage, w1) ∧
    let items := UserUsageSummary.processes_by_server usage in
    ∃ results w2 cmds,
      kill_user_tasks fixture_remote fixture_config user None true (init 0)
      = Done (results, w2) ∧
      ssh_log w2 = ssh_log w1 ++ cmds ∧
      Forall2 (kills fixture_config)
        (filter (λ item, configured fixture_config item.1) items) cmds ∧
      (items ≠ [] → dict_keys results = dict_keys items) ∧
      (∀ sid ps, (sid, ps) ∈ items →
                 Forall (λ p, ProcessInfo.username p = user) ps) ∧
      clock w1 ≤ clock w2 ∧
      (∀ other, other ∉ dict_keys items →
                _cache w2 !! cache_key other = _cache w1 !! cache_key other).
Proof.
  cbv zeta. eexists _, _. split; [vm_compute; reflexivity|].
  eapply (kill_sends_only_listed_pids fixture_remote fixture_config "testuser"
            None (init 0)).
  vm_compute. reflexivity.
Defined.

(** The one command a kill on the fixture adds to the two status queries. *)
Example fixture_kill_commands :
  ∃ results w,
    kill_user_tasks fixture_remote fixture_config "testuser" None true (init 0)
    = Done (results, w) ∧
    ssh_log w
    = [("test1.example.com", status_command);
       ("test2.example.com", status_command);
       ("test1.example.com", "kill -9 12345 67890")].
Proof. eexists _, _. split; vm_compute; reflexivity. Qed.

Lemma kill_reaches_every_listed_server_witness :
  reachable fixture_remote fixture_config (init 0) ∧
  ∃ usage w1,
    get_user_usage fixture_remote fixture_config "testuser" None (init 0)
    = Done (usage, w1) ∧
    let items := UserUsageSummary.processes_by_server usage in
    Forall (λ item, configured fixture_config item.1) items ∧
    ∃ results w2 cmds,
      kill_user_tasks fixture_remote fixture_config "testuser" None true (init 0)
      = Done (results, w2) ∧
      ssh_log w2 = ssh_log w1 ++ cmds ∧
      Forall2 (kills fixture_config) items cmds ∧
      Forall (λ entry, entry.2 ≠ "Server config not found") results.
Proof.
  split; [apply reach_init|].
  eexists _, _. split; [vm_compute; reflexivity|].
  eapply (kill_reaches_every_listed_server fixture_remote fixture_config
            "testuser" None (init 0)).
  - apply reach_init.
  - vm_compute. reflexivity.
Defined.

Lemma killed_server_is_polled_again_witness :
  ∃ results w2,
    kill_user_tasks fixture_remote fixture_config "testuser" None true (init 0)
    = Done (results, w2) ∧
    dict_get (ServerConfig.id fixture_first) results = Some "Killed 2 processes" ∧
    starts_with "Killed" "Killed 2 processes" = true ∧
    _cache w2 !! cache_key (ServerConfig.id fixture_first) = None ∧
    _get_server_status fixture_remote fixture_config fixture_first (tick 1 w2)
    = Done (Return (fresh_status fixture_remote fixture_config fixture_first
                      (tick 1 w2)).1,
            (fresh_status fixture_remote fixture_config fixture_first
               (tick 1 w2)).2).
Proof.
  eexists _, _. split; [vm_compute; reflexivity|].
  split; [vm_compute; reflexivity|].
  split; [vm_compute; reflexivity|].
  eapply (killed_server_is_polled_again fixture_remote fixture_config "testuser"
            None (init 0) _ _ fixture_first "Killed 2 processes" 1).
  - vm_compute. reflexivity.
  - vm_compute. reflexivity.
  - vm_compute. reflexivity.
Defined.

Lemma cache_round_trip_witness :
  let data := drifting_first.1 in
  let stored := tick 4 (_set_cache "a" data (init 10)) in
  "b" ≠ "a" ∧
  _get_cached "a" stored = Some data ∧
  _is_cache_valid "a" (PyNum 5) stored = Return (bool_decide (Z.of_N 4 < 5)) ∧
  ("b" ≠ "a" →
   _get_cached "b" stored = _get_cached "b" (init 10) ∧
   _cache stored !! "b" = _cache (init 10) !! "b") ∧
  _is_cache_valid "a" (PyStr "x") (invalidate "a" stored) = Return false ∧
  _get_cached "a" (invalidate "a" stored) = None.
Proof.
  cbv zeta. split; [discriminate|].
  apply (cache_round_trip "a" "b" drifting_first.1 5 (PyStr "x") 4 (init 10)).
Defined.

Lemma check_gpu_status_always_polls_witness :
  _load_config (Loaded fixture_config) = Return fixture_config ∧
  unique_ids fixture_config ∧
  setting fixture_config "max_concurrent" (PyNum 4) = PyNum 2 ∧
  0 < 2 ∧
  let selected :=
    filter (λ s, "test-gpu02" = "all" ∨ ServerConfig.id s = "test-gpu02")
      (ClusterConfig.servers fixture_config) in
  ∃ cs w,
    Core.check_gpu_status fixture_remote "test-gpu02" (Loaded fixture_config)
      (init 7) = Done (cs, w) ∧
    ssh_log w = ssh_log (init 7) ++ map status_query selected ∧
    map ServerStatus.server_id (ClusterStatus.servers cs)
    = map ServerConfig.id selected.
Proof.
  split; [reflexivity|]. split; [exact fixture_unique_ids|].
  split; [vm_compute; reflexivity|]. split; [lia|].
  apply (check_gpu_status_always_polls fixture_remote "test-gpu02"
           (Loaded fixture_config) (init 7) fixture_config 2).
  - reflexivity.
  - exact fixture_unique_ids.
  - vm_compute. reflexivity.
  - lia.
Defined.

(** With processes to kill and the confirmation given on the command line,
    the command lists the processes and stops. *)
Example cli_kill_confirmed :
  let run := Cli.kill fixture_remote (Some "testuser") None true false None
               (Loaded fixture_config) (init 0) in
  echoed run
  = [EchoToKill "testuser"; EchoServer "test-gpu01" 2;
     EchoProcess 12345 0 "python train.py # Memory";
     EchoProcess 67890 1 "python inference.py # Memory"] ∧
  ending run = Raised unbound_confirm ∧
  map fst (ssh_log (after run)) = ["test1.example.com"; "test2.example.com"].
Proof. vm_compute. auto. Qed.

Lemma cli_kill_never_kills_witness :
  let run := Cli.kill fixture_remote (Some "testuser") None true false None
               (Loaded fixture_config) (init 0) in
  (∃ cmds, ssh_log (after run) = ssh_log (init 0) ++ cmds ∧
           Forall (λ cmd, cmd.2 = status_command) cmds) ∧
  (ending run = Done tt →
   false = true ∨
   echoed run
   = [EchoNoProcesses (py_or (Some "testuser") (get_current_user None))]) ∧
  (false = false →
   ∀ username, EchoToKill username ∈ echoed run →
               ending run = Raised unbound_confirm) ∧
  run = Cli.kill fixture_remote (Some "testuser") None (negb true) false None
          (Loaded fixture_config) (init 0).
Proof.
  apply (cli_kill_never_kills fixture_remote (Some "testuser") None true false
           None (Loaded fixture_config) (init 0)).
Defined.

(** The resource of the first server of the fixture, and of a server that
    is not configured. *)
Example fixture_resources :
  let m := {| monitor_config := fixture_config |} in
  (∃ st w,
     Mcp.gpu_server_status_resource fixture_remote NoSuchFile "test-gpu01"
       (Some m) (init 0)
     = Done ({| Mcp.uri := "gpu://status/test-gpu01";
                Mcp.name := "GPU Server test-gpu01 Status";
                Mcp.description := "Current status of GPU server test-gpu01";
                Mcp.mimeType := "application/json";
                Mcp.text := Mcp.StatusJson st |}, (Some m, w)) ∧
     ServerStatus.online st = true ∧
     map fst (ssh_log w) = ["test1.example.com"]) ∧
  Mcp.gpu_server_status_resource fixture_remote NoSuchFile "" (Some m) (init 0)
  = Done ({| Mcp.uri := "gpu://status/";
             Mcp.name := "GPU Server  Status";
             Mcp.description := "Server  not found";
             Mcp.mimeType := "application/json";
             Mcp.text := Mcp.ErrorJson "Server  not found" |},
          (Some m, init 0)).
Proof.
  cbv zeta. split.
  - eexists _, _. split; [vm_compute; reflexivity|].
    split; reflexivity.
  - vm_compute. reflexivity.
Qed.

Lemma server_resource_answers_witness :
  let m := {| monitor_config := fixture_config |} in
  reachable fixture_remote (monitor_config m) (init 0) ∧
  0 < _semaphore (monitor_config m) ∧
  let matching :=
    filter (λ s, ServerConfig.id s = "test-gpu01")
      (ClusterConfig.servers (monitor_config m)) in
  ∃ res w1,
    Mcp.gpu_server_status_resource fixture_remote NoSuchFile "test-gpu01"
      (Some m) (init 0)
    = Done (res, (Some m, w1)) ∧
    Mcp.uri res = "gpu://status/" +:+ "test-gpu01" ∧
    (∃ cmds, ssh_log w1 = ssh_log (init 0) ++ cmds ∧
             sublist cmds (map status_query matching)) ∧
    match Mcp.text res with
    | Mcp.ErrorJson error =>
        matching = [] ∧ w1 = init 0 ∧
        error = "Server " +:+ "test-gpu01" +:+ " not found" ∧
        Mcp.description res = error
    | Mcp.StatusJson status =>
        matching ≠ [] ∧
        ServerStatus.server_id status = "test-gpu01" ∧ status_ok status
    end.
Proof.
  cbv zeta. split; [apply reach_init|]. split; [vm_compute; reflexivity|].
  apply (server_resource_answers fixture_remote NoSuchFile "test-gpu01"
           {| monitor_config := fixture_config |} (init 0)).
  - apply reach_init.
  - vm_compute. reflexivity.
Defined.

Lemma tool_polls_share_cache_witness :
  _load_config (Loaded fixture_config) = Return fixture_config ∧
  unique_ids fixture_config ∧
  setting fixture_config "max_concurrent" (PyNum 4) = PyNum 2 ∧
  0 < 2 ∧
  setting fixture_config "cache_ttl" (PyNum 30) = PyNum 5 ∧
  ∃ m cs w1,
    Mcp.check_gpu_status_tool fixture_remote (Loaded fixture_config) None None
      (init 0)
    = Done (cs, (Some m, w1)) ∧
    monitor_config m = fixture_config ∧
    ssh_log w1
    = ssh_log (init 0)
      ++ map status_query (servers_to_check fixture_config (one_or_all None)) ∧
    (clock (tick 3 w1) - clock (init 0) < 5 →
     ∃ cs2,
       Mcp.check_gpu_status_tool fixture_remote (Loaded fixture_config) None
         (Some m) (tick 3 w1)
       = Done (cs2, (Some m, tick 3 w1)) ∧
       ClusterStatus.servers cs2 = ClusterStatus.servers cs).
Proof.
  split; [reflexivity|]. split; [exact fixture_unique_ids|].
  split; [vm_compute; reflexivity|]. split; [lia|].
  split; [vm_compute; reflexivity|].
  apply (tool_polls_share_cache fixture_remote (Loaded fixture_config) None
           (init 0) fixture_config 2 5 3).
  - reflexivity.
  - exact fixture_unique_ids.
  - vm_compute. reflexivity.
  - lia.
  - vm_compute. reflexivity.
Defined.

(** Two calls of the tool on the fixture, three seconds apart: the second
    one is answered from the cache. *)
Example fixture_tool_twice :
  match Mcp.check_gpu_status_tool fixture_remote (Loaded fixture_config) None
          None (init 0) with
  | Done (cs, (global, w1)) =>
      clock (tick 3 w1) - clock (init 0) < 5 ∧
      map fst (ssh_log w1) = ["test1.example.com"; "test2.example.com"] ∧
      match Mcp.check_gpu_status_tool fixture_remote (Loaded fixture_config)
              None global (tick 3 w1) with
      | Done (cs2, (_, w2)) =>
          ClusterStatus.servers cs2 = ClusterStatus.servers cs ∧
          ssh_log w2 = ssh_log w1
      | _ => False
      end
  | _ => False
  end.
Proof. vm_compute. repeat split; reflexivity. Qed.

Lemma check_user_usage_follows_status_witness :
  _load_config (Loaded fixture_config) = Return fixture_config ∧
  unique_ids fixture_config ∧
  match Core.check_gpu_status fixture_remote "all" (Loaded fixture_config)
          (init 0) with
  | Done (cs, w) =>
      ∃ usage,
        Core.check_user_usage fixture_remote "testuser" "all"
          (Loaded fixture_config) (init 0)
        = Done (usage, w) ∧
        let found := filter (contributes "testuser") (ClusterStatus.servers cs) in
        UserUsageSummary.username usage = "testuser" ∧
        UserUsageSummary.processes_by_server usage
        = map (λ st, (ServerStatus.server_id st, matched "testuser" st)) found ∧
        UserUsageSummary.servers_used usage
        = map ServerStatus.server_id found ∧
        UserUsageSummary.total_processes usage
        = length (concat (map (matched "testuser") found)) ∧
        UserUsageSummary.total_memory_used_mb usage
        = sumZ (map ProcessInfo.memory_used_mb
                  (concat (map (matched "testuser") found)))
  | Raised e =>
      Core.check_user_usage fixture_remote "testuser" "all"
        (Loaded fixture_config) (init 0) = Raised e
  | Blocked =>
      Core.check_user_usage fixture_remote "testuser" "all"
        (Loaded fixture_config) (init 0) = Blocked
  end.
Proof.
  split; [reflexivity|]. split; [exact fixture_unique_ids|].
  apply (check_user_usage_follows_status fixture_remote "testuser" "all"
           (Loaded fixture_config) (init 0) fixture_config).
  - reflexivity.
  - exact fixture_unique_ids.
Defined.

(** With [max_concurrent] set to zero the monitor is built and every check
    of a configured server waits for ever. *)
Example zero_permits_block :
  Core.check_gpu_status fixture_remote "all" (Loaded starved_config) (init 0)
  = Blocked ∧
  Core.check_user_usage fixture_remote "testuser" "test-gpu01"
    (Loaded starved_config) (init 0) = Blocked ∧
  (∃ cs w,
     Core.check_gpu_status fixture_remote "gpu99" (Loaded starved_config)
       (init 0) = Done (cs, w) ∧
     ClusterStatus.servers cs = []).
Proof.
  split; [vm_compute; reflexivity|].
  split; [vm_compute; reflexivity|].
  eexists _, _. split; [vm_compute; reflexivity|reflexivity].
Qed.

